(** * pySudoers: the rule-extraction pipeline of [pySudoers.py]

    A shallow embedding of the script that moves per-principal rules out of
    a sudoers file into one fragment file per principal, and the properties
    of its specification stated over that embedding.

    - Text is a list of characters. A character is a code point below 256,
      so the Python [str] operations the script uses ([strip], [split],
      [lower], [replace], [in], the classes of the regular expression) are
      modelled on that range.
    - The file system is a finite table from paths to files and
      directories; an operation can also fail for a reason outside the
      table, as an oracle says.
    - The validator is a function from the file system and a path to an
      exit status.
    - A function of the script is a computation that takes the file system
      and leaves a value or [IOError], a file system, and the messages it
      printed.

    The command line and the backup of the source file are not modelled. *)

From Stdlib Require Import Ascii String.
From Stdlib Require Import List ZArith Bool Arith Lia.
Import ListNotations.

Set Implicit Arguments.

(** ** Text *)

Definition str := list ascii.

Definition lit (s : string) : str := list_ascii_of_string s.
Arguments lit s%_string.

Definition code (c : ascii) : nat := nat_of_ascii c.

Definition in_range (lo hi : nat) (c : ascii) : bool :=
  (lo <=? code c) && (code c <=? hi).

(** [str.isspace] on one character, which is also the class [\s] of a
    [str] pattern: TAB, LF, VT, FF, CR, FS, GS, RS, US, SPACE, NEL, NBSP. *)
Definition is_space (c : ascii) : bool :=
  in_range 9 13 c || in_range 28 32 c || (code c =? 133) || (code c =? 160).

Definition newline : ascii := "010"%char.
Definition carriage_return : ascii := "013"%char.
Definition percent : ascii := "%"%char.
Definition hash : ascii := "#"%char.
Definition slash : ascii := "/"%char.
Definition space : ascii := " "%char.

(** [str.lower] on one character: A-Z, and the upper-case letters of the
    Latin-1 block (all of 0xC0-0xDE but the multiplication sign 0xD7). *)
Definition lower_char (c : ascii) : ascii :=
  if in_range 65 90 c || (in_range 192 222 c && negb (code c =? 215))
  then ascii_of_nat (code c + 32) else c.

Definition lower (s : str) : str := map lower_char s.

Fixpoint str_eqb (a b : str) : bool :=
  match a, b with
  | [], [] => true
  | x :: a', y :: b' => Ascii.eqb x y && str_eqb a' b'
  | _, _ => false
  end.

(** [str.lstrip], [str.rstrip] and [str.strip] without argument. *)
Fixpoint lstrip (s : str) : str :=
  match s with
  | [] => []
  | c :: s' => if is_space c then lstrip s' else s
  end.

Definition rstrip (s : str) : str := rev (lstrip (rev s)).

Definition strip (s : str) : str := rstrip (lstrip s).

(** [str.split] without argument: the maximal runs of non-blank characters. *)
Fixpoint split_ws (s : str) : list str :=
  match s with
  | [] => []
  | c :: s' =>
      if is_space c then split_ws s'
      else match s' with
           | [] => [[c]]
           | d :: _ =>
               if is_space d then [c] :: split_ws s'
               else match split_ws s' with
                    | w :: ws => (c :: w) :: ws
                    | [] => [[c]]
                    end
           end
  end.

(** [sep.join(words)]. *)
Fixpoint join (sep : str) (words : list str) : str :=
  match words with
  | [] => []
  | w :: rest =>
      match rest with
      | [] => w
      | _ :: _ => w ++ sep ++ join sep rest
      end
  end.

(** [' '.join(s.lower().split())]. *)
Definition normalize (s : str) : str := join [space] (split_ws (lower s)).

(** [re.sub(r'#.*', '', s)]: [.] stops at a line feed, so each comment is
    cut from its [#] up to, not including, the end of its line. *)
Fixpoint strip_comments_from (in_comment : bool) (s : str) : str :=
  match s with
  | [] => []
  | c :: s' =>
      if Ascii.eqb c newline then c :: strip_comments_from false s'
      else if in_comment then strip_comments_from true s'
      else if Ascii.eqb c hash then strip_comments_from true s'
      else c :: strip_comments_from false s'
  end.

Definition strip_comments (s : str) : str := strip_comments_from false s.

Fixpoint prefixb (a b : str) : bool :=
  match a, b with
  | [], _ => true
  | x :: a', y :: b' => Ascii.eqb x y && prefixb a' b'
  | _ :: _, [] => false
  end.

(** [a in b] on strings. *)
Fixpoint infixb (a b : str) : bool :=
  prefixb a b || match b with
                 | [] => false
                 | _ :: b' => infixb a b'
                 end.

(** [s.replace('%', '')]. *)
Definition replace_percent (s : str) : str :=
  filter (fun c => negb (Ascii.eqb c percent)) s.

(** Text-mode reading translates CR LF and a lone CR to LF. *)
Fixpoint universal_newlines (s : str) : str :=
  match s with
  | [] => []
  | c :: s' =>
      if Ascii.eqb c carriage_return then
        newline :: match s' with
                   | [] => []
                   | d :: s'' =>
                       if Ascii.eqb d newline then universal_newlines s''
                       else universal_newlines s'
                   end
      else c :: universal_newlines s'
  end.

(** Iterating over a text file: the lines, each with its terminator. *)
Fixpoint splitlines (s : str) : list str :=
  match s with
  | [] => []
  | c :: s' =>
      if Ascii.eqb c newline then [c] :: splitlines s'
      else match splitlines s' with
           | l :: ls => (c :: l) :: ls
           | [] => [[c]]
           end
  end.

(** ** Regular expressions

    The fragment of Python's [re] that [rule_regex] uses, with the
    backtracking order of the engine: a quantifier first takes as much as it
    can and gives back one character at a time; an optional part is tried
    before it is skipped. Repetition is over a single character class, which
    is all the pattern needs. *)

Inductive regex :=
| Lit (s : str)
| Cls (p : ascii -> bool)
| Seq (r1 r2 : regex)
| Opt (r : regex)
| Star (p : ascii -> bool)
| Plus (p : ascii -> bool).

Fixpoint take_lit (l s : str) : option str :=
  match l, s with
  | [], _ => Some s
  | x :: l', y :: s' => if Ascii.eqb x y then take_lit l' s' else None
  | _ :: _, [] => None
  end.

Definition or_else {A} (x y : option A) : option A :=
  match x with
  | Some _ => x
  | None => y
  end.

Fixpoint star {A} (p : ascii -> bool) (s : str) (k : str -> option A) : option A :=
  match s with
  | [] => k []
  | c :: s' => if p c then or_else (star p s' k) (k s) else k s
  end.

Fixpoint rmatch {A} (r : regex) (s : str) (k : str -> option A) : option A :=
  match r with
  | Lit l => match take_lit l s with
             | Some s' => k s'
             | None => None
             end
  | Cls p => match s with
             | c :: s' => if p c then k s' else None
             | [] => None
             end
  | Seq r1 r2 => rmatch r1 s (fun s' => rmatch r2 s' k)
  | Opt r' => or_else (rmatch r' s k) (k s)
  | Star p => star p s k
  | Plus p => match s with
              | c :: s' => if p c then star p s' k else None
              | [] => None
              end
  end.

(** [$] without [re.MULTILINE]: the end of the text, or just before a line
    feed that ends the text. *)
Definition at_eol (s : str) : bool :=
  match s with
  | [] => true
  | c :: [] => Ascii.eqb c newline
  | _ => false
  end.

Definition is_az (c : ascii) : bool := in_range 97 122 c.
Definition is_digit (c : ascii) : bool := in_range 48 57 c.
Definition underscore : ascii := "_"%char.
Definition hyphen : ascii := "-"%char.

(** [[a-z_]] *)
Definition head_char (c : ascii) : bool := is_az c || Ascii.eqb c underscore.

(** [[a-z0-9_\-]] *)
Definition ident_char (c : ascii) : bool :=
  is_az c || is_digit c || Ascii.eqb c underscore || Ascii.eqb c hyphen.

(** [.] without [re.DOTALL] *)
Definition dot (c : ascii) : bool := negb (Ascii.eqb c newline).

(** Group 1: [\%?[a-z_][a-z0-9_\-]*] *)
Definition re_group1 : regex :=
  Seq (Opt (Lit (lit "%"))) (Seq (Cls head_char) (Star ident_char)).

(** The rest of the pattern, up to [$]: blanks, [ALL=(ALL)], an optional
    [:ALL], an optional [NOPASSWD: ALL] after blanks, and optionally blanks
    followed by the rest of the line. *)
Definition re_tail : regex :=
  Seq (Plus is_space)
 (Seq (Lit (lit "ALL=(ALL)"))
 (Seq (Opt (Lit (lit ":ALL")))
 (Seq (Opt (Seq (Plus is_space) (Lit (lit "NOPASSWD: ALL"))))
      (Opt (Seq (Plus is_space) (Star dot)))))).

(** [rule_regex], whole. *)
Definition rule_regex : regex := Seq re_group1 re_tail.

(** [rule_regex.match(s)], then [.group(1)]. [match] starts at the first
    character, where [^] holds; the text taken by group 1 is what lies
    before the place where the rest of the pattern starts. *)
Definition rule_regex_match (s : str) : option str :=
  rmatch re_group1 s (fun s1 =>
  rmatch re_tail s1 (fun s2 =>
  if at_eol s2 then Some (firstn (length s - length s1) s) else None)).

(** The name of the fragment file, as [create_sudoers_d_files] builds it. *)
Definition fragment_path (sudoers_d_dir file_prefix user_or_group : str) : str :=
  sudoers_d_dir ++ lit "/" ++ file_prefix ++ lit "_" ++ replace_percent user_or_group.

(** [user_or_group.lower() not in ['root', '%wheel']], negated. *)
Definition excluded (user_or_group : str) : bool :=
  str_eqb (lower user_or_group) (lit "root")
  || str_eqb (lower user_or_group) (lit "%wheel").

(** ** The file system

    A file is reached by a spelling the program gives ([Named]) or is one
    made up by [tempfile] ([Temp]). The system resolves a spelling before
    it looks for the file: a run of slashes counts as one slash, and a
    slash at the end, but for the root, does not count, so
    [/etc/sudoers.d//10_alice] and [/etc/sudoers.d/10_alice] are one file.
    Nothing more is resolved here: no [.], no [..], no link. A slash behind
    the name of what is a file, an error for the system, is one of the
    failures that [io_fail] stands for. A file is what it holds: owner,
    mode and times are not kept, so what is stated of a file is stated of
    its content. The list keeps the order in which a directory reports its
    entries. *)

Definition starts_with_slash (s : str) : bool :=
  match s with
  | c :: _ => Ascii.eqb c slash
  | [] => false
  end.

(** A run of slashes becomes one slash. *)
Fixpoint squeeze (s : str) : str :=
  match s with
  | [] => []
  | c :: s' =>
      if Ascii.eqb c slash && starts_with_slash s' then squeeze s'
      else c :: squeeze s'
  end.

(** A slash at the end is dropped, unless it is all there is. *)
Definition chomp (s : str) : str :=
  match rev s with
  | c :: d :: r => if Ascii.eqb c slash then rev (d :: r) else s
  | _ => s
  end.

Definition resolve (s : str) : str := chomp (squeeze s).

Inductive path :=
| Resolved (spelling : str)
| Temp (n : nat).

(** The file a spelling of the program names. *)
Definition Named (name : str) : path := Resolved (resolve name).

Inductive node :=
| File (content : str)
| Directory.

Definition fs := list (path * node).

Definition path_eqb (a b : path) : bool :=
  match a, b with
  | Resolved x, Resolved y => str_eqb x y
  | Temp m, Temp n => Nat.eqb m n
  | _, _ => false
  end.

Fixpoint fs_lookup (p : path) (t : fs) : option node :=
  match t with
  | [] => None
  | (q, n) :: t' => if path_eqb p q then Some n else fs_lookup p t'
  end.

Fixpoint fs_set (p : path) (n : node) (t : fs) : fs :=
  match t with
  | [] => [(p, n)]
  | (q, m) :: t' => if path_eqb p q then (q, n) :: t' else (q, m) :: fs_set p n t'
  end.

Definition fs_del (p : path) (t : fs) : fs :=
  filter (fun e => negb (path_eqb p (fst e))) t.

(** A temporary name no file of the system has yet. *)
Fixpoint fresh_temp (t : fs) : nat :=
  match t with
  | [] => 0
  | (Temp n, _) :: t' => Nat.max (S n) (fresh_temp t')
  | (Resolved _, _) :: t' => fresh_temp t'
  end.

(** The name under which [p] is an entry of the directory [d], if it is:
    what follows the resolved spelling of [d] and one slash, when no slash
    is in it. *)
Definition child_name (d : str) (p : path) : option str :=
  match p with
  | Resolved s =>
      match take_lit (squeeze (d ++ [slash])) s with
      | Some (c :: n) =>
          if existsb (Ascii.eqb slash) (c :: n) then None else Some (c :: n)
      | _ => None
      end
  | Temp _ => None
  end.

Fixpoint dir_entries (d : str) (t : fs) : list str :=
  match t with
  | [] => []
  | (p, _) :: t' =>
      match child_name d p with
      | Some n => n :: dir_entries d t'
      | None => dir_entries d t'
      end
  end.

(** [os.path.join(a, b)] *)
Definition path_join (a b : str) : str :=
  if starts_with_slash b then b
  else match a with
       | [] => b
       | _ :: _ => if starts_with_slash (rev a) then a ++ b else a ++ [slash] ++ b
       end.

(** ** Effects

    What the script prints, one constructor per message. *)

Inductive event :=
| Processing (line : str)
| WouldCreate (file_name : str)
| Creating (file_name : str)
| Checking
| ErrorDeleting (file_name : str)
| Removing (sudoers_file : str)
| AlreadyExists (user_or_group existing_file : str)
| Skipping (user_or_group : str)
| ErrorOpening.

(** A computation ends normally or raises [IOError] ([OSError]); the other
    exceptions of Python are not modelled. *)
Inductive outcome (A : Type) :=
| Ret (a : A)
| IOError.
Arguments Ret {A} a.
Arguments IOError {A}.

(** What a computation leaves: how it ended, the file system, and what it
    printed. *)
Record result (A : Type) := { value : outcome A; files : fs; out : list event }.

Definition M (A : Type) := fs -> result A.

Definition ret {A} (a : A) : M A :=
  fun t => {| value := Ret a; files := t; out := [] |}.

Definition raise {A} : M A :=
  fun t => {| value := IOError; files := t; out := [] |}.

Definition bind {A B} (c : M A) (k : A -> M B) : M B :=
  fun t =>
    let r := c t in
    match value r with
    | Ret a =>
        let r' := k a (files r) in
        {| value := value r'; files := files r'; out := out r ++ out r' |}
    | IOError => {| value := IOError; files := files r; out := out r |}
    end.

Notation "x <- c ;; k" := (bind c (fun x => k))
  (at level 61, c at next level, right associativity).
Notation "c ;; k" := (bind c (fun _ => k))
  (at level 61, right associativity).

(** [try: c except IOError: handler] *)
Definition try_except (c handler : M unit) : M unit :=
  fun t =>
    let r := c t in
    match value r with
    | Ret _ => r
    | IOError =>
        let r' := handler (files r) in
        {| value := value r'; files := files r'; out := out r ++ out r' |}
    end.

Fixpoint for_each {A} (body : A -> M unit) (xs : list A) : M unit :=
  match xs with
  | [] => ret tt
  | x :: xs' => body x ;; for_each body xs'
  end.

Definition print (e : event) : M unit :=
  fun t => {| value := Ret tt; files := t; out := [e] |}.

Definition get_files : M fs :=
  fun t => {| value := Ret t; files := t; out := [] |}.

Definition put_files (t : fs) : M unit :=
  fun _ => {| value := Ret tt; files := t; out := [] |}.

(** The operations the script asks of the system. Each can fail for a
    reason the model of the file system does not hold (permissions, a full
    disk, a missing program): [io_fail] says when. *)
Inductive op :=
| OpOpenRead (p : path)
| OpOpenWrite (p : path)
| OpWriteData (p : path) (data : str)
| OpListdir (d : str)
| OpRemove (p : path)
| OpRename (src dst : path)
| OpTemp
| OpRun (file_name : str).

Section Pipeline.

Variable io_fail : fs -> op -> bool.

(** The exit status of [visudo -cf file_name]. *)
Variable visudo : fs -> str -> Z.

Definition attempt (o : op) : M unit :=
  t <- get_files ;; if io_fail t o then raise else ret tt.

(** [open(p, 'r')] and reading the text. Files hold text that decodes; a
    file that does not makes Python raise an error that is no [IOError],
    which is outside the model. *)
Definition open_read (p : path) : M str :=
  attempt (OpOpenRead p) ;;
  t <- get_files ;;
  match fs_lookup p t with
  | Some (File content) => ret (universal_newlines content)
  | _ => raise
  end.

(** [open(p, 'w')]: the file is created, or emptied. *)
Definition open_write (p : path) : M unit :=
  attempt (OpOpenWrite p) ;;
  t <- get_files ;;
  match fs_lookup p t with
  | Some Directory => raise
  | _ => put_files (fs_set p (File []) t)
  end.

(** [f.write(data)] on a file opened for writing. *)
Definition write_data (p : path) (data : str) : M unit :=
  attempt (OpWriteData p data) ;;
  t <- get_files ;;
  match fs_lookup p t with
  | Some (File content) => put_files (fs_set p (File (content ++ data)) t)
  | _ => raise
  end.

(** [os.listdir(d)] *)
Definition os_listdir (d : str) : M (list str) :=
  attempt (OpListdir d) ;;
  t <- get_files ;;
  match fs_lookup (Named d) t with
  | Some Directory => ret (dir_entries d t)
  | _ => raise
  end.

(** [os.remove(p)] *)
Definition os_remove (p : path) : M unit :=
  attempt (OpRemove p) ;;
  t <- get_files ;;
  match fs_lookup p t with
  | Some (File _) => put_files (fs_del p t)
  | _ => raise
  end.

(** [open(p, 'rb')] and reading: the bytes as they are. *)
Definition read_bytes (p : path) : M str :=
  attempt (OpOpenRead p) ;;
  t <- get_files ;;
  match fs_lookup p t with
  | Some (File content) => ret content
  | _ => raise
  end.

(** [shutil.copyfile(src, dst)], the copy that [shutil.copy2] makes: a
    file is not copied onto itself; the source is opened, then the
    destination is opened for writing, which empties it, then the bytes
    are written if there are any. *)
Definition copyfile (src dst : path) : M unit :=
  if path_eqb src dst then raise
  else
    data <- read_bytes src ;;
    open_write dst ;;
    match data with
    | [] => ret tt
    | _ :: _ => write_data dst data
    end.

(** [os.rename(src, dst)] of a file: it replaces [dst] or fails and
    changes nothing. *)
Definition os_rename (src dst : path) : M unit :=
  attempt (OpRename src dst) ;;
  t <- get_files ;;
  match fs_lookup src t, fs_lookup dst t with
  | Some (File content), Some (File _) => put_files (fs_set dst (File content) (fs_del src t))
  | Some (File content), None => put_files (fs_set dst (File content) (fs_del src t))
  | _, _ => raise
  end.

(** [shutil.move(src, dst)] of a file onto a path that is no directory:
    [os.rename], and when that raises, for whatever reason (another file
    system, for one), [shutil.copy2] of [src] onto [dst] followed by
    [os.unlink(src)]. *)
Definition shutil_move (src dst : path) : M unit :=
  try_except (os_rename src dst)
             (copyfile src dst ;; os_remove src).

(** [tempfile.NamedTemporaryFile(delete=False)]: a new empty file under a
    name of its own; the result stands for [temp.name]. *)
Definition named_temporary_file : M path :=
  attempt OpTemp ;;
  t <- get_files ;;
  let p := Temp (fresh_temp t) in
  put_files (fs_set p (File []) t) ;; ret p.

(** [subprocess.run(['visudo', '-cf', file_name]).returncode] *)
Definition run_visudo (file_name : str) : M Z :=
  attempt (OpRun file_name) ;;
  t <- get_files ;;
  ret (visudo t file_name).

(** The loop of [entry_exists_in_sudoers_d] over [os.listdir]. *)
Fixpoint scan_files (normalized_entry sudoers_d_dir : str) (names : list str)
  : M (option str) :=
  match names with
  | [] => ret None
  | file_name :: rest =>
      let file_path := path_join sudoers_d_dir file_name in
      file_content <- open_read (Named file_path) ;;
      let normalized_file_content := normalize (strip_comments file_content) in
      if infixb normalized_entry normalized_file_content
      then ret (Some file_name)
      else scan_files normalized_entry sudoers_d_dir rest
  end.

Definition entry_exists_in_sudoers_d (entry sudoers_d_dir : str) : M (option str) :=
  let normalized_entry := normalize entry in
  names <- os_listdir sudoers_d_dir ;;
  scan_files normalized_entry sudoers_d_dir names.

Definition remove_entry_from_sudoers (sudoers_file entry : str) : M unit :=
  temp <- named_temporary_file ;;
  sudoers <- open_read (Named sudoers_file) ;;
  open_write temp ;;
  for_each (fun line =>
              if negb (str_eqb (strip line) entry) then write_data temp line
              else ret tt)
           (splitlines sudoers) ;;
  shutil_move temp (Named sudoers_file).

(** The body of the [for line in sudoers] loop of [create_sudoers_d_files]. *)
Definition process_line (sudoers_file file_prefix sudoers_d_dir : str)
    (test_mode remove_entries : bool) (line : str) : M unit :=
  match rule_regex_match (strip line) with
  | Some user_or_group =>
      let entry := strip line in
      print (Processing (strip line)) ;;
      if negb (excluded user_or_group) then
        existing_file <- entry_exists_in_sudoers_d entry sudoers_d_dir ;;
        match existing_file with
        | Some (c :: f) => print (AlreadyExists user_or_group (c :: f))
        | _ =>
            let file_name := fragment_path sudoers_d_dir file_prefix user_or_group in
            print (if test_mode then WouldCreate file_name else Creating file_name) ;;
            if negb test_mode then
              open_write (Named file_name) ;;
              write_data (Named file_name) entry ;;
              print Checking ;;
              returncode <- run_visudo file_name ;;
              if negb (returncode =? 0)%Z then
                print (ErrorDeleting file_name) ;;
                os_remove (Named file_name)
              else if remove_entries then
                print (Removing sudoers_file) ;;
                remove_entry_from_sudoers sudoers_file entry
              else ret tt
            else ret tt
        end
      else print (Skipping user_or_group)
  | None => ret tt
  end.

(** The lines are those of the file as it was when it was opened. A later
    rename onto its path leaves the open file as it is; and when the move
    copies onto the file instead, the reader goes on with the lines it
    holds in its buffer, which for a file of ordinary size are all of
    them. *)
Definition create_sudoers_d_files (sudoers_file file_prefix sudoers_d_dir : str)
    (test_mode remove_entries : bool) : M unit :=
  try_except
    (sudoers <- open_read (Named sudoers_file) ;;
     for_each (process_line sudoers_file file_prefix sudoers_d_dir
                            test_mode remove_entries)
              (splitlines sudoers))
    (print ErrorOpening).

End Pipeline.

(** ** The grammar of the specification

    [<principal> ALL=(ALL)[:ALL][ NOPASSWD: ALL][ <trailing>]], read with
    every blank of the notation standing for one or more blank characters
    and [<trailing>] for the rest of the line. *)

(** The words a regular expression denotes. *)
Fixpoint lang (r : regex) (a : str) : Prop :=
  match r with
  | Lit l => a = l
  | Cls p => exists c, a = [c] /\ p c = true
  | Seq r1 r2 => exists a1 a2, a = a1 ++ a2 /\ lang r1 a1 /\ lang r2 a2
  | Opt r' => a = [] \/ lang r' a
  | Star p => forallb p a = true
  | Plus p => a <> [] /\ forallb p a = true
  end.

Definition blanks (ws : str) : Prop := ws <> [] /\ forallb is_space ws = true.

(** An identifier: a first character of the class [first], then letters,
    digits, underscores and hyphens. *)
Definition identifier (first : ascii -> bool) (p : str) : Prop :=
  exists c rest, p = c :: rest /\ first c = true /\ forallb ident_char rest = true.

(** A principal: an identifier, or one behind the group marker. *)
Definition principal (first : ascii -> bool) (p : str) : Prop :=
  identifier first p \/ exists q, p = percent :: q /\ identifier first q.

Definition rule_form (first : ascii -> bool) (s : str) : Prop :=
  exists p ws o1 o2 o3,
    s = p ++ ws ++ lit "ALL=(ALL)" ++ o1 ++ o2 ++ o3 /\
    principal first p /\
    blanks ws /\
    (o1 = [] \/ o1 = lit ":ALL") /\
    (o2 = [] \/ exists ws2, blanks ws2 /\ o2 = ws2 ++ lit "NOPASSWD: ALL") /\
    (o3 = [] \/ exists ws3 t, blanks ws3 /\ forallb dot t = true /\ o3 = ws3 ++ t).

(** The first character of an identifier as the specification words it:
    a letter, a digit, an underscore or a hyphen, but not a digit. *)
Definition not_a_digit (c : ascii) : bool := ident_char c && negb (is_digit c).

(** The principal without its group marker. *)
Definition drop_marker (p : str) : str :=
  match p with
  | c :: q => if Ascii.eqb c percent then q else p
  | [] => []
  end.

(** A word of [str.split]: not empty, no blank in it. *)
Definition solid (p : str) : Prop :=
  p <> [] /\ forallb (fun c => negb (is_space c)) p = true.

(** What follows the principal in a line of the grammar. *)
Definition tail_form (t : str) : Prop :=
  exists ws o1 o2 o3,
    t = ws ++ lit "ALL=(ALL)" ++ o1 ++ o2 ++ o3 /\
    blanks ws /\
    (o1 = [] \/ o1 = lit ":ALL") /\
    (o2 = [] \/ exists ws2, blanks ws2 /\ o2 = ws2 ++ lit "NOPASSWD: ALL") /\
    (o3 = [] \/ exists ws3 t', blanks ws3 /\ forallb dot t' = true /\ o3 = ws3 ++ t').

(** A computation that only looks: it changes no file and prints nothing. *)
Definition query {A} (c : M A) : Prop :=
  forall t, files (c t) = t /\ out (c t) = [].

(** The messages printed when nothing is written, checked, deleted or
    removed. *)
Definition quiet (e : event) : bool :=
  match e with
  | Creating _ | Checking | ErrorDeleting _ | Removing _ => false
  | _ => true
  end.

(** The paths of the [Creating file] messages, in order. *)
Fixpoint created (evs : list event) : list str :=
  match evs with
  | [] => []
  | Creating f :: evs' => f :: created evs'
  | _ :: evs' => created evs'
  end.

(** The block of [process_line] that follows the [Creating file] message:
    write the fragment, check it, and delete it or remove the line. *)
Definition install_fragment (io_fail : fs -> op -> bool) (visudo : fs -> str -> Z)
    (sudoers_file file_name entry : str) (remove_entries : bool) : M unit :=
  open_write io_fail (Named file_name) ;;
  write_data io_fail (Named file_name) entry ;;
  print Checking ;;
  returncode <- run_visudo io_fail visudo file_name ;;
  if negb (returncode =? 0)%Z then
    print (ErrorDeleting file_name) ;;
    os_remove io_fail (Named file_name)
  else if remove_entries then
    print (Removing sudoers_file) ;;
    remove_entry_from_sudoers io_fail sudoers_file entry
  else ret tt.

(** The same result, with messages printed before it. *)
Definition after {A} (evs : list event) (r : result A) : result A :=
  {| value := value r; files := files r; out := evs ++ out r |}.

(** No duplicate was reported: [not existing_file]. *)
Definition nothing_found (x : option str) : bool :=
  match x with
  | Some (_ :: _) => false
  | _ => true
  end.

(** The files the program can name are the same in both systems. *)
Definition same_named (t t' : fs) : Prop :=
  forall name, fs_lookup (Named name) t' = fs_lookup (Named name) t.

(** The text of the lines that [remove_entry_from_sudoers] keeps. *)
Definition without_entry (entry : str) (lines : list str) : str :=
  concat (filter (fun line => negb (str_eqb (strip line) entry)) lines).

(** Sample surroundings: a system where no operation fails for an outside
    reason, a validator that accepts every file and one that rejects every
    file, and a file system with the source file and the fragment
    directory. *)
Definition never_fails : fs -> op -> bool := fun _ _ => false.

Definition visudo_accepts : fs -> str -> Z := fun _ _ => 0%Z.

Definition visudo_rejects : fs -> str -> Z := fun _ _ => 1%Z.

Definition etc (sudoers : str) (fragments : fs) : fs :=
  [(Named (lit "/etc/sudoers"), File sudoers);
   (Named (lit "/etc/sudoers.d"), Directory)] ++ fragments.

(** A system on which no rename goes through, as when the directory of
    the temporary files is on another file system. *)
Definition other_device : fs -> op -> bool :=
  fun _ o => match o with
             | OpRename _ _ => true
             | _ => false
             end.

(** The same, where moreover no data can be written to the file [name]. *)
Definition other_device_full (name : str) : fs -> op -> bool :=
  fun _ o => match o with
             | OpRename _ _ => true
             | OpWriteData p _ => path_eqb p (Named name)
             | _ => false
             end.

(** A system on which one path cannot be opened for writing. *)
Definition cannot_write (file_name : str) : fs -> op -> bool :=
  fun _ o => match o with
             | OpOpenWrite p => path_eqb p (Named file_name)
             | _ => false
             end.

Definition two_rules : str := lit "alice ALL=(ALL)
bob ALL=(ALL)
".

Definition indented_rule : str := lit "  alice ALL=(ALL)
".

Definition cat_rule : str := lit "alice ALL=(ALL) /bin/cat
".

Definition ls_fragment : fs :=
  [(Named (lit "/etc/sudoers.d/10_alice"), File (lit "alice ALL=(ALL) /bin/ls"))].

(** Whether the last thing printed about the path [f], among the messages
    [Creating file: f] and [Error in f, deleting file], is the deletion;
    [b] is the answer for what was printed earlier. *)
Fixpoint deleted_last (f : str) (b : bool) (evs : list event) : bool :=
  match evs with
  | [] => b
  | Creating g :: evs' => deleted_last f (if str_eqb g f then false else b) evs'
  | ErrorDeleting g :: evs' => deleted_last f (if str_eqb g f then true else b) evs'
  | _ :: evs' => deleted_last f b evs'
  end.

(** A validator that rejects the files in which the word [bad] occurs. *)
Definition visudo_rejects_bad : fs -> str -> Z :=
  fun t file_name =>
    match fs_lookup (Named file_name) t with
    | Some (File content) => if infixb (lit "bad") content then 1%Z else 0%Z
    | _ => 1%Z
    end.

Definition bad_then_good : str := lit "alice ALL=(ALL) bad
alice ALL=(ALL) ALL
".

Definition bad_rule : str := lit "alice ALL=(ALL) bad
".

(** The Duplicate Detector reports a fragment for the rule. *)
Definition found (io_fail : fs -> op -> bool) (sudoers_d_dir : str) (t : fs)
    (entry : str) : Prop :=
  exists c f,
    value (entry_exists_in_sudoers_d io_fail entry sudoers_d_dir t) =
    Ret (Some (c :: f)).

(** The messages of a line that is skipped, as a duplicate or as a
    privileged account. *)
Definition skipped (e : event) : bool :=
  match e with
  | Processing _ | AlreadyExists _ _ | Skipping _ => true
  | _ => false
  end.

(** A line that holds a rule of an account that is not excluded. *)
Definition candidate (line : str) : Prop :=
  exists u, rule_regex_match (strip line) = Some u /\ excluded u = false.

(** A line as text-mode reading gives it (no carriage return) in which a
    rule, if it is one, carries no [#]. *)
Definition plain (line : str) : Prop :=
  (candidate line -> ~ In hash line) /\ ~ In carriage_return line.

Definition ls_then_cat : str := lit "alice ALL=(ALL) /bin/ls
alice ALL=(ALL) /bin/cat
".

Definition commented_rule : str := lit "alice ALL=(ALL) # admin".

(** The normalized text of a rule as the specification words it: comments
    stripped, whitespace collapsed, lowercased. The code computes
    [normalize entry], without the first step. *)
Definition claimed_normalized_entry (raw_text : str) : str :=
  normalize (strip_comments raw_text).

(** ** Notions for the further properties *)

(** The entry [name] of the directory [d] is a file that can be read, and
    [b] tells whether its content, comments stripped and normalized,
    contains the normalized entry. *)
Definition holds (d : str) (t : fs) (entry name : str) (b : bool) : Prop :=
  exists content,
    fs_lookup (Named (path_join d name)) t = Some (File content) /\
    infixb (normalize entry)
           (normalize (strip_comments (universal_newlines content))) = b.

(** The messages of a run that writes nothing and simulates nothing. *)
Definition idle (e : event) : bool :=
  match e with
  | Processing _ | Skipping _ | ErrorOpening => true
  | _ => false
  end.

(** A line with its terminator, and a last line without one. *)
Definition terminated (l : str) : Prop :=
  exists body, l = body ++ [newline] /\ ~ In newline body.

Definition unterminated (l : str) : Prop := l <> [] /\ ~ In newline l.

(** The lines of a text: each ends with its line feed, but the last one,
    which may lack it. *)
Fixpoint line_list (ls : list str) : Prop :=
  match ls with
  | [] => True
  | l :: rest =>
      match rest with
      | [] => terminated l \/ unterminated l
      | _ :: _ => terminated l
      end /\ line_list rest
  end.

(** The lines [remove_entry_from_sudoers] keeps. *)
Definition kept_lines (entry : str) (lines : list str) : list str :=
  filter (fun line => negb (str_eqb (strip line) entry)) lines.

(** The lines a text-mode reader gets from a content. *)
Definition lines_of (content : str) : list str :=
  splitlines (universal_newlines content).

(** The ways the processing of a matched line can go: the messages it
    prints, in order, and how it ends. [u] is the principal, [entry] the
    trimmed line and [f] the path of the fragment. *)
Inductive line_run (test_mode remove_entries : bool)
    (sudoers_file entry u f : str) : list event -> outcome unit -> Prop :=
| SkippedExcluded :
    excluded u = true ->
    line_run test_mode remove_entries sudoers_file entry u f
             [Processing entry; Skipping u] (Ret tt)
| ScanFailed :
    excluded u = false ->
    line_run test_mode remove_entries sudoers_file entry u f
             [Processing entry] IOError
| SkippedDuplicate existing_file :
    excluded u = false ->
    line_run test_mode remove_entries sudoers_file entry u f
             [Processing entry; AlreadyExists u existing_file] (Ret tt)
| Simulated :
    excluded u = false -> test_mode = true ->
    line_run test_mode remove_entries sudoers_file entry u f
             [Processing entry; WouldCreate f] (Ret tt)
| WriteFailed :
    excluded u = false -> test_mode = false ->
    line_run test_mode remove_entries sudoers_file entry u f
             [Processing entry; Creating f] IOError
| ValidatorNotRun :
    excluded u = false -> test_mode = false ->
    line_run test_mode remove_entries sudoers_file entry u f
             [Processing entry; Creating f; Checking] IOError
| Retained :
    excluded u = false -> test_mode = false -> remove_entries = false ->
    line_run test_mode remove_entries sudoers_file entry u f
             [Processing entry; Creating f; Checking] (Ret tt)
| Deleted v :
    excluded u = false -> test_mode = false ->
    line_run test_mode remove_entries sudoers_file entry u f
             [Processing entry; Creating f; Checking; ErrorDeleting f] v
| Removed v :
    excluded u = false -> test_mode = false -> remove_entries = true ->
    line_run test_mode remove_entries sudoers_file entry u f
             [Processing entry; Creating f; Checking; Removing sudoers_file] v.

(** The messages a line can print: all but the message of the handler. *)
Definition of_a_line (e : event) : bool :=
  match e with
  | ErrorOpening => false
  | _ => true
  end.

(** No message of [evs] announces a change of the path [p]: it is not the
    file of a [Creating file] message and not the file of a
    [Removing line] message. *)
Definition unannounced (p : path) (evs : list event) : Prop :=
  (forall f, In (Creating f) evs -> Named f <> p) /\
  (forall s, In (Removing s) evs -> Named s <> p).

(** The path [p] is not a temporary file made after [t]: it is no
    temporary file at all, or it is one that [t] has already. *)
Definition lasting (p : path) (t : fs) : Prop :=
  (forall n, p <> Temp n) \/ fs_lookup p t <> None.

(** ** The backup and the script

    [backup_sudoers_file] and the block under [if __name__ == "__main__"],
    after the command line was parsed. The script prints one message more
    than the pipeline; an [IOError] that leaves the script is an uncaught
    exception. *)

Inductive message :=
| BackupCreated (backup_file : str)
| Line (e : event).

Record script_result :=
  { script_value : outcome unit; script_files : fs; script_out : list message }.

(** [os.path.basename(p)]: what follows the last slash. *)
Fixpoint up_to_slash (s : str) : str :=
  match s with
  | [] => []
  | c :: s' => if Ascii.eqb c slash then [] else c :: up_to_slash s'
  end.

Definition basename (p : str) : str := rev (up_to_slash (rev p)).

Section Script.

Variable io_fail : fs -> op -> bool.
Variable visudo : fs -> str -> Z.

(** [datetime.datetime.now().strftime('%Y%m%d_%H%M%S')]: the reading of
    the clock, as text. *)
Variable now : str.

(** [shutil.copy2(src, dst)]: into [dst] when it is a directory, then
    the copy of [copyfile]. *)
Definition shutil_copy2 (src dst : str) : M unit :=
  t <- get_files ;;
  let dst := match fs_lookup (Named dst) t with
             | Some Directory => path_join dst (basename src)
             | _ => dst
             end in
  copyfile io_fail (Named src) (Named dst).

Definition backup_path (sudoers_file : str) : str :=
  sudoers_file ++ lit "_" ++ now ++ lit ".bak".

Definition backup_sudoers_file (sudoers_file : str) : fs -> script_result :=
  fun t =>
    let backup_file := backup_path sudoers_file in
    let r := shutil_copy2 sudoers_file backup_file t in
    match value r with
    | Ret _ => {| script_value := Ret tt; script_files := files r;
                  script_out := [BackupCreated backup_file] |}
    | IOError => {| script_value := IOError; script_files := files r;
                    script_out := [] |}
    end.

End Script.

Module Args.

(** What [parser.parse_args()] returns. *)
Record t :=
  { sudoers_file : str; file_prefix : str; sudoers_d_dir : str;
    test : bool; remove : bool; backup : bool }.

(** The defaults of the options. *)
Definition default : t :=
  {| sudoers_file := lit "/etc/sudoers"; file_prefix := lit "10";
     sudoers_d_dir := lit "/etc/sudoers.d";
     test := false; remove := false; backup := false |}.

End Args.

(** The script, from the parsed arguments on. *)
Definition main (io_fail : fs -> op -> bool) (visudo : fs -> str -> Z)
    (now : str) (args : Args.t) : fs -> script_result :=
  fun t =>
    let b := if Args.backup args
             then backup_sudoers_file io_fail now (Args.sudoers_file args) t
             else {| script_value := Ret tt; script_files := t; script_out := [] |} in
    match script_value b with
    | IOError => b
    | Ret _ =>
        let r := create_sudoers_d_files io_fail visudo (Args.sudoers_file args)
                   (Args.file_prefix args) (Args.sudoers_d_dir args)
                   (Args.test args) (Args.remove args) (script_files b) in
        {| script_value := value r; script_files := files r;
           script_out := script_out b ++ map Line (out r) |}
    end.

Definition noon : str := lit "20230510_120000".

(** * Checks of the model on sample lines *)

Example rule_regex_match_alice :
  rule_regex_match (lit "alice ALL=(ALL):ALL NOPASSWD: ALL") = Some (lit "alice").
Proof. reflexivity. Qed.

Example rule_regex_match_group :
  rule_regex_match (lit "%admins	ALL=(ALL) /bin/ls") = Some (lit "%admins").
Proof. reflexivity. Qed.

Example rule_regex_match_upper :
  rule_regex_match (lit "Root ALL=(ALL)") = None.
Proof. reflexivity. Qed.

Example rule_regex_match_glued :
  rule_regex_match (lit "alice ALL=(ALL):ALLx") = None.
Proof. reflexivity. Qed.

Example normalize_example :
  normalize (lit "  Alice   ALL=(ALL)	NOPASSWD: ALL ") = lit "alice all=(all) nopasswd: all".
Proof. reflexivity. Qed.

Example strip_comments_example :
  strip_comments (lit "a # b") = lit "a ".
Proof. reflexivity. Qed.


(** * Properties *)

(** ** Characters and text *)

Ltac by_cases_on_char c :=
  destruct c as [[|] [|] [|] [|] [|] [|] [|] [|]]; vm_compute; try reflexivity; try discriminate; auto.

Lemma ident_not_space (c : ascii) : ident_char c = true -> is_space c = false.
Proof. by_cases_on_char c. Qed.

Lemma head_is_ident (c : ascii) : head_char c = true -> ident_char c = true.
Proof. by_cases_on_char c. Qed.

Lemma ident_not_percent (c : ascii) : ident_char c = true -> Ascii.eqb c percent = false.
Proof. by_cases_on_char c. Qed.

Lemma ident_not_slash (c : ascii) : ident_char c = true -> Ascii.eqb slash c = false.
Proof. by_cases_on_char c. Qed.

Lemma percent_not_space : is_space percent = false.
Proof. reflexivity. Qed.

Lemma newline_is_space : is_space newline = true.
Proof. reflexivity. Qed.

Lemma str_eqb_eq (a b : str) : str_eqb a b = true <-> a = b.
Proof.
  revert b; induction a as [|x a IH]; intros [|y b]; simpl; split; intro H;
    try reflexivity; try discriminate.
  - apply andb_true_iff in H as [Hxy Hab].
    apply Ascii.eqb_eq in Hxy. apply IH in Hab. congruence.
  - injection H as -> ->. rewrite Ascii.eqb_refl. simpl. now apply IH.
Qed.

Lemma str_eqb_refl (a : str) : str_eqb a a = true.
Proof. now apply str_eqb_eq. Qed.

Lemma take_lit_app (l s : str) : take_lit l (l ++ s) = Some s.
Proof.
  induction l as [|x l IH]; simpl; [reflexivity|].
  now rewrite Ascii.eqb_refl.
Qed.

Lemma take_lit_inv (l s s' : str) : take_lit l s = Some s' -> s = l ++ s'.
Proof.
  revert s; induction l as [|x l IH]; intros s H; simpl in *.
  - now injection H as ->.
  - destruct s as [|y s]; [discriminate|].
    destruct (Ascii.eqb x y) eqn:E; [|discriminate].
    apply Ascii.eqb_eq in E. subst y. now rewrite (IH _ H).
Qed.

(** ** The matcher against the words of an expression *)

Lemma or_else_some {A} (x y : option A) (v : A) :
  or_else x y = Some v -> x = Some v \/ y = Some v.
Proof. destruct x; simpl; auto. Qed.

Lemma or_else_defined {A} (x y : option A) :
  (exists v, x = Some v) \/ (exists v, y = Some v) -> exists v, or_else x y = Some v.
Proof.
  destruct x as [u|]; simpl.
  - intros _. now exists u.
  - intros [[v H]|H]; [discriminate|exact H].
Qed.

Lemma star_sound {A} (p : ascii -> bool) (k : str -> option A) (s : str) (x : A) :
  star p s k = Some x ->
  exists a b, s = a ++ b /\ forallb p a = true /\ k b = Some x.
Proof.
  induction s as [|c s IH]; simpl; intro H.
  - now exists [], [].
  - destruct (p c) eqn:Hc.
    + apply or_else_some in H as [H|H].
      * destruct (IH H) as (a & b & -> & Ha & Hk).
        exists (c :: a), b. simpl. rewrite Hc, Ha. auto.
      * now exists [], (c :: s).
    + now exists [], (c :: s).
Qed.

Lemma star_complete {A} (p : ascii -> bool) (k : str -> option A) (a b : str) :
  forallb p a = true -> (exists y, k b = Some y) ->
  exists x, star p (a ++ b) k = Some x.
Proof.
  induction a as [|c a IH]; simpl; intros Ha Hk.
  - destruct b as [|c b]; simpl; [exact Hk|].
    destruct (p c); [|exact Hk]. apply or_else_defined. now right.
  - apply andb_true_iff in Ha as [Hc Ha]. rewrite Hc.
    apply or_else_defined. left. now apply IH.
Qed.

Lemma rmatch_sound {A} (r : regex) :
  forall (k : str -> option A) (s : str) (x : A),
    rmatch r s k = Some x ->
    exists a b, s = a ++ b /\ lang r a /\ k b = Some x.
Proof.
  induction r as [l|p|r1 IH1 r2 IH2|r IH|p|p]; intros k s x H; simpl in *.
  - destruct (take_lit l s) as [s'|] eqn:E; [|discriminate].
    exists l, s'. split; [now apply take_lit_inv|auto].
  - destruct s as [|c s]; [discriminate|].
    destruct (p c) eqn:Hc; [|discriminate].
    exists [c], s. repeat split; auto. now exists c.
  - destruct (IH1 _ _ _ H) as (a1 & b1 & -> & L1 & H1).
    destruct (IH2 _ _ _ H1) as (a2 & b2 & -> & L2 & H2).
    exists (a1 ++ a2), b2. rewrite app_assoc. repeat split; auto.
    now exists a1, a2.
  - apply or_else_some in H as [H|H].
    + destruct (IH _ _ _ H) as (a & b & -> & L & Hk).
      exists a, b. auto.
    + exists [], s. auto.
  - now apply star_sound.
  - destruct s as [|c s]; [discriminate|].
    destruct (p c) eqn:Hc; [|discriminate].
    destruct (star_sound _ _ _ H) as (a & b & -> & Ha & Hk).
    exists (c :: a), b. simpl. rewrite Hc, Ha. repeat split; auto. discriminate.
Qed.

Lemma rmatch_complete {A} (r : regex) :
  forall (k : str -> option A) (a b : str),
    lang r a -> (exists y, k b = Some y) ->
    exists x, rmatch r (a ++ b) k = Some x.
Proof.
  induction r as [l|p|r1 IH1 r2 IH2|r IH|p|p]; intros k a b L Hk; simpl in *.
  - subst a. now rewrite take_lit_app.
  - destruct L as (c & -> & Hc). simpl. now rewrite Hc.
  - destruct L as (a1 & a2 & -> & L1 & L2). rewrite <- app_assoc.
    apply IH1; [exact L1|]. now apply IH2.
  - apply or_else_defined. destruct L as [->|L]; [now right|left; now apply IH].
  - now apply star_complete.
  - destruct L as [Hne Ha]. destruct a as [|c a]; [contradiction|].
    simpl in *. apply andb_true_iff in Ha as [Hc Ha]. rewrite Hc.
    now apply star_complete.
Qed.

Lemma forallb_rev {A} (f : A -> bool) (l : list A) :
  forallb f (rev l) = forallb f l.
Proof.
  induction l as [|x l IH]; simpl; [reflexivity|].
  rewrite forallb_app, IH. simpl. rewrite andb_true_r. apply andb_comm.
Qed.

Lemma lstrip_decomp (s : str) :
  exists a, s = a ++ lstrip s /\ forallb is_space a = true.
Proof.
  induction s as [|c s (a & E & Ha)]; simpl.
  - now exists [].
  - destruct (is_space c) eqn:Hc.
    + exists (c :: a). simpl. rewrite Hc, Ha. split; [congruence|reflexivity].
    + now exists [].
Qed.

Lemma lstrip_head (s : str) (c : ascii) (r : str) :
  lstrip s = c :: r -> is_space c = false.
Proof.
  induction s as [|d s IH]; simpl; [discriminate|].
  destruct (is_space d) eqn:Hd; [exact IH|].
  intro H. injection H as <- _. exact Hd.
Qed.

Lemma strip_decomp (s : str) :
  exists a b, s = a ++ strip s ++ b /\
              forallb is_space a = true /\ forallb is_space b = true.
Proof.
  destruct (lstrip_decomp s) as (a & Ea & Ha).
  destruct (lstrip_decomp (rev (lstrip s))) as (b & Eb & Hb).
  exists a, (rev b). repeat split; [|exact Ha|now rewrite forallb_rev].
  unfold strip, rstrip. rewrite <- rev_app_distr, <- Eb, rev_involutive.
  exact Ea.
Qed.

Lemma strip_last (s a : str) (c : ascii) :
  strip s = a ++ [c] -> is_space c = false.
Proof.
  unfold strip, rstrip. intro H.
  apply (f_equal (@rev ascii)) in H.
  rewrite rev_involutive, rev_app_distr in H. simpl in H.
  exact (lstrip_head _ H).
Qed.

Lemma strip_incl (s : str) (c : ascii) : In c (strip s) -> In c s.
Proof.
  destruct (strip_decomp s) as (a & b & E & _). intro H.
  rewrite E. apply in_or_app. right. apply in_or_app. now left.
Qed.

Lemma split_ws_blanks (a s : str) :
  forallb is_space a = true -> split_ws (a ++ s) = split_ws s.
Proof.
  induction a as [|c a IH]; simpl; [reflexivity|].
  intro H. apply andb_true_iff in H as [Hc Ha]. rewrite Hc. now apply IH.
Qed.


Lemma split_ws_token (p : str) (c : ascii) (r : str) :
  solid p -> is_space c = true ->
  split_ws (p ++ c :: r) = p :: split_ws r.
Proof.
  intros [Hne Hp] Hc. induction p as [|x p IH]; [contradiction|].
  simpl in Hp. apply andb_true_iff in Hp as [Hx Hp].
  apply negb_true_iff in Hx.
  destruct p as [|y p].
  - simpl. now rewrite Hx, Hc.
  - change (split_ws ((x :: y :: p) ++ c :: r))
      with (if is_space x then split_ws ((y :: p) ++ c :: r)
            else if is_space y then [x] :: split_ws ((y :: p) ++ c :: r)
                 else match split_ws ((y :: p) ++ c :: r) with
                      | w :: ws => (x :: w) :: ws
                      | [] => [[x]]
                      end).
    rewrite Hx. rewrite IH; [|discriminate|exact Hp].
    simpl in Hp. apply andb_true_iff in Hp as [Hy _].
    apply negb_true_iff in Hy. now rewrite Hy.
Qed.

Lemma first_token (a p : str) (c : ascii) (r : str) :
  forallb is_space a = true -> solid p -> is_space c = true ->
  hd_error (split_ws (a ++ p ++ c :: r)) = Some p.
Proof.
  intros Ha Hp Hc. rewrite split_ws_blanks by exact Ha.
  now rewrite split_ws_token.
Qed.

(** ** The pattern against the grammar *)

Lemma identifier_solid (first : ascii -> bool) (p : str) :
  (forall c, first c = true -> ident_char c = true) ->
  identifier first p -> solid p /\ replace_percent p = p.
Proof.
  intros Hf (c & rest & -> & Hc & Hrest).
  assert (Hall : forallb ident_char (c :: rest) = true).
  { simpl. now rewrite (Hf _ Hc). }
  clear Hc Hrest. split; [split; [discriminate|]|].
  - induction (c :: rest) as [|x l IH]; [reflexivity|].
    simpl in *. apply andb_true_iff in Hall as [Hx Hl].
    now rewrite (ident_not_space _ Hx), IH.
  - unfold replace_percent.
    induction (c :: rest) as [|x l IH]; [reflexivity|].
    simpl in *. apply andb_true_iff in Hall as [Hx Hl].
    now rewrite (ident_not_percent _ Hx), IH.
Qed.

Lemma principal_solid (first : ascii -> bool) (p : str) :
  (forall c, first c = true -> ident_char c = true) ->
  principal first p -> solid p /\ replace_percent p = drop_marker p.
Proof.
  intros Hf [H|(q & -> & H)].
  - destruct (identifier_solid Hf H) as [Hs Hr]. split; [exact Hs|].
    rewrite Hr. destruct H as (c & rest & -> & Hc & _). simpl.
    now rewrite (ident_not_percent _ (Hf _ Hc)).
  - destruct (identifier_solid Hf H) as [[_ Hs] Hr]. split.
    + split; [discriminate|]. simpl. exact Hs.
    + unfold replace_percent in *. simpl. exact Hr.
Qed.

Lemma lang_group1 (p : str) : lang re_group1 p <-> principal head_char p.
Proof.
  unfold re_group1, principal, identifier. simpl. split.
  - intros (a1 & a2 & -> & Hm & b1 & b2 & -> & (c & -> & Hc) & Hb2).
    destruct Hm as [->| ->]; simpl.
    + left. now exists c, b2.
    + right. exists (c :: b2). split; [reflexivity|]. now exists c, b2.
  - intros [(c & rest & -> & Hc & Hr)|(q & -> & c & rest & -> & Hc & Hr)].
    + exists [], (c :: rest). repeat split; auto.
      exists [c], rest. repeat split; auto. now exists c.
    + exists [percent], (c :: rest). repeat split; auto.
      exists [c], rest. repeat split; auto. now exists c.
Qed.


Lemma lang_tail (t : str) : lang re_tail t <-> tail_form t.
Proof.
  unfold re_tail, tail_form, blanks. simpl. split.
  - intros (ws & r1 & -> & Hws & k & r2 & -> & -> & o1 & r3 & -> & H1 &
            o2 & o3 & -> & H2 & H3).
    exists ws, o1, o2, o3. repeat split; try tauto.
    + destruct H2 as [->|(ws2 & l & -> & Hws2 & ->)]; [now left|right].
      now exists ws2.
    + destruct H3 as [->|(ws3 & l & -> & Hws3 & Hl)]; [now left|right].
      now exists ws3, l.
  - intros (ws & o1 & o2 & o3 & -> & Hws & H1 & H2 & H3).
    exists ws, (lit "ALL=(ALL)" ++ o1 ++ o2 ++ o3). repeat split; try tauto.
    exists (lit "ALL=(ALL)"), (o1 ++ o2 ++ o3). repeat split.
    exists o1, (o2 ++ o3). repeat split; [exact H1|].
    exists o2, o3. repeat split.
    + destruct H2 as [->|(ws2 & Hws2 & ->)]; [now left|right].
      now exists ws2, (lit "NOPASSWD: ALL").
    + destruct H3 as [->|(ws3 & l & Hws3 & Hl & ->)]; [now left|right].
      now exists ws3, l.
Qed.

Lemma rule_form_split (first : ascii -> bool) (s : str) :
  rule_form first s <-> exists p t, s = p ++ t /\ principal first p /\ tail_form t.
Proof.
  unfold rule_form, tail_form. split.
  - intros (p & ws & o1 & o2 & o3 & -> & Hp & H).
    exists p, (ws ++ lit "ALL=(ALL)" ++ o1 ++ o2 ++ o3). repeat split; auto.
    now exists ws, o1, o2, o3.
  - intros (p & t & -> & Hp & ws & o1 & o2 & o3 & -> & H).
    now exists p, ws, o1, o2, o3.
Qed.

Lemma tail_form_head (t : str) :
  tail_form t -> exists c r, t = c :: r /\ is_space c = true.
Proof.
  intros (ws & o1 & o2 & o3 & -> & [Hne Hws] & _).
  destruct ws as [|c ws]; [contradiction|].
  simpl in Hws. apply andb_true_iff in Hws as [Hc _].
  now exists c, (ws ++ lit "ALL=(ALL)" ++ o1 ++ o2 ++ o3).
Qed.

Lemma rule_regex_match_whole (s : str) :
  (exists p, rule_regex_match s = Some p) <->
  (exists u, rmatch rule_regex s (fun s2 => if at_eol s2 then Some tt else None)
             = Some u).
Proof.
  unfold rule_regex_match, rule_regex. cbn [rmatch]. split.
  - intros [p H].
    apply rmatch_sound in H as (a & b1 & -> & La & H).
    apply rmatch_sound in H as (t & b & -> & Lt & H).
    destruct (at_eol b) eqn:Hb; [|discriminate].
    apply rmatch_complete; [exact La|].
    apply rmatch_complete; [exact Lt|]. rewrite Hb. eauto.
  - intros [u H].
    apply rmatch_sound in H as (a & b1 & -> & La & H).
    apply rmatch_sound in H as (t & b & -> & Lt & H).
    destruct (at_eol b) eqn:Hb; [|discriminate].
    apply rmatch_complete; [exact La|].
    apply rmatch_complete; [exact Lt|]. rewrite Hb. eauto.
Qed.

Lemma rule_regex_match_some (s p : str) :
  rule_regex_match s = Some p ->
  exists t b, s = p ++ t ++ b /\ principal head_char p /\ tail_form t /\
              at_eol b = true.
Proof.
  unfold rule_regex_match. intro H.
  apply rmatch_sound in H as (a & b1 & -> & La & H).
  apply rmatch_sound in H as (t & b & -> & Lt & H).
  destruct (at_eol b) eqn:Hb; [|discriminate].
  injection H as <-. exists t, b.
  rewrite length_app, Nat.add_sub, firstn_app, firstn_all, Nat.sub_diag.
  simpl. rewrite app_nil_r.
  repeat split; auto; [now apply lang_group1|now apply lang_tail].
Qed.

Lemma rule_regex_match_defined (p t b : str) :
  principal head_char p -> tail_form t -> at_eol b = true ->
  exists q, rule_regex_match (p ++ t ++ b) = Some q.
Proof.
  intros Hp Ht Hb. unfold rule_regex_match.
  apply rmatch_complete; [now apply lang_group1|].
  apply rmatch_complete; [now apply lang_tail|].
  rewrite Hb. eauto.
Qed.

(** ** The Rule Classifier (C1) *)

Lemma rule_regex_match_stripped (line p : str) :
  rule_regex_match (strip line) = Some p ->
  exists t, strip line = p ++ t /\ principal head_char p /\ tail_form t.
Proof.
  intro H. apply rule_regex_match_some in H as (t & b & E & Hp & Ht & Hb).
  exists t. repeat split; auto.
  destruct b as [|c [|d b]]; simpl in Hb; try discriminate.
  - now rewrite app_nil_r in E.
  - apply Ascii.eqb_eq in Hb. subst c.
    rewrite app_assoc in E. apply strip_last in E. discriminate.
Qed.

Lemma rule_regex_match_first_token (line p : str) :
  rule_regex_match (strip line) = Some p ->
  hd_error (split_ws line) = Some p.
Proof.
  intro H. apply rule_regex_match_stripped in H as (t & E & Hp & Ht).
  destruct (principal_solid head_is_ident Hp) as [Hs _].
  destruct (tail_form_head Ht) as (c & r & -> & Hc).
  destruct (strip_decomp line) as (a & b & El & Ha & _).
  rewrite El, E. simpl. rewrite <- !app_assoc. simpl.
  now apply first_token.
Qed.

Lemma rule_regex_match_fragment (line p d prefix : str) :
  rule_regex_match (strip line) = Some p ->
  fragment_path d prefix p = d ++ lit "/" ++ prefix ++ lit "_" ++ drop_marker p.
Proof.
  intro H. apply rule_regex_match_stripped in H as (t & E & Hp & Ht).
  destruct (principal_solid head_is_ident Hp) as [_ Hr].
  unfold fragment_path. now rewrite Hr.
Qed.

(** C1, as amended: the classifier, [rule_regex.match(line.strip())],
    matches exactly the trimmed lines of the form
    [<principal> ALL=(ALL)[:ALL][ NOPASSWD: ALL][ <trailing>]] whose
    principal is an identifier starting with a lowercase letter or an
    underscore (neither a digit nor a hyphen), optionally behind the group
    marker; the extracted principal is the first blank-delimited word of
    the line, marker included, and the fragment path ends in the prefix, an
    underscore and the principal without its marker. *)
Theorem classifier_matches_grammar (line : str) :
  ((exists p, rule_regex_match (strip line) = Some p) <->
   rule_form head_char (strip line)) /\
  (forall p, rule_regex_match (strip line) = Some p ->
     hd_error (split_ws line) = Some p /\
     forall sudoers_d_dir file_prefix,
       fragment_path sudoers_d_dir file_prefix p =
       sudoers_d_dir ++ lit "/" ++ file_prefix ++ lit "_" ++ drop_marker p).
Proof.
  split; [split|].
  - intros [p H]. apply rule_regex_match_stripped in H as (t & E & Hp & Ht).
    apply rule_form_split. now exists p, t.
  - intro H. apply rule_form_split in H as (p & t & E & Hp & Ht).
    rewrite E, <- (app_nil_r t). now apply rule_regex_match_defined.
  - intros p H. split.
    + now apply rule_regex_match_first_token.
    + intros d prefix. now apply rule_regex_match_fragment with (line := line).
Qed.

Lemma classifier_matches_grammar_witness :
  hd_error (split_ws (lit "  %admins ALL=(ALL) NOPASSWD: ALL")) = Some (lit "%admins") /\
  fragment_path (lit "/etc/sudoers.d") (lit "50") (lit "%admins") =
  lit "/etc/sudoers.d/50_admins".
Proof.
  destruct (classifier_matches_grammar (lit "  %admins ALL=(ALL) NOPASSWD: ALL"))
    as [_ H].
  destruct (H (lit "%admins") eq_refl) as [H1 H2].
  split; [exact H1|]. exact (H2 (lit "/etc/sudoers.d") (lit "50")).
Defined.

(** C1 as stated fails: a line whose identifier starts with a hyphen has
    the stated form (its principal does not start with a digit), and the
    classifier does not match it. *)
Lemma hyphen_first_is_not_matched :
  rule_form not_a_digit (lit "-a ALL=(ALL)") /\
  strip (lit "-a ALL=(ALL)") = lit "-a ALL=(ALL)" /\
  rule_regex_match (strip (lit "-a ALL=(ALL)")) = None.
Proof.
  split; [|split; reflexivity].
  exists (lit "-a"), (lit " "), [], [], []. repeat split; auto.
  - left. exists hyphen, (lit "a"). repeat split.
  - discriminate.
Qed.

(** ** The file system *)

Lemma path_eqb_eq (a b : path) : path_eqb a b = true <-> a = b.
Proof.
  destruct a as [x|m], b as [y|n]; simpl; split; intro H; try discriminate.
  - apply str_eqb_eq in H. now subst.
  - injection H as ->. apply str_eqb_refl.
  - apply Nat.eqb_eq in H. now subst.
  - injection H as ->. apply Nat.eqb_refl.
Qed.

Lemma path_eqb_refl (a : path) : path_eqb a a = true.
Proof. now apply path_eqb_eq. Qed.

Lemma path_eqb_neq (a b : path) : a <> b -> path_eqb a b = false.
Proof.
  intro H. destruct (path_eqb a b) eqn:E; [|reflexivity].
  apply path_eqb_eq in E. contradiction.
Qed.

Lemma path_eqb_sym (a b : path) : path_eqb a b = path_eqb b a.
Proof.
  destruct (path_eqb a b) eqn:E.
  - apply path_eqb_eq in E. subst. symmetry. apply path_eqb_refl.
  - destruct (path_eqb b a) eqn:E'; [|reflexivity].
    apply path_eqb_eq in E'. subst. now rewrite path_eqb_refl in E.
Qed.

Lemma fs_lookup_app (p : path) (t a : fs) :
  fs_lookup p (t ++ a) =
  match fs_lookup p t with
  | Some n => Some n
  | None => fs_lookup p a
  end.
Proof.
  induction t as [|[q n] t IH]; simpl; [reflexivity|].
  now destruct (path_eqb p q).
Qed.

Lemma fs_set_absent (p : path) (n : node) (t : fs) :
  fs_lookup p t = None -> fs_set p n t = t ++ [(p, n)].
Proof.
  induction t as [|[q m] t IH]; simpl; [reflexivity|].
  destruct (path_eqb p q); [discriminate|]. intro H. now rewrite IH.
Qed.

Lemma fs_set_set (p : path) (n m : node) (t : fs) :
  fs_set p n (fs_set p m t) = fs_set p n t.
Proof.
  induction t as [|[q k] t IH]; simpl.
  - now rewrite path_eqb_refl.
  - destruct (path_eqb p q) eqn:E; simpl; rewrite E; [reflexivity|].
    now rewrite IH.
Qed.

Lemma fs_lookup_set_same (p : path) (n : node) (t : fs) :
  fs_lookup p (fs_set p n t) = Some n.
Proof.
  induction t as [|[q k] t IH]; simpl.
  - now rewrite path_eqb_refl.
  - destruct (path_eqb p q) eqn:E; simpl; now rewrite E.
Qed.

Lemma fs_lookup_set_other (p q : path) (n : node) (t : fs) :
  p <> q -> fs_lookup q (fs_set p n t) = fs_lookup q t.
Proof.
  intro H. induction t as [|[r k] t IH]; simpl.
  - rewrite path_eqb_neq; [reflexivity|congruence].
  - destruct (path_eqb p r) eqn:E; simpl.
    + apply path_eqb_eq in E. subst r.
      rewrite (path_eqb_neq (a:=q) (b:=p)); [reflexivity|congruence].
    + now rewrite IH.
Qed.

Lemma fs_lookup_del_same (p : path) (t : fs) : fs_lookup p (fs_del p t) = None.
Proof.
  induction t as [|[q k] t IH]; simpl; [reflexivity|].
  destruct (path_eqb p q) eqn:E; simpl; [exact IH|]. now rewrite E.
Qed.

Lemma fs_lookup_del_other (p q : path) (t : fs) :
  p <> q -> fs_lookup q (fs_del p t) = fs_lookup q t.
Proof.
  intro H. induction t as [|[r k] t IH]; simpl; [reflexivity|].
  destruct (path_eqb p r) eqn:E; simpl.
  - apply path_eqb_eq in E. subst r.
    rewrite (path_eqb_neq (a:=q) (b:=p)); [exact IH|congruence].
  - now rewrite IH.
Qed.

Lemma fresh_temp_bound (t : fs) (n : nat) :
  fresh_temp t <= n -> fs_lookup (Temp n) t = None.
Proof.
  induction t as [|[[s|m] k] t IH]; cbn -[Nat.max]; intro H;
    [reflexivity|now apply IH|].
  destruct (Nat.eqb n m) eqn:E.
  - apply Nat.eqb_eq in E. lia.
  - apply IH. lia.
Qed.

Lemma fresh_temp_fresh (t : fs) : fs_lookup (Temp (fresh_temp t)) t = None.
Proof. now apply fresh_temp_bound. Qed.

Lemma dir_entries_app (d : str) (t a : fs) :
  dir_entries d (t ++ a) = dir_entries d t ++ dir_entries d a.
Proof.
  induction t as [|[p n] t IH]; simpl; [reflexivity|].
  destruct (child_name d p); simpl; now rewrite IH.
Qed.

(** ** Computations *)

Lemma value_bind {A B} (c : M A) (k : A -> M B) (t : fs) :
  value (bind c k t) =
  match value (c t) with
  | Ret a => value (k a (files (c t)))
  | IOError => IOError
  end.
Proof. unfold bind. now destruct (value (c t)). Qed.

Lemma files_bind {A B} (c : M A) (k : A -> M B) (t : fs) :
  files (bind c k t) =
  match value (c t) with
  | Ret a => files (k a (files (c t)))
  | IOError => files (c t)
  end.
Proof. unfold bind. now destruct (value (c t)). Qed.

Lemma out_bind {A B} (c : M A) (k : A -> M B) (t : fs) :
  out (bind c k t) =
  match value (c t) with
  | Ret a => out (c t) ++ out (k a (files (c t)))
  | IOError => out (c t)
  end.
Proof. unfold bind. now destruct (value (c t)). Qed.

Lemma query_bind {A B} (c : M A) (k : A -> M B) :
  query c -> (forall a, query (k a)) -> query (bind c k).
Proof.
  intros Hc Hk t. destruct (Hc t) as [Fc Oc].
  rewrite files_bind, out_bind.
  destruct (value (c t)) as [a|]; [|now split].
  rewrite Fc, Oc. exact (Hk a t).
Qed.

Lemma query_ret {A} (a : A) : query (ret a).
Proof. intro t. now split. Qed.

Lemma query_raise {A} : query (@raise A).
Proof. intro t. now split. Qed.

Lemma query_get_files : query get_files.
Proof. intro t. now split. Qed.

Section Frame.

Variable io_fail : fs -> op -> bool.
Variable visudo : fs -> str -> Z.

Lemma query_attempt (o : op) : query (attempt io_fail o).
Proof.
  apply query_bind; [apply query_get_files|].
  intro t. destruct (io_fail t o); [apply query_raise|apply query_ret].
Qed.

Lemma query_open_read (p : path) : query (open_read io_fail p).
Proof.
  apply query_bind; [apply query_attempt|intros _].
  apply query_bind; [apply query_get_files|intro t].
  destruct (fs_lookup p t) as [[c|]|]; try apply query_raise. apply query_ret.
Qed.

Lemma query_os_listdir (d : str) : query (os_listdir io_fail d).
Proof.
  apply query_bind; [apply query_attempt|intros _].
  apply query_bind; [apply query_get_files|intro t].
  destruct (fs_lookup (Named d) t) as [[c|]|]; try apply query_raise.
  apply query_ret.
Qed.

Lemma query_run_visudo (f : str) : query (run_visudo io_fail visudo f).
Proof.
  apply query_bind; [apply query_attempt|intros _].
  apply query_bind; [apply query_get_files|intro t]. apply query_ret.
Qed.

Lemma query_scan_files (ne d : str) (names : list str) :
  query (scan_files io_fail ne d names).
Proof.
  induction names as [|n names IH]; simpl; [apply query_ret|].
  apply query_bind; [apply query_open_read|intro c].
  destruct (infixb _ _); [apply query_ret|exact IH].
Qed.

(** The Duplicate Detector only reads. *)
Lemma query_entry_exists (entry d : str) :
  query (entry_exists_in_sudoers_d io_fail entry d).
Proof.
  apply query_bind; [apply query_os_listdir|intro names].
  apply query_scan_files.
Qed.

End Frame.

Lemma query_result {A} (c : M A) (t : fs) :
  query c -> c t = {| value := value (c t); files := t; out := [] |}.
Proof.
  intro H. destruct (H t) as [F O]. destruct (c t) as [v f o].
  simpl in *. now subst.
Qed.

(** ** One line of the source file *)

Section OneLine.

Variable io_fail : fs -> op -> bool.
Variable visudo : fs -> str -> Z.
Variables sudoers_file file_prefix sudoers_d_dir : str.
Variables test_mode remove_entries : bool.

Local Abbreviation process :=
  (process_line io_fail visudo sudoers_file file_prefix sudoers_d_dir
                test_mode remove_entries).
Local Abbreviation detect entry :=
  (entry_exists_in_sudoers_d io_fail entry sudoers_d_dir).

Lemma process_line_unmatched (line : str) (t : fs) :
  rule_regex_match (strip line) = None ->
  process line t = {| value := Ret tt; files := t; out := [] |}.
Proof. intro E. unfold process_line. now rewrite E. Qed.

Lemma process_line_excluded (line u : str) (t : fs) :
  rule_regex_match (strip line) = Some u -> excluded u = true ->
  process line t =
  {| value := Ret tt; files := t; out := [Processing (strip line); Skipping u] |}.
Proof. intros E X. unfold process_line. now rewrite E, X. Qed.

Lemma process_line_detect_error (line u : str) (t : fs) :
  rule_regex_match (strip line) = Some u -> excluded u = false ->
  value (detect (strip line) t) = IOError ->
  process line t =
  {| value := IOError; files := t; out := [Processing (strip line)] |}.
Proof.
  intros E X V. unfold process_line. rewrite E, X. unfold bind at 1 2. cbn.
  rewrite (query_result t (query_entry_exists io_fail _ _)), V. reflexivity.
Qed.

Lemma process_line_duplicate (line u : str) (t : fs) (c : ascii) (f : str) :
  rule_regex_match (strip line) = Some u -> excluded u = false ->
  value (detect (strip line) t) = Ret (Some (c :: f)) ->
  process line t =
  {| value := Ret tt; files := t;
     out := [Processing (strip line); AlreadyExists u (c :: f)] |}.
Proof.
  intros E X V. unfold process_line. rewrite E, X. unfold bind at 1 2. cbn.
  rewrite (query_result t (query_entry_exists io_fail _ _)), V. reflexivity.
Qed.

Lemma process_line_new (line u : str) (t : fs) (x : option str) :
  rule_regex_match (strip line) = Some u -> excluded u = false ->
  value (detect (strip line) t) = Ret x -> nothing_found x = true ->
  process line t =
  let file_name := fragment_path sudoers_d_dir file_prefix u in
  if test_mode
  then {| value := Ret tt; files := t;
          out := [Processing (strip line); WouldCreate file_name] |}
  else after [Processing (strip line); Creating file_name]
             (install_fragment io_fail visudo sudoers_file file_name
                               (strip line) remove_entries t).
Proof.
  intros E X V N. unfold process_line. rewrite E, X. unfold bind at 1 2. cbn.
  rewrite (query_result t (query_entry_exists io_fail _ _)), V. cbn.
  assert (K : forall (k1 : str -> M unit) (k2 : M unit),
             match x with Some (c :: f) => k1 (c :: f) | _ => k2 end = k2).
  { intros. destruct x as [[|c f]|]; try reflexivity. discriminate. }
  rewrite (K (fun f => print (AlreadyExists u f))).
  destruct test_mode; reflexivity.
Qed.

End OneLine.

(** ** The whole run *)

Lemma try_except_print (c : M unit) (e : event) (t : fs) :
  value (try_except c (print e) t) = Ret tt /\
  files (try_except c (print e) t) = files (c t) /\
  out (try_except c (print e) t) =
  out (c t) ++ match value (c t) with
               | Ret _ => []
               | IOError => [e]
               end.
Proof.
  unfold try_except. destruct (c t) as [[[]|] f o]; simpl;
    rewrite ?app_nil_r; auto.
Qed.

Lemma for_each_keeps {A} (body : A -> M unit) (P : event -> bool) (xs : list A) :
  (forall x t, files (body x t) = t /\ forallb P (out (body x t)) = true) ->
  forall t, files (for_each body xs t) = t /\
            forallb P (out (for_each body xs t)) = true.
Proof.
  intros H. induction xs as [|x xs IH]; intro t; simpl; [now split|].
  rewrite files_bind, out_bind. destruct (H x t) as [F O].
  destruct (value (body x t)); [|now split].
  rewrite F, forallb_app, O. exact (IH t).
Qed.

(** The run: reading the lines, then the loop, then the handler. *)
Lemma create_sudoers_d_files_unfold
    (io_fail : fs -> op -> bool) (visudo : fs -> str -> Z)
    (sudoers_file file_prefix sudoers_d_dir : str)
    (test_mode remove_entries : bool) (t : fs) :
  create_sudoers_d_files io_fail visudo sudoers_file file_prefix sudoers_d_dir
                         test_mode remove_entries t =
  match value (open_read io_fail (Named sudoers_file) t) with
  | IOError => {| value := Ret tt; files := t; out := [ErrorOpening] |}
  | Ret sudoers =>
      let r := for_each (process_line io_fail visudo sudoers_file file_prefix
                                      sudoers_d_dir test_mode remove_entries)
                        (splitlines sudoers) t in
      {| value := Ret tt; files := files r;
         out := out r ++ match value r with
                         | Ret _ => []
                         | IOError => [ErrorOpening]
                         end |}
  end.
Proof.
  unfold create_sudoers_d_files, try_except.
  set (body := process_line io_fail visudo sudoers_file file_prefix
                            sudoers_d_dir test_mode remove_entries).
  assert (Hc : (sudoers <- open_read io_fail (Named sudoers_file) ;;
                for_each body (splitlines sudoers)) t =
               match value (open_read io_fail (Named sudoers_file) t) with
               | Ret sudoers => for_each body (splitlines sudoers) t
               | IOError => {| value := IOError; files := t; out := [] |}
               end).
  { unfold bind.
    rewrite (query_result t (query_open_read io_fail (Named sudoers_file))).
    cbn [value files out].
    destruct (value (open_read io_fail (Named sudoers_file) t)) as [s|];
      [|reflexivity].
    now destruct (for_each body (splitlines s) t). }
  rewrite Hc.
  destruct (value (open_read io_fail (Named sudoers_file) t)) as [s|];
    [|reflexivity].
  destruct (for_each body (splitlines s) t) as [[[]|] f o]; cbn;
    now rewrite ?app_nil_r.
Qed.

Lemma quiet_created (evs : list event) :
  forallb quiet evs = true -> created evs = [].
Proof.
  induction evs as [|[] evs IH]; simpl; intro H; try discriminate; auto.
Qed.

(** ** Test mode (C3) *)

Section TestMode.

Variable io_fail : fs -> op -> bool.
Variable visudo : fs -> str -> Z.
Variables sudoers_file file_prefix sudoers_d_dir : str.
Variable remove_entries : bool.

Lemma process_line_test_mode (line : str) (t : fs) :
  let r := process_line io_fail visudo sudoers_file file_prefix sudoers_d_dir
                        true remove_entries line t in
  files r = t /\ forallb quiet (out r) = true.
Proof.
  destruct (rule_regex_match (strip line)) as [u|] eqn:E;
    [|now rewrite process_line_unmatched].
  destruct (excluded u) eqn:X;
    [now erewrite process_line_excluded by eassumption|].
  destruct (value (entry_exists_in_sudoers_d io_fail (strip line) sudoers_d_dir t))
    as [x|] eqn:V;
    [|now erewrite process_line_detect_error by eassumption].
  destruct (nothing_found x) eqn:N.
  - now erewrite process_line_new by eassumption.
  - destruct x as [[|c f]|]; try discriminate.
    now erewrite process_line_duplicate by eassumption.
Qed.

End TestMode.

(** C3: with test mode enabled the run leaves every file as it was (no
    fragment is created, the source file does not change), and no line
    reaches the validator, a deletion or a removal: nothing but the
    messages of a skipped or simulated line is printed. *)
Theorem test_mode_changes_nothing
    (io_fail : fs -> op -> bool) (visudo : fs -> str -> Z)
    (sudoers_file file_prefix sudoers_d_dir : str) (remove_entries : bool)
    (t : fs) :
  let r := create_sudoers_d_files io_fail visudo sudoers_file file_prefix
                                  sudoers_d_dir true remove_entries t in
  files r = t /\ forallb quiet (out r) = true /\ created (out r) = [].
Proof.
  intro r. subst r. rewrite create_sudoers_d_files_unfold.
  destruct (value (open_read io_fail (Named sudoers_file) t)) as [s|];
    [|now repeat split].
  destruct (for_each_keeps _ quiet (splitlines s)
              (process_line_test_mode io_fail visudo sudoers_file file_prefix
                                      sudoers_d_dir remove_entries) t)
    as [F O].
  cbn [files out]. split; [exact F|].
  assert (H : forall x y, forallb quiet (x ++ y) = true ->
                forallb quiet (x ++ y) = true /\ created (x ++ y) = []).
  { intros x y H. split; [exact H|now apply quiet_created]. }
  apply H. rewrite forallb_app, O. now destruct (value _).
Qed.

Lemma bind_eq {A B} (c : M A) (k : A -> M B) (t : fs) :
  bind c k t =
  match value (c t) with
  | Ret a => after (out (c t)) (k a (files (c t)))
  | IOError => {| value := IOError; files := files (c t); out := out (c t) |}
  end.
Proof. unfold bind, after. now destruct (value (c t)). Qed.

Lemma after_nil {A} (r : result A) : after [] r = r.
Proof. now destruct r. Qed.

(** ** The operations, one by one *)

Section Operations.

Variable io_fail : fs -> op -> bool.
Variable visudo : fs -> str -> Z.

Lemma attempt_eq (o : op) (t : fs) :
  attempt io_fail o t =
  {| value := if io_fail t o then IOError else Ret tt; files := t; out := [] |}.
Proof. unfold attempt, bind, get_files. cbn. now destruct (io_fail t o). Qed.

Lemma open_read_eq (p : path) (t : fs) :
  open_read io_fail p t =
  {| value := if io_fail t (OpOpenRead p) then IOError
              else match fs_lookup p t with
                   | Some (File content) => Ret (universal_newlines content)
                   | _ => IOError
                   end;
     files := t; out := [] |}.
Proof.
  unfold open_read, bind. rewrite attempt_eq. cbn.
  destruct (io_fail t (OpOpenRead p)); [reflexivity|]. cbn.
  now destruct (fs_lookup p t) as [[c|]|].
Qed.

Lemma open_write_eq (p : path) (t : fs) :
  open_write io_fail p t =
  if io_fail t (OpOpenWrite p) then {| value := IOError; files := t; out := [] |}
  else match fs_lookup p t with
       | Some Directory => {| value := IOError; files := t; out := [] |}
       | _ => {| value := Ret tt; files := fs_set p (File []) t; out := [] |}
       end.
Proof.
  unfold open_write, bind. rewrite attempt_eq. cbn.
  destruct (io_fail t (OpOpenWrite p)); [reflexivity|]. cbn.
  now destruct (fs_lookup p t) as [[c|]|].
Qed.

Lemma write_data_eq (p : path) (data : str) (t : fs) :
  write_data io_fail p data t =
  if io_fail t (OpWriteData p data) then {| value := IOError; files := t; out := [] |}
  else match fs_lookup p t with
       | Some (File content) =>
           {| value := Ret tt; files := fs_set p (File (content ++ data)) t; out := [] |}
       | _ => {| value := IOError; files := t; out := [] |}
       end.
Proof.
  unfold write_data, bind. rewrite attempt_eq. cbn.
  destruct (io_fail t (OpWriteData p data)); [reflexivity|]. cbn.
  now destruct (fs_lookup p t) as [[c|]|].
Qed.

Lemma os_listdir_eq (d : str) (t : fs) :
  os_listdir io_fail d t =
  {| value := if io_fail t (OpListdir d) then IOError
              else match fs_lookup (Named d) t with
                   | Some Directory => Ret (dir_entries d t)
                   | _ => IOError
                   end;
     files := t; out := [] |}.
Proof.
  unfold os_listdir, bind. rewrite attempt_eq. cbn.
  destruct (io_fail t (OpListdir d)); [reflexivity|]. cbn.
  now destruct (fs_lookup (Named d) t) as [[c|]|].
Qed.

Lemma os_remove_eq (p : path) (t : fs) :
  os_remove io_fail p t =
  if io_fail t (OpRemove p) then {| value := IOError; files := t; out := [] |}
  else match fs_lookup p t with
       | Some (File _) => {| value := Ret tt; files := fs_del p t; out := [] |}
       | _ => {| value := IOError; files := t; out := [] |}
       end.
Proof.
  unfold os_remove, bind. rewrite attempt_eq. cbn.
  destruct (io_fail t (OpRemove p)); [reflexivity|]. cbn.
  now destruct (fs_lookup p t) as [[c|]|].
Qed.

Lemma os_rename_eq (src dst : path) (t : fs) :
  os_rename io_fail src dst t =
  if io_fail t (OpRename src dst) then {| value := IOError; files := t; out := [] |}
  else match fs_lookup src t, fs_lookup dst t with
       | Some (File content), Some (File _) | Some (File content), None =>
           {| value := Ret tt; files := fs_set dst (File content) (fs_del src t);
              out := [] |}
       | _, _ => {| value := IOError; files := t; out := [] |}
       end.
Proof.
  unfold os_rename, bind. rewrite attempt_eq. cbn.
  destruct (io_fail t (OpRename src dst)); [reflexivity|]. cbn.
  destruct (fs_lookup src t) as [[c|]|]; try reflexivity.
  now destruct (fs_lookup dst t) as [[c'|]|].
Qed.

Lemma read_bytes_eq (p : path) (t : fs) :
  read_bytes io_fail p t =
  {| value := if io_fail t (OpOpenRead p) then IOError
              else match fs_lookup p t with
                   | Some (File content) => Ret content
                   | _ => IOError
                   end;
     files := t; out := [] |}.
Proof.
  unfold read_bytes, bind. rewrite attempt_eq. cbn.
  destruct (io_fail t (OpOpenRead p)); [reflexivity|]. cbn.
  now destruct (fs_lookup p t) as [[c|]|].
Qed.

Lemma copyfile_eq (src dst : path) (t : fs) :
  copyfile io_fail src dst t =
  if path_eqb src dst then {| value := IOError; files := t; out := [] |}
  else if io_fail t (OpOpenRead src)
  then {| value := IOError; files := t; out := [] |}
  else
    match fs_lookup src t with
    | Some (File data) =>
        if io_fail t (OpOpenWrite dst)
        then {| value := IOError; files := t; out := [] |}
        else
          match fs_lookup dst t with
          | Some Directory => {| value := IOError; files := t; out := [] |}
          | _ =>
              let t1 := fs_set dst (File []) t in
              match data with
              | [] => {| value := Ret tt; files := t1; out := [] |}
              | _ :: _ =>
                  if io_fail t1 (OpWriteData dst data)
                  then {| value := IOError; files := t1; out := [] |}
                  else {| value := Ret tt; files := fs_set dst (File data) t;
                          out := [] |}
              end
          end
    | _ => {| value := IOError; files := t; out := [] |}
    end.
Proof.
  unfold copyfile. destruct (path_eqb src dst); [reflexivity|].
  rewrite bind_eq, read_bytes_eq. cbn [value files out].
  destruct (io_fail t (OpOpenRead src)); [reflexivity|].
  destruct (fs_lookup src t) as [[data|]|]; try reflexivity.
  rewrite after_nil, bind_eq, open_write_eq.
  destruct (io_fail t (OpOpenWrite dst)); [reflexivity|].
  assert (W : forall r : result unit,
             after [] r = r) by (intro r; apply after_nil).
  destruct (fs_lookup dst t) as [[c|]|]; try reflexivity;
    cbn [value files out]; rewrite after_nil; cbv zeta;
    (destruct data as [|x data]; [reflexivity|];
     rewrite write_data_eq;
     destruct (io_fail _ (OpWriteData dst (x :: data))); [reflexivity|];
     now rewrite fs_lookup_set_same, fs_set_set).
Qed.

Lemma shutil_move_eq (src dst : path) (t : fs) :
  shutil_move io_fail src dst t =
  match value (os_rename io_fail src dst t) with
  | Ret _ => os_rename io_fail src dst t
  | IOError => (copyfile io_fail src dst ;; os_remove io_fail src) t
  end.
Proof.
  unfold shutil_move, try_except.
  destruct (value (os_rename io_fail src dst t)) eqn:V; [reflexivity|].
  assert (E : files (os_rename io_fail src dst t) = t /\
              out (os_rename io_fail src dst t) = []).
  { revert V. rewrite os_rename_eq.
    destruct (io_fail t (OpRename src dst)); [now split|].
    destruct (fs_lookup src t) as [[c|]|]; try (now split).
    destruct (fs_lookup dst t) as [[c'|]|]; try discriminate; now split. }
  destruct E as [-> ->].
  now destruct ((copyfile io_fail src dst ;; os_remove io_fail src) t).
Qed.

Lemma named_temporary_file_eq (t : fs) :
  named_temporary_file io_fail t =
  if io_fail t OpTemp then {| value := IOError; files := t; out := [] |}
  else {| value := Ret (Temp (fresh_temp t));
          files := t ++ [(Temp (fresh_temp t), File [])]; out := [] |}.
Proof.
  unfold named_temporary_file, bind. rewrite attempt_eq. cbn.
  destruct (io_fail t OpTemp); [reflexivity|]. cbn.
  now rewrite fs_set_absent by apply fresh_temp_fresh.
Qed.

Lemma run_visudo_eq (f : str) (t : fs) :
  run_visudo io_fail visudo f t =
  {| value := if io_fail t (OpRun f) then IOError else Ret (visudo t f);
     files := t; out := [] |}.
Proof.
  unfold run_visudo, bind. rewrite attempt_eq. cbn.
  now destruct (io_fail t (OpRun f)).
Qed.

End Operations.

Lemma fs_set_last (p : path) (n m : node) (t : fs) :
  fs_lookup p t = None -> fs_set p n (t ++ [(p, m)]) = t ++ [(p, n)].
Proof.
  intro H. rewrite <- (fs_set_absent p m t H), fs_set_set. now apply fs_set_absent.
Qed.

Lemma fs_del_absent (p : path) (t : fs) : fs_lookup p t = None -> fs_del p t = t.
Proof.
  induction t as [|[q k] t IH]; simpl; [reflexivity|].
  destruct (path_eqb p q); [discriminate|]. intro H. simpl. now rewrite IH.
Qed.

Lemma fs_del_last (p : path) (m : node) (t : fs) :
  fs_lookup p t = None -> fs_del p (t ++ [(p, m)]) = t.
Proof.
  intro H. unfold fs_del. rewrite filter_app. simpl. rewrite path_eqb_refl. simpl.
  rewrite app_nil_r. now apply fs_del_absent.
Qed.

Lemma same_named_refl (t : fs) : same_named t t.
Proof. now intro. Qed.

Lemma same_named_temp (t : fs) (n : nat) (m : node) :
  same_named t (t ++ [(Temp n, m)]).
Proof.
  intro name. rewrite fs_lookup_app. simpl.
  now destruct (fs_lookup (Named name) t).
Qed.

Lemma fs_lookup_last (p : path) (m : node) (t : fs) :
  fs_lookup p t = None -> fs_lookup p (t ++ [(p, m)]) = Some m.
Proof.
  intro H. rewrite fs_lookup_app, H. simpl. now rewrite path_eqb_refl.
Qed.

(** ** The Source Mutator *)

Section Removal.

Variable io_fail : fs -> op -> bool.
Variables sudoers_file entry : str.

Local Abbreviation copy_line tmp :=
  (fun line : str =>
     if negb (str_eqb (strip line) entry) then write_data io_fail tmp line
     else ret tt).

(** The copying loop writes to the temporary file only. *)
Lemma copy_loop (tmp : path) (t : fs) (lines : list str) :
  fs_lookup tmp t = None ->
  forall acc,
    let r := for_each (copy_line tmp) lines (t ++ [(tmp, File acc)]) in
    out r = [] /\
    ((value r = IOError /\ exists acc', files r = t ++ [(tmp, File acc')]) \/
     (value r = Ret tt /\
      files r = t ++ [(tmp, File (acc ++ without_entry entry lines))])).
Proof.
  intro Hfresh. induction lines as [|line lines IH]; intro acc.
  - simpl. split; [reflexivity|right]. unfold without_entry. simpl.
    now rewrite app_nil_r.
  - cbn [for_each]. rewrite bind_eq. unfold without_entry. cbn [filter].
    destruct (negb (str_eqb (strip line) entry)).
    + rewrite write_data_eq.
      destruct (io_fail _ _).
      { cbn. split; [reflexivity|left]. split; [reflexivity|now exists acc]. }
      rewrite fs_lookup_last by exact Hfresh. cbn [value files out].
      rewrite after_nil, fs_set_last by exact Hfresh.
      destruct (IH (acc ++ line)) as [O [[V [acc' F]]|[V F]]].
      * split; [exact O|left]. split; [exact V|now exists acc'].
      * split; [exact O|right]. split; [exact V|].
        rewrite F. cbn [concat]. now rewrite app_assoc.
    + cbn [ret value files out]. rewrite after_nil. exact (IH acc).
Qed.

Lemma fs_set_app (p : path) (n : node) (t a : fs) :
  fs_lookup p t <> None -> fs_set p n (t ++ a) = fs_set p n t ++ a.
Proof.
  induction t as [|[q m] t IH]; cbn [fs_lookup fs_set app]; [congruence|].
  destruct (path_eqb p q); [reflexivity|]. intro H. now rewrite IH.
Qed.

Lemma fs_set_same (p : path) (n : node) (t : fs) :
  fs_lookup p t = Some n -> fs_set p n t = t.
Proof.
  induction t as [|[q k] t IH]; [discriminate|]. cbn [fs_lookup fs_set].
  destruct (path_eqb p q) eqn:E.
  - intro H. injection H as ->. reflexivity.
  - intro H. now rewrite IH.
Qed.

(** The move of the temporary file onto the source file: the rename, or
    the copy in its place. When the move raises, the rename had failed,
    and the source file is as it was, or emptied, or already replaced;
    the temporary file is still there. *)
Lemma move_onto_source (tmp : path) (t : fs) (copied content : str) :
  fs_lookup tmp t = None ->
  path_eqb tmp (Named sudoers_file) = false ->
  fs_lookup (Named sudoers_file) t = Some (File content) ->
  let t1 := t ++ [(tmp, File copied)] in
  let r := shutil_move io_fail tmp (Named sudoers_file) t1 in
  out r = [] /\
  ((value r = Ret tt /\
    files r = fs_set (Named sudoers_file) (File copied) t) \/
   (value r = IOError /\
    io_fail t1 (OpRename tmp (Named sudoers_file)) = true /\
    exists x,
      (x = content \/ x = [] \/ x = copied) /\
      files r = fs_set (Named sudoers_file) (File x) t ++ [(tmp, File copied)])).
Proof.
  intros Hfresh Hne Hsrc. cbv zeta.
  assert (Hdiff : Named sudoers_file <> tmp).
  { intro E. rewrite <- E, path_eqb_refl in Hne. discriminate. }
  assert (Lt : fs_lookup tmp (t ++ [(tmp, File copied)]) = Some (File copied))
    by now apply fs_lookup_last.
  assert (Ls : fs_lookup (Named sudoers_file) (t ++ [(tmp, File copied)]) =
               Some (File content)) by now rewrite fs_lookup_app, Hsrc.
  assert (Hin : fs_lookup (Named sudoers_file) t <> None) by congruence.
  assert (Same : t ++ [(tmp, File copied)] =
                 fs_set (Named sudoers_file) (File content) t ++
                 [(tmp, File copied)]) by now rewrite fs_set_same.
  rewrite shutil_move_eq, os_rename_eq.
  destruct (io_fail _ (OpRename tmp (Named sudoers_file))) eqn:R.
  2:{ rewrite Lt, Ls. cbn [value files out]. split; [reflexivity|left].
      split; [reflexivity|]. now rewrite fs_del_last. }
  cbn [value]. rewrite bind_eq, copyfile_eq, Hne.
  destruct (io_fail _ (OpOpenRead tmp)).
  { cbn [value files out]. split; [reflexivity|right].
    repeat split. exists content. split; [now left|exact Same]. }
  rewrite Lt.
  destruct (io_fail _ (OpOpenWrite (Named sudoers_file))).
  { cbn [value files out]. split; [reflexivity|right].
    repeat split. exists content. split; [now left|exact Same]. }
  rewrite Ls. cbv zeta. rewrite !fs_set_app by exact Hin.
  assert (Hrm : forall x,
             let t2 := fs_set (Named sudoers_file) (File x) t ++
                       [(tmp, File copied)] in
             fs_lookup tmp t2 = Some (File copied) /\
             fs_del tmp t2 = fs_set (Named sudoers_file) (File x) t).
  { intro x. cbv zeta.
    assert (F : fs_lookup tmp (fs_set (Named sudoers_file) (File x) t) = None)
      by now rewrite fs_lookup_set_other.
    split; [now apply fs_lookup_last|now apply fs_del_last]. }
  destruct copied as [|c copied].
  - cbn [value files out]. rewrite after_nil, os_remove_eq.
    destruct (Hrm []) as [L D]. rewrite L, D.
    destruct (io_fail _ (OpRemove tmp)); cbn [value files out].
    + split; [reflexivity|right]. repeat split. exists []. split; auto.
    + split; [reflexivity|left]. now split.
  - destruct (io_fail _ (OpWriteData (Named sudoers_file) (c :: copied))).
    { cbn [value files out]. split; [reflexivity|right]. repeat split.
      exists []. split; auto. }
    cbn [value files out]. rewrite after_nil, os_remove_eq.
    destruct (Hrm (c :: copied)) as [L D]. rewrite L, D.
    destruct (io_fail _ (OpRemove tmp)); cbn [value files out].
    + split; [reflexivity|right]. repeat split. exists (c :: copied).
      split; auto.
    + split; [reflexivity|left]. now split.
Qed.

(** The ways a removal ends. It raises before its temporary file is made,
    and nothing has changed; or it raises later, and the temporary file is
    left, and the source file is as it was or, when the rename of the move
    failed, possibly emptied or already replaced; or it returns, and the
    source file has been replaced by the lines it keeps and nothing else
    has changed. *)
Lemma remove_entry_shape (t : fs) :
  let r := remove_entry_from_sudoers io_fail sudoers_file entry t in
  let tmp := Temp (fresh_temp t) in
  out r = [] /\
  ((value r = IOError /\ io_fail t OpTemp = true /\ files r = t) \/
   (value r = IOError /\ io_fail t OpTemp = false /\
    exists copied, files r = t ++ [(tmp, File copied)]) \/
   (value r = IOError /\ io_fail t OpTemp = false /\
    exists content copied x,
      fs_lookup (Named sudoers_file) t = Some (File content) /\
      io_fail (t ++ [(tmp, File copied)]) (OpRename tmp (Named sudoers_file))
      = true /\
      (x = [] \/ x = copied) /\
      files r =
      fs_set (Named sudoers_file) (File x) t ++ [(tmp, File copied)]) \/
   (value r = Ret tt /\
    exists content,
      fs_lookup (Named sudoers_file) t = Some (File content) /\
      files r =
      fs_set (Named sudoers_file)
             (File (without_entry entry (splitlines (universal_newlines content))))
             t)).
Proof.
  cbv zeta. unfold remove_entry_from_sudoers.
  rewrite bind_eq, named_temporary_file_eq.
  destruct (io_fail t OpTemp) eqn:T.
  { cbn. split; [reflexivity|left]. now repeat split. }
  cbn [value files out]. rewrite after_nil.
  set (tmp := Temp (fresh_temp t)).
  assert (Hfresh : fs_lookup tmp t = None) by apply fresh_temp_fresh.
  assert (Hsame : forall acc, same_named t (t ++ [(tmp, File acc)])).
  { intro acc. apply same_named_temp. }
  rewrite bind_eq, open_read_eq. cbn [value files out].
  destruct (io_fail _ (OpOpenRead _)).
  { split; [reflexivity|right; left]. repeat split. now exists []. }
  rewrite (Hsame [] sudoers_file).
  destruct (fs_lookup (Named sudoers_file) t) as [[content|]|] eqn:Hsrc;
    try (split; [reflexivity|right; left]; repeat split; now exists []).
  rewrite after_nil, bind_eq, open_write_eq.
  destruct (io_fail _ (OpOpenWrite _)).
  { cbn. split; [reflexivity|right; left]. repeat split. now exists []. }
  rewrite fs_lookup_last by exact Hfresh. cbn [value files out].
  rewrite after_nil, fs_set_last by exact Hfresh. rewrite bind_eq.
  destruct (copy_loop tmp t (splitlines (universal_newlines content)) Hfresh [])
    as [O [[V [acc' F]]|[V F]]]; rewrite V, O, F.
  { split; [reflexivity|right; left]. repeat split. now exists acc'. }
  rewrite after_nil. cbn [app].
  destruct (@move_onto_source tmp t
              (without_entry entry (splitlines (universal_newlines content)))
              content Hfresh eq_refl Hsrc)
    as [Om [[Vm Fm]|(Vm & Rm & x & Hx & Fm)]]; cbv zeta in *.
  - split; [exact Om|right; right; right]. split; [exact Vm|].
    exists content. now split.
  - split; [exact Om|]. destruct Hx as [->|Hx].
    + right; left. split; [exact Vm|]. split; [reflexivity|].
      eexists. rewrite Fm. now rewrite fs_set_same.
    + right; right; left. split; [exact Vm|]. split; [reflexivity|].
      exists content. eexists. exists x. repeat split; eauto.
Qed.

(** [remove_entry_from_sudoers] either raises, and then every file the
    program can name is as it was, but for the source file when the copy
    of the move had begun; or returns, and then the source file has been
    replaced by the lines it keeps and nothing else has changed. *)
Lemma remove_entry_cases (t : fs) :
  let r := remove_entry_from_sudoers io_fail sudoers_file entry t in
  out r = [] /\
  ((value r = IOError /\
    (same_named t (files r) \/
     exists content x,
       fs_lookup (Named sudoers_file) t = Some (File content) /\
       same_named (fs_set (Named sudoers_file) (File x) t) (files r))) \/
   (value r = Ret tt /\
    exists content,
      fs_lookup (Named sudoers_file) t = Some (File content) /\
      files r =
      fs_set (Named sudoers_file)
             (File (without_entry entry (splitlines (universal_newlines content))))
             t)).
Proof.
  destruct (remove_entry_shape t)
    as [O [(V & _ & F)|[(V & _ & copied & F)|
           [(V & _ & content & copied & x & Hs & _ & _ & F)|[V H]]]]];
    cbv zeta in *; (split; [exact O|]).
  - left. split; [exact V|left]. rewrite F. apply same_named_refl.
  - left. split; [exact V|left]. rewrite F. apply same_named_temp.
  - left. split; [exact V|right]. exists content, x. split; [exact Hs|].
    rewrite F. apply same_named_temp.
  - right. now split.
Qed.

(** On a system where no operation fails, the removal from a source
    file that is there returns. *)
Lemma remove_entry_succeeds (t : fs) (content : str) :
  (forall t0 o, io_fail t0 o = false) ->
  fs_lookup (Named sudoers_file) t = Some (File content) ->
  value (remove_entry_from_sudoers io_fail sudoers_file entry t) = Ret tt.
Proof.
  intros Hnf Hsrc. unfold remove_entry_from_sudoers.
  rewrite value_bind, named_temporary_file_eq, Hnf. cbn [value files].
  rewrite value_bind, open_read_eq, Hnf. cbn [value files].
  rewrite fs_lookup_app, Hsrc.
  rewrite value_bind, open_write_eq, Hnf.
  rewrite fs_lookup_last by apply fresh_temp_fresh. cbn [value files].
  rewrite fs_set_last by apply fresh_temp_fresh.
  rewrite value_bind.
  destruct (copy_loop (Temp (fresh_temp t)) t
              (splitlines (universal_newlines content))
              (fresh_temp_fresh t) [])
    as [_ [[Vc _]|[Vc Fc]]].
  - exfalso. revert Vc. generalize (@nil ascii).
    induction (splitlines (universal_newlines content)) as [|l ls IH];
      intro acc; [discriminate|].
    cbn [for_each]. rewrite value_bind.
    destruct (negb (str_eqb (strip l) entry)).
    + rewrite write_data_eq, Hnf.
      rewrite fs_lookup_last by apply fresh_temp_fresh. cbn [value files].
      rewrite fs_set_last by apply fresh_temp_fresh. apply IH.
    + cbn [ret value files]. apply IH.
  - rewrite Vc, Fc, shutil_move_eq, os_rename_eq, Hnf.
    rewrite fs_lookup_last by apply fresh_temp_fresh.
    now rewrite fs_lookup_app, Hsrc.
Qed.

End Removal.

(** ** Writing, checking, deleting *)

Section Install.

Variable io_fail : fs -> op -> bool.
Variable visudo : fs -> str -> Z.
Variables sudoers_file file_name entry : str.
Variable remove_entries : bool.

Lemma install_fragment_eq (t : fs) :
  install_fragment io_fail visudo sudoers_file file_name entry remove_entries t =
  let p := Named file_name in
  if io_fail t (OpOpenWrite p) then {| value := IOError; files := t; out := [] |}
  else
    match fs_lookup p t with
    | Some Directory => {| value := IOError; files := t; out := [] |}
    | _ =>
        let t1 := fs_set p (File []) t in
        let t2 := fs_set p (File entry) t in
        if io_fail t1 (OpWriteData p entry)
        then {| value := IOError; files := t1; out := [] |}
        else if io_fail t2 (OpRun file_name)
        then {| value := IOError; files := t2; out := [Checking] |}
        else if negb (visudo t2 file_name =? 0)%Z then
          if io_fail t2 (OpRemove p)
          then {| value := IOError; files := t2;
                  out := [Checking; ErrorDeleting file_name] |}
          else {| value := Ret tt; files := fs_del p t2;
                  out := [Checking; ErrorDeleting file_name] |}
        else if remove_entries
        then after [Checking; Removing sudoers_file]
                   (remove_entry_from_sudoers io_fail sudoers_file entry t2)
        else {| value := Ret tt; files := t2; out := [Checking] |}
    end.
Proof.
  cbv zeta. unfold install_fragment.
  rewrite bind_eq, open_write_eq.
  destruct (io_fail t (OpOpenWrite (Named file_name))); [reflexivity|].
  assert (Hw : forall t1,
             t1 = fs_set (Named file_name) (File []) t ->
             after []
               ((write_data io_fail (Named file_name) entry ;;
                 print Checking ;;
                 returncode <- run_visudo io_fail visudo file_name ;;
                 (if negb (returncode =? 0)%Z
                  then print (ErrorDeleting file_name) ;;
                       os_remove io_fail (Named file_name)
                  else if remove_entries
                       then print (Removing sudoers_file) ;;
                            remove_entry_from_sudoers io_fail sudoers_file entry
                       else ret tt)) t1) =
             let t2 := fs_set (Named file_name) (File entry) t in
             if io_fail t1 (OpWriteData (Named file_name) entry)
             then {| value := IOError; files := t1; out := [] |}
             else if io_fail t2 (OpRun file_name)
             then {| value := IOError; files := t2; out := [Checking] |}
             else if negb (visudo t2 file_name =? 0)%Z then
               if io_fail t2 (OpRemove (Named file_name))
               then {| value := IOError; files := t2;
                       out := [Checking; ErrorDeleting file_name] |}
               else {| value := Ret tt; files := fs_del (Named file_name) t2;
                       out := [Checking; ErrorDeleting file_name] |}
             else if remove_entries
             then after [Checking; Removing sudoers_file]
                        (remove_entry_from_sudoers io_fail sudoers_file entry t2)
             else {| value := Ret tt; files := t2; out := [Checking] |}).
  { intros t1 E. cbv zeta. rewrite after_nil, bind_eq, write_data_eq.
    destruct (io_fail t1 (OpWriteData (Named file_name) entry)); [reflexivity|].
    assert (L1 : fs_lookup (Named file_name) t1 = Some (File [])).
    { subst t1. apply fs_lookup_set_same. }
    rewrite L1. cbn [value files out app].
    replace (fs_set (Named file_name) (File entry) t1)
      with (fs_set (Named file_name) (File entry) t)
      by (subst t1; now rewrite fs_set_set).
    set (t2 := fs_set (Named file_name) (File entry) t).
    rewrite after_nil, bind_eq. cbn [print value files out].
    rewrite bind_eq, run_visudo_eq. cbn [value files out].
    destruct (io_fail t2 (OpRun file_name)); [reflexivity|].
    rewrite after_nil.
    destruct (negb (visudo t2 file_name =? 0)%Z).
    - rewrite bind_eq. cbn [print value files out]. rewrite os_remove_eq.
      destruct (io_fail t2 (OpRemove (Named file_name))); [reflexivity|].
      unfold t2. now rewrite fs_lookup_set_same.
    - destruct remove_entries; [|reflexivity].
      rewrite bind_eq. cbn [print value files out].
      unfold after. cbn [value files out]. reflexivity. }
  destruct (fs_lookup (Named file_name) t) as [[c|]|];
    cbn [value files out]; try reflexivity; now apply Hw.
Qed.

End Install.

(** ** Removal atomicity (C6) *)

(** What holds of a removal that fails: as long as the rename of the move
    goes through, the source file, like every file the program can name,
    is what it was before. *)
Lemma removal_fails_safely_when_renaming
    (io_fail : fs -> op -> bool) (sudoers_file entry : str) (t : fs) :
  (forall t' src dst, io_fail t' (OpRename src dst) = false) ->
  let r := remove_entry_from_sudoers io_fail sudoers_file entry t in
  value r = IOError ->
  forall name, fs_lookup (Named name) (files r) = fs_lookup (Named name) t.
Proof.
  intros Hrename. cbv zeta.
  destruct (remove_entry_shape io_fail sudoers_file entry t)
    as [_ [(V & _ & F)|[(V & _ & copied & F)|
           [(V & _ & content & copied & x & _ & R & _)|[V _]]]]];
    cbv zeta in *; rewrite V; intro H; try discriminate; intro name.
  - now rewrite F.
  - rewrite F. apply same_named_temp.
  - now rewrite Hrename in R.
Qed.

(** C6, the defect: the temporary file is made in the default directory
    of temporary files, so on a system where that directory and the source
    file are on different file systems the rename of [shutil.move] fails
    and the move copies the temporary file onto the source file in place.
    While nothing else fails the removal still returns, with the source
    file rewritten. When writing to the source file fails, the removal
    raises [IOError] and the source file, which held two rules, is left
    empty; the run prints its error message and ends with the rule of
    [bob] in no file but the temporary one. *)
Theorem failed_move_empties_the_source :
  let sudoers := lit "/etc/sudoers" in
  let entry := lit "alice ALL=(ALL)" in
  let copied := remove_entry_from_sudoers other_device sudoers entry
                                          (etc two_rules []) in
  let r := remove_entry_from_sudoers (other_device_full sudoers) sudoers entry
                                     (etc two_rules []) in
  fs_lookup (Named sudoers) (etc two_rules []) = Some (File two_rules) /\
  value copied = Ret tt /\
  fs_lookup (Named sudoers) (files copied) = Some (File (lit "bob ALL=(ALL)
")) /\
  value r = IOError /\
  fs_lookup (Named sudoers) (files r) = Some (File []) /\
  create_sudoers_d_files (other_device_full sudoers) visudo_accepts sudoers
    (lit "10") (lit "/etc/sudoers.d") false true (etc two_rules []) =
  {| value := Ret tt;
     files := [(Named sudoers, File []);
               (Named (lit "/etc/sudoers.d"), Directory);
               (Named (lit "/etc/sudoers.d/10_alice"),
                File (lit "alice ALL=(ALL)"));
               (Temp 0, File (lit "bob ALL=(ALL)
"))];
     out := [Processing (lit "alice ALL=(ALL)");
             Creating (lit "/etc/sudoers.d/10_alice"); Checking;
             Removing sudoers; ErrorOpening] |}.
Proof. repeat split; reflexivity. Qed.

(** ** Privileged accounts (C8) *)

(** C8: a line whose principal, its first blank-delimited word, is [root]
    or [%wheel] in any letter case creates no fragment and changes no file,
    whatever the fragment directory holds and whatever the mode: it is not
    matched at all, or it is matched and skipped. *)
Theorem privileged_line_is_skipped
    (io_fail : fs -> op -> bool) (visudo : fs -> str -> Z)
    (sudoers_file file_prefix sudoers_d_dir : str)
    (test_mode remove_entries : bool) (line p : str) (t : fs) :
  hd_error (split_ws line) = Some p ->
  lower p = lit "root" \/ lower p = lit "%wheel" ->
  let r := process_line io_fail visudo sudoers_file file_prefix sudoers_d_dir
                        test_mode remove_entries line t in
  value r = Ret tt /\ files r = t /\
  (out r = [] \/ out r = [Processing (strip line); Skipping p]).
Proof.
  intros Hp Hpriv r. subst r.
  destruct (rule_regex_match (strip line)) as [u|] eqn:E.
  - assert (u = p).
    { apply rule_regex_match_first_token in E. congruence. }
    subst u.
    assert (X : excluded p = true).
    { unfold excluded. destruct Hpriv as [-> | ->]; rewrite ?str_eqb_refl;
        auto using orb_true_r. }
    erewrite process_line_excluded by eassumption. auto.
  - rewrite process_line_unmatched by exact E. auto.
Qed.

Lemma privileged_line_is_skipped_witness :
  out (process_line never_fails visudo_accepts (lit "/etc/sudoers") (lit "10")
         (lit "/etc/sudoers.d") false true (lit "root ALL=(ALL):ALL")
         (etc (lit "root ALL=(ALL):ALL") [])) =
  [Processing (lit "root ALL=(ALL):ALL"); Skipping (lit "root")] /\
  files (process_line never_fails visudo_accepts (lit "/etc/sudoers") (lit "10")
           (lit "/etc/sudoers.d") false true (lit "%Wheel ALL=(ALL) ALL")
           (etc (lit "%Wheel ALL=(ALL) ALL") [])) =
  etc (lit "%Wheel ALL=(ALL) ALL") [].
Proof.
  split; [reflexivity|].
  exact (proj1 (proj2 (privileged_line_is_skipped never_fails visudo_accepts
           (lit "/etc/sudoers") (lit "10") (lit "/etc/sudoers.d") false true
           (lit "%Wheel ALL=(ALL) ALL") (etc (lit "%Wheel ALL=(ALL) ALL") [])
           eq_refl (or_intror eq_refl)))).
Defined.

(** ** Errors while a line is processed (C7) *)

Lemma for_each_stops {A} (body : A -> M unit) (before : list A) (x : A)
    (rest : list A) :
  forall t,
    value (for_each body before t) = Ret tt ->
    value (body x (files (for_each body before t))) = IOError ->
    for_each body (before ++ x :: rest) t =
    {| value := IOError;
       files := files (body x (files (for_each body before t)));
       out := out (for_each body before t) ++
              out (body x (files (for_each body before t))) |}.
Proof.
  induction before as [|b before IH]; intros t V1 V2.
  - cbn in *. rewrite bind_eq, V2. reflexivity.
  - cbn [app for_each] in *.
    rewrite value_bind in V1. rewrite files_bind in V2. rewrite out_bind, files_bind.
    rewrite bind_eq.
    destruct (value (body b t)) as [[]|]; [|discriminate].
    rewrite (IH _ V1 V2). unfold after. cbn [value files out].
    now rewrite app_assoc.
Qed.

(** C7, as amended: an [IOError] raised while a line is processed (by the
    duplicate scan, the creation of the fragment, the validator that
    cannot be started, the deletion, the rewriting of the source file) is
    not contained: it ends the loop. The lines after it are not processed,
    whatever they are, and the error is reported once, by the handler that
    also reports a source file that cannot be opened; the run itself
    returns normally, with what the lines before had done left in place. *)
Theorem io_error_ends_the_run
    (io_fail : fs -> op -> bool) (visudo : fs -> str -> Z)
    (sudoers_file file_prefix sudoers_d_dir : str)
    (test_mode remove_entries : bool) (t : fs)
    (sudoers : str) (before : list str) (line : str) (rest : list str) :
  let body := process_line io_fail visudo sudoers_file file_prefix
                           sudoers_d_dir test_mode remove_entries in
  let r1 := for_each body before t in
  let r2 := body line (files r1) in
  value (open_read io_fail (Named sudoers_file) t) = Ret sudoers ->
  splitlines sudoers = before ++ line :: rest ->
  value r1 = Ret tt ->
  value r2 = IOError ->
  create_sudoers_d_files io_fail visudo sudoers_file file_prefix sudoers_d_dir
                         test_mode remove_entries t =
  {| value := Ret tt; files := files r2;
     out := out r1 ++ out r2 ++ [ErrorOpening] |}.
Proof.
  intros body r1 r2 Hopen Hlines V1 V2.
  rewrite create_sudoers_d_files_unfold, Hopen, Hlines. cbv zeta.
  fold body. rewrite (for_each_stops body before line rest t V1 V2).
  cbn [value files out]. fold r1 r2. now rewrite app_assoc.
Qed.

Lemma io_error_ends_the_run_witness :
  create_sudoers_d_files (cannot_write (lit "/etc/sudoers.d/10_alice"))
    visudo_accepts (lit "/etc/sudoers") (lit "10") (lit "/etc/sudoers.d")
    false false (etc two_rules []) =
  {| value := Ret tt; files := etc two_rules [];
     out := [Processing (lit "alice ALL=(ALL)");
             Creating (lit "/etc/sudoers.d/10_alice"); ErrorOpening] |}.
Proof.
  exact (@io_error_ends_the_run (cannot_write (lit "/etc/sudoers.d/10_alice"))
           visudo_accepts (lit "/etc/sudoers") (lit "10") (lit "/etc/sudoers.d")
           false false (etc two_rules []) two_rules [] (lit "alice ALL=(ALL)
") [lit "bob ALL=(ALL)
"] eq_refl eq_refl eq_refl eq_refl).
Defined.

(** C7 as stated fails: the fragment of the first rule cannot be created,
    the second line is a rule of its own, and the run neither processes it
    nor creates its fragment: it prints the handler's message and ends. *)
Lemma fragment_write_error_stops_the_run :
  splitlines (universal_newlines two_rules) =
  [lit "alice ALL=(ALL)
"; lit "bob ALL=(ALL)
"] /\
  value (process_line (cannot_write (lit "/etc/sudoers.d/10_alice"))
           visudo_accepts (lit "/etc/sudoers") (lit "10") (lit "/etc/sudoers.d")
           false false (lit "alice ALL=(ALL)
") (etc two_rules [])) = IOError /\
  rule_regex_match (strip (lit "bob ALL=(ALL)
")) = Some (lit "bob") /\
  out (create_sudoers_d_files (cannot_write (lit "/etc/sudoers.d/10_alice"))
         visudo_accepts (lit "/etc/sudoers") (lit "10") (lit "/etc/sudoers.d")
         false false (etc two_rules [])) =
  [Processing (lit "alice ALL=(ALL)");
   Creating (lit "/etc/sudoers.d/10_alice"); ErrorOpening] /\
  fs_lookup (Named (lit "/etc/sudoers.d/10_bob"))
    (files (create_sudoers_d_files (cannot_write (lit "/etc/sudoers.d/10_alice"))
              visudo_accepts (lit "/etc/sudoers") (lit "10")
              (lit "/etc/sudoers.d") false false (etc two_rules []))) = None.
Proof. repeat split; reflexivity. Qed.

(** ** What a fragment holds (C9) *)

Lemma created_app (x y : list event) : created (x ++ y) = created x ++ created y.
Proof.
  induction x as [|[] x IH]; simpl; auto. now rewrite IH.
Qed.

Lemma created_in (f : str) (evs : list event) :
  In (Creating f) evs <-> In f (created evs).
Proof.
  induction evs as [|e evs IH]; simpl; [tauto|].
  destruct e; simpl; rewrite <- IH; split;
    try (intros [H|H]; [discriminate|exact H]); auto.
  - intros [H|H]; [injection H as ->; now left|now right].
  - intros [->|H]; [now left|now right].
Qed.

Section InstallFacts.

Variable io_fail : fs -> op -> bool.
Variable visudo : fs -> str -> Z.
Variables sudoers_file file_name entry : str.
Variable remove_entries : bool.

Local Abbreviation install :=
  (install_fragment io_fail visudo sudoers_file file_name entry remove_entries).

Lemma install_fragment_creates_nothing (t : fs) : created (out (install t)) = [].
Proof.
  rewrite install_fragment_eq. cbv zeta.
  destruct (io_fail t _); [reflexivity|].
  destruct (fs_lookup (Named file_name) t) as [[c|]|]; try reflexivity;
    (destruct (io_fail _ (OpWriteData _ _)); [reflexivity|];
     destruct (io_fail _ (OpRun _)); [reflexivity|];
     destruct (negb _); [destruct (io_fail _ (OpRemove _)); reflexivity|];
     destruct remove_entries; [|reflexivity];
     unfold after; cbn [out];
     destruct (remove_entry_cases io_fail sudoers_file entry
                 (fs_set (Named file_name) (File entry) t)) as [O _];
     now rewrite O).
Qed.

Lemma install_fragment_kept (t : fs) :
  value (install t) = Ret tt ->
  ~ In (ErrorDeleting file_name) (out (install t)) ->
  (remove_entries = true -> Named file_name <> Named sudoers_file) ->
  fs_lookup (Named file_name) (files (install t)) = Some (File entry).
Proof.
  rewrite install_fragment_eq. cbv zeta.
  destruct (io_fail t _); [discriminate|].
  destruct (fs_lookup (Named file_name) t) as [[c|]|]; try discriminate;
    (destruct (io_fail _ (OpWriteData _ _)); [discriminate|];
     destruct (io_fail _ (OpRun _)); [discriminate|];
     destruct (negb _);
     [destruct (io_fail _ (OpRemove _)); [discriminate|];
      cbn; intros _ H; exfalso; apply H; auto|];
     destruct remove_entries;
     [|cbn; intros _ _ _; apply fs_lookup_set_same];
     destruct (remove_entry_cases io_fail sudoers_file entry
                 (fs_set (Named file_name) (File entry) t))
       as [O [[V S]|[V (content & Hsrc & F)]]];
     unfold after; cbn [value files out]; rewrite V;
     [discriminate|];
     intros _ _ Hne; rewrite F;
     rewrite fs_lookup_set_other; [apply fs_lookup_set_same|];
     intro E; apply (Hne eq_refl); now symmetry).
Qed.

End InstallFacts.

(** C9, as amended: the text of a rule is the source line with its leading
    and trailing blank characters, line terminator included, taken off;
    that text, not the line as it stands in the source file, is what is
    printed for the line and what a created fragment holds once the line
    has been processed (a fragment that fails validation is deleted, and a
    fragment written over the source file itself is another matter). *)
Theorem fragment_holds_the_trimmed_line
    (io_fail : fs -> op -> bool) (visudo : fs -> str -> Z)
    (sudoers_file file_prefix sudoers_d_dir : str) (remove_entries : bool)
    (line : str) (t : fs) (f : str) :
  let r := process_line io_fail visudo sudoers_file file_prefix sudoers_d_dir
                        false remove_entries line t in
  value r = Ret tt ->
  In (Creating f) (out r) ->
  ~ In (ErrorDeleting f) (out r) ->
  (remove_entries = true -> Named f <> Named sudoers_file) ->
  In (Processing (strip line)) (out r) /\
  fs_lookup (Named f) (files r) = Some (File (strip line)).
Proof.
  cbv zeta.
  destruct (rule_regex_match (strip line)) as [u|] eqn:E;
    [|rewrite process_line_unmatched by exact E; cbn; tauto].
  destruct (excluded u) eqn:X.
  { erewrite process_line_excluded by eassumption. cbn.
    intros _ [H|[H|[]]]; discriminate. }
  destruct (value (entry_exists_in_sudoers_d io_fail (strip line) sudoers_d_dir t))
    as [x|] eqn:V.
  2:{ erewrite process_line_detect_error by eassumption. discriminate. }
  destruct (nothing_found x) eqn:N.
  2:{ destruct x as [[|c g]|]; try discriminate.
      erewrite process_line_duplicate by eassumption. cbn.
      intros _ [H|[H|[]]]; discriminate. }
  erewrite process_line_new by eassumption. cbv zeta.
  set (fp := fragment_path sudoers_d_dir file_prefix u).
  unfold after. cbn [value files out].
  intros Hv Hin Hdel Hne.
  assert (f = fp) as ->.
  { destruct Hin as [H|[H|H]]; [discriminate|now injection H| ].
    apply created_in in H. cbn [app] in H.
    now rewrite install_fragment_creates_nothing in H. }
  split; [now left|].
  cbn [app] in *.
  apply install_fragment_kept; auto.
  intro H. apply Hdel. cbn. auto.
Qed.

Lemma fragment_holds_the_trimmed_line_witness :
  fs_lookup (Named (lit "/etc/sudoers.d/10_alice"))
    (files (process_line never_fails visudo_accepts (lit "/etc/sudoers")
              (lit "10") (lit "/etc/sudoers.d") false true indented_rule
              (etc indented_rule []))) =
  Some (File (lit "alice ALL=(ALL)")).
Proof.
  refine (proj2 (@fragment_holds_the_trimmed_line never_fails visudo_accepts
            (lit "/etc/sudoers") (lit "10") (lit "/etc/sudoers.d") true
            indented_rule (etc indented_rule [])
            (lit "/etc/sudoers.d/10_alice") eq_refl _ _ _)).
  - vm_compute. auto.
  - vm_compute. intros [H|[H|[H|[H|[]]]]]; discriminate.
  - intros _. vm_compute. discriminate.
Defined.

(** C9 as stated fails: the line stands in the source file with two
    leading blanks and a line terminator; the fragment created for it holds
    neither. *)
Lemma fragment_is_not_the_raw_line :
  splitlines (universal_newlines indented_rule) = [indented_rule] /\
  create_sudoers_d_files never_fails visudo_accepts (lit "/etc/sudoers")
    (lit "10") (lit "/etc/sudoers.d") false false (etc indented_rule []) =
  {| value := Ret tt;
     files := etc indented_rule
                  [(Named (lit "/etc/sudoers.d/10_alice"),
                    File (lit "alice ALL=(ALL)"))];
     out := [Processing (lit "alice ALL=(ALL)");
             Creating (lit "/etc/sudoers.d/10_alice"); Checking] |} /\
  str_eqb (lit "alice ALL=(ALL)") indented_rule = false /\
  str_eqb (lit "alice ALL=(ALL)") (lit "  alice ALL=(ALL)") = false.
Proof. repeat split; reflexivity. Qed.

(** ** An existing file at the target path (C10) *)

(** C10, as amended: the Fragment Writer does not look whether its target
    path exists. When no fragment is found to contain the rule and the
    target is an existing file, that file is opened for writing and its
    content is replaced by the rule: nothing is raised and no message
    tells it; what it held is lost, also when validation then fails and
    the file is deleted. *)
Theorem existing_fragment_is_overwritten
    (io_fail : fs -> op -> bool) (visudo : fs -> str -> Z)
    (sudoers_file file_prefix sudoers_d_dir : str)
    (line u old : str) (x : option str) (t : fs) :
  let f := fragment_path sudoers_d_dir file_prefix u in
  let t' := fs_set (Named f) (File (strip line)) t in
  let r := process_line io_fail visudo sudoers_file file_prefix sudoers_d_dir
                        false false line t in
  rule_regex_match (strip line) = Some u ->
  excluded u = false ->
  value (entry_exists_in_sudoers_d io_fail (strip line) sudoers_d_dir t) = Ret x ->
  nothing_found x = true ->
  fs_lookup (Named f) t = Some (File old) ->
  (forall t0 o, io_fail t0 o = false) ->
  value r = Ret tt /\
  out r = Processing (strip line) :: Creating f :: Checking ::
          (if (visudo t' f =? 0)%Z then [] else [ErrorDeleting f]) /\
  fs_lookup (Named f) (files r) =
  (if (visudo t' f =? 0)%Z then Some (File (strip line)) else None).
Proof.
  intros f t' r E X V N Hold Hnf. subst r.
  erewrite process_line_new by eassumption. cbv zeta. fold f.
  rewrite install_fragment_eq. cbv zeta. rewrite !Hnf, Hold. fold t'.
  unfold after.
  destruct (visudo t' f =? 0)%Z; cbn; repeat split.
  - apply fs_lookup_set_same.
  - apply fs_lookup_del_same.
Qed.

Lemma existing_fragment_is_overwritten_witness :
  fs_lookup (Named (lit "/etc/sudoers.d/10_alice"))
    (files (process_line never_fails visudo_accepts (lit "/etc/sudoers")
              (lit "10") (lit "/etc/sudoers.d") false false cat_rule
              (etc cat_rule ls_fragment))) =
  Some (File (lit "alice ALL=(ALL) /bin/cat")).
Proof.
  exact (proj2 (proj2 (@existing_fragment_is_overwritten never_fails
           visudo_accepts (lit "/etc/sudoers") (lit "10") (lit "/etc/sudoers.d")
           cat_rule (lit "alice") (lit "alice ALL=(ALL) /bin/ls") None
           (etc cat_rule ls_fragment)
           eq_refl eq_refl eq_refl eq_refl eq_refl (fun _ _ => eq_refl)))).
Defined.

(** C10 as stated fails: the target path exists before the run, with
    another rule in it; the run replaces that content with the new rule,
    returns normally and prints no error. *)
Lemma existing_fragment_is_silently_replaced :
  fs_lookup (Named (lit "/etc/sudoers.d/10_alice")) (etc cat_rule ls_fragment) =
  Some (File (lit "alice ALL=(ALL) /bin/ls")) /\
  create_sudoers_d_files never_fails visudo_accepts (lit "/etc/sudoers")
    (lit "10") (lit "/etc/sudoers.d") false false (etc cat_rule ls_fragment) =
  {| value := Ret tt;
     files := etc cat_rule
                  [(Named (lit "/etc/sudoers.d/10_alice"),
                    File (lit "alice ALL=(ALL) /bin/cat"))];
     out := [Processing (lit "alice ALL=(ALL) /bin/cat");
             Creating (lit "/etc/sudoers.d/10_alice"); Checking] |}.
Proof. split; reflexivity. Qed.
(** ** Spellings and files *)

Lemma existsb_filter {A} (f g : A -> bool) (l : list A) :
  existsb f l = false -> existsb f (filter g l) = false.
Proof.
  induction l as [|x l IH]; [reflexivity|]. simpl.
  intro H. apply orb_false_iff in H as [Hx Hl].
  destruct (g x); simpl; [rewrite Hx|]; now apply IH.
Qed.

Lemma ident_chars_no_slash (s : str) :
  forallb ident_char s = true -> existsb (Ascii.eqb slash) s = false.
Proof.
  induction s as [|c s IH]; [reflexivity|]. cbn [existsb forallb].
  intro H. apply andb_true_iff in H as [Hc Hs].
  now rewrite (ident_not_slash _ Hc), IH.
Qed.

Lemma principal_no_slash (p : str) :
  principal head_char p -> existsb (Ascii.eqb slash) p = false.
Proof.
  assert (I : forall q, identifier head_char q ->
                existsb (Ascii.eqb slash) q = false).
  { intros q (c & rest & -> & Hc & Hr). apply ident_chars_no_slash.
    simpl. now rewrite (head_is_ident _ Hc). }
  intros [H|(q & -> & H)]; [now apply I|].
  simpl. now apply I.
Qed.

Lemma temp_is_not_named (n : nat) (name : str) : Named name <> Temp n.
Proof. unfold Named. discriminate. Qed.

Lemma no_slash_head (w : str) :
  existsb (Ascii.eqb slash) w = false -> starts_with_slash w = false.
Proof.
  destruct w as [|x w]; [reflexivity|]. cbn [existsb starts_with_slash].
  intro H. apply orb_false_iff in H as [H _]. now rewrite Ascii.eqb_sym.
Qed.

Lemma squeeze_clean (w : str) :
  existsb (Ascii.eqb slash) w = false -> squeeze w = w.
Proof.
  induction w as [|x w IH]; [reflexivity|]. cbn [existsb squeeze].
  intro H. apply orb_false_iff in H as [Hx Hw].
  rewrite Ascii.eqb_sym, Hx. cbn [andb]. now rewrite IH.
Qed.

(** What follows the last slash is left as it is. *)
Lemma squeeze_app_clean (s w : str) :
  existsb (Ascii.eqb slash) w = false -> squeeze (s ++ w) = squeeze s ++ w.
Proof.
  intro Hw. induction s as [|c s IH]; [now apply squeeze_clean|].
  cbn [app squeeze]. rewrite IH.
  assert (E : starts_with_slash (s ++ w) = starts_with_slash s).
  { destruct s; [now apply no_slash_head|reflexivity]. }
  rewrite E. now destruct (Ascii.eqb c slash && starts_with_slash s).
Qed.

(** A character that is no slash cuts the spelling in two. *)
Lemma squeeze_app_cons (s w : str) (c : ascii) :
  Ascii.eqb c slash = false ->
  squeeze (s ++ c :: w) = squeeze s ++ c :: squeeze w.
Proof.
  intro Hc. induction s as [|x s IH].
  - cbn [app squeeze]. now rewrite Hc.
  - cbn [app squeeze]. rewrite IH.
    assert (E : starts_with_slash (s ++ c :: w) = starts_with_slash s).
    { destruct s; [exact Hc|reflexivity]. }
    rewrite E. now destruct (Ascii.eqb x slash && starts_with_slash s).
Qed.

(** Two slashes are one. *)
Lemma squeeze_slashes (s w : str) :
  squeeze (s ++ slash :: slash :: w) = squeeze (s ++ slash :: w).
Proof.
  induction s as [|x s IH]; [reflexivity|].
  cbn [app squeeze]. rewrite IH.
  assert (E : starts_with_slash (s ++ slash :: slash :: w) =
              starts_with_slash (s ++ slash :: w)) by now destruct s.
  now rewrite E.
Qed.

Lemma chomp_app_clean (q w : str) :
  w <> [] -> existsb (Ascii.eqb slash) w = false -> chomp (q ++ w) = q ++ w.
Proof.
  intros Hne Hw. unfold chomp. rewrite rev_app_distr.
  destruct (rev w) as [|x r] eqn:E.
  { apply (f_equal (@rev ascii)) in E. rewrite rev_involutive in E.
    now destruct Hne. }
  assert (Hx : Ascii.eqb x slash = false).
  { assert (In x w) by (apply in_rev; rewrite E; now left).
    destruct (Ascii.eqb x slash) eqn:Ex; [|reflexivity].
    apply Ascii.eqb_eq in Ex. subst x.
    assert (K : existsb (Ascii.eqb slash) w = true).
    { apply existsb_exists. exists slash. split; [assumption|].
      apply Ascii.eqb_refl. }
    congruence. }
  cbn [app]. destruct (r ++ rev q); [reflexivity|now rewrite Hx].
Qed.

Lemma resolve_app_clean (s w : str) :
  w <> [] -> existsb (Ascii.eqb slash) w = false ->
  resolve (s ++ w) = squeeze s ++ w.
Proof.
  intros Hne Hw. unfold resolve. rewrite squeeze_app_clean by exact Hw.
  now apply chomp_app_clean.
Qed.

Lemma chomp_length (s : str) : length (chomp s) <= length s.
Proof.
  unfold chomp. destruct (rev s) as [|c [|d r]] eqn:E; try lia.
  destruct (Ascii.eqb c slash); [|lia].
  rewrite length_rev. apply (f_equal (@length ascii)) in E.
  rewrite length_rev in E. cbn [length] in *. lia.
Qed.

Lemma chomp_short (s : str) : length s <= S (length (chomp s)).
Proof.
  unfold chomp. destruct (rev s) as [|c [|d r]] eqn:E; try lia.
  destruct (Ascii.eqb c slash); [|lia].
  rewrite length_rev. apply (f_equal (@length ascii)) in E.
  rewrite length_rev in E. cbn [length] in *. lia.
Qed.

(** A spelling made longer by more than slashes names another file. *)
Lemma resolve_longer (s w : str) (c : ascii) :
  Ascii.eqb c slash = false -> squeeze w <> [] ->
  Named s <> Named (s ++ c :: w).
Proof.
  intros Hc Hw H. unfold Named, resolve in H. injection H as H.
  apply (f_equal (@length ascii)) in H. revert H.
  rewrite squeeze_app_cons by exact Hc.
  pose proof (chomp_length (squeeze s)) as A.
  pose proof (chomp_short (squeeze s ++ c :: squeeze w)) as B.
  rewrite length_app in B. cbn [length] in B.
  destruct (squeeze w) as [|x r]; [contradiction|]. cbn [length] in B. lia.
Qed.

(** The name of a principal in the name of its fragment: not empty, and
    of letters, digits, underscores and hyphens. *)
Lemma principal_name (u : str) :
  principal head_char u ->
  exists c rest, replace_percent u = c :: rest /\
                 forallb ident_char (c :: rest) = true.
Proof.
  intro Hp. destruct (principal_solid head_is_ident Hp) as [_ ->].
  destruct Hp as [(c & rest & -> & Hc & Hr)|(q & -> & c & rest & -> & Hc & Hr)].
  - exists c, rest. cbn [drop_marker].
    rewrite (ident_not_percent _ (head_is_ident _ Hc)).
    split; [reflexivity|]. cbn [forallb].
    now rewrite (head_is_ident _ Hc), Hr.
  - exists c, rest. split; [reflexivity|]. cbn [forallb].
    now rewrite (head_is_ident _ Hc), Hr.
Qed.

(** The file of a fragment: the directory and the prefix as the system
    resolves them, then the name of the principal. *)
Lemma fragment_file (d prefix u : str) :
  principal head_char u ->
  Named (fragment_path d prefix u) =
  Resolved (squeeze (d ++ lit "/" ++ prefix ++ lit "_") ++ replace_percent u).
Proof.
  intro Hp. destruct (principal_name Hp) as (c & rest & En & Hn).
  unfold Named, fragment_path. f_equal.
  replace (d ++ lit "/" ++ prefix ++ lit "_" ++ replace_percent u)
    with ((d ++ lit "/" ++ prefix ++ lit "_") ++ replace_percent u)
    by now rewrite <- !app_assoc.
  apply resolve_app_clean.
  - rewrite En. discriminate.
  - rewrite En. now apply ident_chars_no_slash.
Qed.

(** In one run two fragment paths are one file only when they are spelled
    the same. *)
Lemma fragment_file_inj (d prefix u u' : str) :
  principal head_char u -> principal head_char u' ->
  Named (fragment_path d prefix u) = Named (fragment_path d prefix u') ->
  fragment_path d prefix u = fragment_path d prefix u'.
Proof.
  intros Hu Hu'. rewrite !fragment_file by assumption.
  intro H. injection H as H. apply app_inv_head in H.
  unfold fragment_path. now rewrite H.
Qed.

Lemma fs_lookup_snoc_other (p q : path) (n : node) (t : fs) :
  p <> q -> fs_lookup p (t ++ [(q, n)]) = fs_lookup p t.
Proof.
  intro H. rewrite fs_lookup_app. cbn [fs_lookup].
  rewrite (path_eqb_neq H). now destruct (fs_lookup p t).
Qed.

(** A fragment that is announced is the fragment of a principal. *)
Lemma process_line_creates
    (io_fail : fs -> op -> bool) (visudo : fs -> str -> Z)
    (sudoers_file file_prefix sudoers_d_dir : str)
    (test_mode remove_entries : bool) (line g : str) (t : fs) :
  In (Creating g)
     (out (process_line io_fail visudo sudoers_file file_prefix sudoers_d_dir
                        test_mode remove_entries line t)) ->
  exists u, principal head_char u /\
            g = fragment_path sudoers_d_dir file_prefix u.
Proof.
  destruct (rule_regex_match (strip line)) as [u|] eqn:E;
    [|rewrite process_line_unmatched by exact E; intros []].
  destruct (excluded u) eqn:X.
  { erewrite process_line_excluded by eassumption.
    intros [H|[H|[]]]; discriminate. }
  destruct (value (entry_exists_in_sudoers_d io_fail (strip line) sudoers_d_dir t))
    as [x|] eqn:V.
  2:{ erewrite process_line_detect_error by eassumption.
      intros [H|[]]; discriminate. }
  destruct (nothing_found x) eqn:N.
  2:{ destruct x as [[|c h]|]; try discriminate.
      erewrite process_line_duplicate by eassumption.
      intros [H|[H|[]]]; discriminate. }
  erewrite process_line_new by eassumption. cbv zeta.
  destruct test_mode; [intros [H|[H|[]]]; discriminate|].
  unfold after. cbn [out app].
  intros [H|[H|H]]; [discriminate| |].
  - injection H as <-. exists u. split; [|reflexivity].
    now apply rule_regex_match_stripped in E as (tl & _ & Hp & _).
  - apply created_in in H.
    now rewrite install_fragment_creates_nothing in H.
Qed.

Lemma for_each_creates
    (io_fail : fs -> op -> bool) (visudo : fs -> str -> Z)
    (sudoers_file file_prefix sudoers_d_dir : str)
    (test_mode remove_entries : bool) (g : str) (lines : list str) :
  forall t,
    In (Creating g)
       (out (for_each (process_line io_fail visudo sudoers_file file_prefix
                         sudoers_d_dir test_mode remove_entries) lines t)) ->
    exists u, principal head_char u /\
              g = fragment_path sudoers_d_dir file_prefix u.
Proof.
  induction lines as [|line lines IH]; intro t; [intros []|].
  cbn [for_each]. rewrite out_bind.
  destruct (value (process_line _ _ _ _ _ _ _ line t)).
  - intro H. apply in_app_or in H as [H|H];
      [now apply process_line_creates in H|now apply IH in H].
  - apply process_line_creates.
Qed.

(** ** Fragments that fail validation (C4) *)

Lemma deleted_last_app (f : str) (x y : list event) :
  forall b, deleted_last f b (x ++ y) = deleted_last f (deleted_last f b x) y.
Proof.
  induction x as [|e x IH]; intro b; [reflexivity|].
  destruct e; simpl; apply IH.
Qed.

Lemma deleted_last_stays (f : str) (evs : list event) :
  ~ In (Creating f) evs -> deleted_last f true evs = true.
Proof.
  induction evs as [|e evs IH]; intro H; [reflexivity|].
  assert (H' : ~ In (Creating f) evs) by (intro; apply H; now right).
  destruct e; simpl; auto.
  - destruct (str_eqb file_name f) eqn:E; auto.
    apply str_eqb_eq in E. subst. exfalso. apply H. now left.
  - destruct (str_eqb file_name f); auto.
Qed.

Lemma remove_entry_absent (io_fail : fs -> op -> bool)
    (sudoers_file entry g : str) (t : fs) :
  fs_lookup (Named g) t = None ->
  fs_lookup (Named g)
    (files (remove_entry_from_sudoers io_fail sudoers_file entry t)) = None.
Proof.
  intro H.
  destruct (remove_entry_cases io_fail sudoers_file entry t)
    as [_ [[_ [S|(content & x & Hsrc & S)]]|[_ (content & Hsrc & F)]]].
  - now rewrite S.
  - rewrite S, fs_lookup_set_other; [exact H|].
    intro E. rewrite <- E in H. congruence.
  - rewrite F, fs_lookup_set_other; [exact H|].
    intro E. rewrite <- E in H. congruence.
Qed.

Section Deletion.

Variable io_fail : fs -> op -> bool.
Variable visudo : fs -> str -> Z.
Variables sudoers_file file_prefix sudoers_d_dir : str.
Variables test_mode remove_entries : bool.

Hypothesis remove_works : forall t p, io_fail t (OpRemove p) = false.

Lemma install_deleted_last (file_name entry g : str) (t : fs) (b : bool) :
  let r := install_fragment io_fail visudo sudoers_file file_name entry
                            remove_entries t in
  (Named file_name = Named g -> file_name = g) ->
  (b = true -> file_name <> g /\ fs_lookup (Named g) t = None) ->
  deleted_last g b (out r) = true ->
  fs_lookup (Named g) (files r) = None.
Proof.
  cbv zeta. intros Hinj Hb. rewrite install_fragment_eq. cbv zeta.
  assert (Hset : forall n, b = true ->
            fs_lookup (Named g) (fs_set (Named file_name) n t) = None).
  { intros n H. destruct (Hb H) as [Hne Hno].
    rewrite fs_lookup_set_other; [exact Hno|]. intro E. now apply Hne, Hinj. }
  destruct (io_fail t _); [cbn; intro H; now apply Hb|].
  destruct (fs_lookup (Named file_name) t) as [[c|]|];
    try (cbn; intro H; now apply Hb);
    (destruct (io_fail _ (OpWriteData _ _)); [cbn; now apply Hset|];
     destruct (io_fail _ (OpRun _)); [cbn; now apply Hset|];
     destruct (negb _);
     [rewrite remove_works; cbn [out files deleted_last];
      destruct (str_eqb file_name g) eqn:S;
      [apply str_eqb_eq in S; subst g; intros _; apply fs_lookup_del_same
      |intro H; destruct (Hb H) as [Hne Hno];
       rewrite fs_lookup_del_other by (intro E; now apply Hne, Hinj);
       now apply Hset]
     |];
     destruct remove_entries; [|cbn; now apply Hset];
     unfold after; cbn [out files app deleted_last];
     destruct (remove_entry_cases io_fail sudoers_file entry
                 (fs_set (Named file_name) (File entry) t)) as [O _];
     rewrite O; cbn [deleted_last];
     intro H; apply remove_entry_absent; now apply Hset).
Qed.

Local Abbreviation process :=
  (process_line io_fail visudo sudoers_file file_prefix sudoers_d_dir
                test_mode remove_entries).

Lemma process_line_deleted_last (line u0 : str) (t : fs) (b : bool) :
  let g := fragment_path sudoers_d_dir file_prefix u0 in
  principal head_char u0 ->
  (b = true -> fs_lookup (Named g) t = None) ->
  deleted_last g b (out (process line t)) = true ->
  fs_lookup (Named g) (files (process line t)) = None.
Proof.
  cbv zeta. intros Hu0 Hb.
  destruct (rule_regex_match (strip line)) as [u|] eqn:E;
    [|rewrite process_line_unmatched by exact E; exact Hb].
  destruct (excluded u) eqn:X.
  { erewrite process_line_excluded by eassumption. exact Hb. }
  destruct (value (entry_exists_in_sudoers_d io_fail (strip line) sudoers_d_dir t))
    as [x|] eqn:V.
  2:{ erewrite process_line_detect_error by eassumption. exact Hb. }
  destruct (nothing_found x) eqn:N.
  2:{ destruct x as [[|c f]|]; try discriminate.
      erewrite process_line_duplicate by eassumption. exact Hb. }
  erewrite process_line_new by eassumption. cbv zeta.
  destruct test_mode; [exact Hb|].
  unfold after. cbn [out files app deleted_last].
  apply install_deleted_last.
  - apply fragment_file_inj; [|exact Hu0].
    now apply rule_regex_match_stripped in E as (tl & _ & Hp & _).
  - destruct (str_eqb (fragment_path sudoers_d_dir file_prefix u)
                (fragment_path sudoers_d_dir file_prefix u0)) eqn:S;
      [discriminate|].
    intro H. split; [|now apply Hb].
    intro E'. rewrite E', str_eqb_refl in S. discriminate.
Qed.

Lemma for_each_deleted_last (u0 : str) (lines : list str) :
  principal head_char u0 ->
  forall (t : fs) (b : bool),
    let g := fragment_path sudoers_d_dir file_prefix u0 in
    (b = true -> fs_lookup (Named g) t = None) ->
    deleted_last g b (out (for_each process lines t)) = true ->
    fs_lookup (Named g) (files (for_each process lines t)) = None.
Proof.
  intro Hu0. cbv zeta.
  induction lines as [|line lines IH]; intros t b Hb; [exact Hb|].
  cbn [for_each]. rewrite out_bind, files_bind.
  destruct (value (process line t)).
  - rewrite deleted_last_app. apply IH.
    now apply process_line_deleted_last.
  - now apply process_line_deleted_last.
Qed.

(** The verdict of the validator decides: when the validator is run on
    the fragment just written and reports failure, the fragment is deleted
    and the line ends. *)
Lemma process_line_rejected (line u : str) (t : fs) :
  let f := fragment_path sudoers_d_dir file_prefix u in
  let t' := fs_set (Named f) (File (strip line)) t in
  rule_regex_match (strip line) = Some u ->
  In Checking (out (process line t)) ->
  io_fail t' (OpRun f) = false ->
  visudo t' f <> 0%Z ->
  process line t =
  {| value := Ret tt; files := fs_del (Named f) t';
     out := [Processing (strip line); Creating f; Checking; ErrorDeleting f] |}.
Proof.
  cbv zeta. intros E.
  destruct (excluded u) eqn:X.
  { erewrite process_line_excluded by eassumption.
    intros [H|[H|[]]]; discriminate. }
  destruct (value (entry_exists_in_sudoers_d io_fail (strip line) sudoers_d_dir t))
    as [x|] eqn:V.
  2:{ erewrite process_line_detect_error by eassumption.
      intros [H|[]]; discriminate. }
  destruct (nothing_found x) eqn:N.
  2:{ destruct x as [[|c g]|]; try discriminate.
      erewrite process_line_duplicate by eassumption.
      intros [H|[H|[]]]; discriminate. }
  erewrite process_line_new by eassumption. cbv zeta.
  destruct test_mode; [intros [H|[H|[]]]; discriminate|].
  rewrite install_fragment_eq. cbv zeta. unfold after.
  destruct (io_fail t _); [intros [H|[H|[]]]; discriminate|].
  destruct (fs_lookup _ t) as [[c|]|];
    try (intros [H|[H|[]]]; discriminate);
    (destruct (io_fail _ (OpWriteData _ _));
     [intros [H|[H|[]]]; discriminate|];
     intros _ Hrun Hbad; rewrite Hrun;
     apply Z.eqb_neq in Hbad; rewrite Hbad; cbn [negb];
     rewrite remove_works; reflexivity).
Qed.

(** The deletion has no other cause: the message of a deletion names the
    fragment of the line, the validator had reported failure for it, and
    the fragment is gone when the line ends. *)
Lemma process_line_deletion (line u g : str) (t : fs) :
  let f := fragment_path sudoers_d_dir file_prefix u in
  let t' := fs_set (Named f) (File (strip line)) t in
  rule_regex_match (strip line) = Some u ->
  In (ErrorDeleting g) (out (process line t)) ->
  g = f /\ visudo t' f <> 0%Z /\
  fs_lookup (Named g) (files (process line t)) = None.
Proof.
  cbv zeta. intros E.
  destruct (excluded u) eqn:X.
  { erewrite process_line_excluded by eassumption.
    intros [H|[H|[]]]; discriminate. }
  destruct (value (entry_exists_in_sudoers_d io_fail (strip line) sudoers_d_dir t))
    as [x|] eqn:V.
  2:{ erewrite process_line_detect_error by eassumption.
      intros [H|[]]; discriminate. }
  destruct (nothing_found x) eqn:N.
  2:{ destruct x as [[|c h]|]; try discriminate.
      erewrite process_line_duplicate by eassumption.
      intros [H|[H|[]]]; discriminate. }
  erewrite process_line_new by eassumption. cbv zeta.
  destruct test_mode; [intros [H|[H|[]]]; discriminate|].
  rewrite install_fragment_eq. cbv zeta. unfold after. cbn [out app].
  intros [H|[H|H]]; try discriminate. revert H.
  destruct (io_fail t _); [intros []|].
  destruct (fs_lookup _ t) as [[c|]|]; try (intros []);
    (destruct (io_fail _ (OpWriteData _ _)); [intros []|];
     destruct (io_fail _ (OpRun _)); [intros [H|[]]; discriminate|];
     destruct (negb _) eqn:B;
     [rewrite remove_works; cbn [out];
      intros [H|[H|[]]]; [discriminate|];
      injection H as <-; split; [reflexivity|];
      split; [apply negb_true_iff in B; now apply Z.eqb_neq in B
             |apply fs_lookup_del_same]
     |];
     destruct remove_entries; [|intros [H|[]]; discriminate];
     cbn [out app];
     destruct (remove_entry_cases io_fail sudoers_file (strip line)
                 (fs_set (Named (fragment_path sudoers_d_dir file_prefix u))
                         (File (strip line)) t)) as [O _];
     rewrite O; intros [H|[H|[]]]; discriminate).
Qed.

(** A deletion names the fragment of a principal. *)
Lemma for_each_deletion_names (g : str) (lines : list str) :
  forall t,
    In (ErrorDeleting g) (out (for_each process lines t)) ->
    exists u, principal head_char u /\
              g = fragment_path sudoers_d_dir file_prefix u.
Proof.
  induction lines as [|line lines IH]; intro t; [intros []|].
  cbn [for_each]. rewrite out_bind.
  assert (P : In (ErrorDeleting g) (out (process line t)) ->
              exists u, principal head_char u /\
                        g = fragment_path sudoers_d_dir file_prefix u).
  { destruct (rule_regex_match (strip line)) as [u|] eqn:E;
      [|rewrite process_line_unmatched by exact E; intros []].
    intro H. destruct (process_line_deletion line g t E H) as [-> _].
    exists u. split; [|reflexivity].
    now apply rule_regex_match_stripped in E as (tl & _ & Hp & _). }
  destruct (value (process line t)); [|exact P].
  intro H. apply in_app_or in H as [H|H]; [now apply P|now apply (IH _ H)].
Qed.

End Deletion.

(** C4, as amended: provided the deletion itself does not fail, a fragment
    for which the validator reports failure is deleted at once. When the
    validator is run on the fragment a line has just written and returns a
    nonzero status, the line ends with the fragment deleted and nothing
    else changed, and the deletion is announced; a deletion is announced
    for no other reason. After the whole run the path does not exist
    either, unless a later line of the run created a fragment at the same
    path again. *)
Theorem failed_fragment_is_deleted
    (io_fail : fs -> op -> bool) (visudo : fs -> str -> Z)
    (sudoers_file file_prefix sudoers_d_dir : str)
    (test_mode remove_entries : bool) :
  (forall t p, io_fail t (OpRemove p) = false) ->
  (forall line u t,
      let f := fragment_path sudoers_d_dir file_prefix u in
      let t' := fs_set (Named f) (File (strip line)) t in
      let r := process_line io_fail visudo sudoers_file file_prefix
                            sudoers_d_dir test_mode remove_entries line t in
      rule_regex_match (strip line) = Some u ->
      (In Checking (out r) -> io_fail t' (OpRun f) = false ->
       visudo t' f <> 0%Z ->
       r = {| value := Ret tt; files := fs_del (Named f) t';
              out := [Processing (strip line); Creating f; Checking;
                      ErrorDeleting f] |} /\
       fs_lookup (Named f) (files r) = None) /\
      (forall g, In (ErrorDeleting g) (out r) ->
                 g = f /\ visudo t' f <> 0%Z /\
                 fs_lookup (Named g) (files r) = None)) /\
  (forall t f before later,
      let r := create_sudoers_d_files io_fail visudo sudoers_file file_prefix
                                      sudoers_d_dir test_mode remove_entries t in
      out r = before ++ ErrorDeleting f :: later ->
      ~ In (Creating f) later ->
      fs_lookup (Named f) (files r) = None).
Proof.
  intro Hrm. split.
  - intros line u t. cbv zeta. intro E. split.
    + intros Hc Hrun Hbad.
      rewrite (@process_line_rejected io_fail visudo sudoers_file file_prefix
                 sudoers_d_dir test_mode remove_entries Hrm line u t
                 E Hc Hrun Hbad).
      split; [reflexivity|]. cbn [files]. apply fs_lookup_del_same.
    + intros g Hg.
      now apply (@process_line_deletion io_fail visudo sudoers_file file_prefix
                   sudoers_d_dir test_mode remove_entries Hrm line u g t).
  - intros t f before later. cbv zeta. intros Hout Hlater.
    assert (D : deleted_last f false
                  (out (create_sudoers_d_files io_fail visudo sudoers_file
                          file_prefix sudoers_d_dir test_mode remove_entries t))
                = true).
    { rewrite Hout, deleted_last_app. cbn. rewrite str_eqb_refl.
      now apply deleted_last_stays. }
    assert (I : In (ErrorDeleting f)
                  (out (create_sudoers_d_files io_fail visudo sudoers_file
                          file_prefix sudoers_d_dir test_mode remove_entries t))).
    { rewrite Hout. apply in_or_app. right. now left. }
    clear Hout. revert D I. rewrite create_sudoers_d_files_unfold.
    destruct (value (open_read io_fail (Named sudoers_file) t)) as [s|];
      [|discriminate].
    cbv zeta. cbn [out files]. rewrite deleted_last_app. intros D I.
    assert (J : In (ErrorDeleting f)
                  (out (for_each
                          (process_line io_fail visudo sudoers_file file_prefix
                             sudoers_d_dir test_mode remove_entries)
                          (splitlines s) t))).
    { apply in_app_or in I as [I|I]; [exact I|].
      destruct (value (for_each _ _ t)); [destruct I|].
      destruct I as [I|[]]. discriminate. }
    destruct (@for_each_deletion_names io_fail visudo sudoers_file file_prefix
                sudoers_d_dir test_mode remove_entries Hrm f (splitlines s) t J)
      as (u0 & Hu0 & ->).
    apply (@for_each_deleted_last io_fail visudo sudoers_file file_prefix
             sudoers_d_dir test_mode remove_entries Hrm u0 (splitlines s) Hu0 t
             false); [discriminate|].
    now destruct (value (for_each _ _ t)).
Qed.

Lemma failed_fragment_is_deleted_witness :
  process_line never_fails visudo_rejects_bad (lit "/etc/sudoers") (lit "10")
    (lit "/etc/sudoers.d") false true bad_rule (etc bad_rule []) =
  {| value := Ret tt; files := etc bad_rule [];
     out := [Processing (lit "alice ALL=(ALL) bad");
             Creating (lit "/etc/sudoers.d/10_alice"); Checking;
             ErrorDeleting (lit "/etc/sudoers.d/10_alice")] |} /\
  fs_lookup (Named (lit "/etc/sudoers.d/10_alice"))
    (files (process_line never_fails visudo_rejects_bad (lit "/etc/sudoers")
              (lit "10") (lit "/etc/sudoers.d") false true bad_rule
              (etc bad_rule []))) = None.
Proof.
  refine (proj1 (proj1 (@failed_fragment_is_deleted never_fails
            visudo_rejects_bad (lit "/etc/sudoers") (lit "10")
            (lit "/etc/sudoers.d") false true (fun _ _ => eq_refl))
          bad_rule (lit "alice") (etc bad_rule []) eq_refl) _ eq_refl _).
  - vm_compute. auto.
  - vm_compute. discriminate.
Defined.

(** C4 as stated fails: the fragment of the first rule fails validation
    and is deleted; the second rule, for the same principal, creates the
    same path again and passes, so the path exists when the run ends. *)
Lemma deleted_path_exists_again :
  create_sudoers_d_files never_fails visudo_rejects_bad (lit "/etc/sudoers")
    (lit "10") (lit "/etc/sudoers.d") false false (etc bad_then_good []) =
  {| value := Ret tt;
     files := etc bad_then_good
                  [(Named (lit "/etc/sudoers.d/10_alice"),
                    File (lit "alice ALL=(ALL) ALL"))];
     out := [Processing (lit "alice ALL=(ALL) bad");
             Creating (lit "/etc/sudoers.d/10_alice"); Checking;
             ErrorDeleting (lit "/etc/sudoers.d/10_alice");
             Processing (lit "alice ALL=(ALL) ALL");
             Creating (lit "/etc/sudoers.d/10_alice"); Checking] |} /\
  visudo_rejects_bad
    [(Named (lit "/etc/sudoers.d/10_alice"), File (lit "alice ALL=(ALL) bad"))]
    (lit "/etc/sudoers.d/10_alice") = 1%Z.
Proof. split; reflexivity. Qed.

(** ** Text read back from a file *)

Lemma universal_newlines_facts (n : nat) :
  forall s, length s <= n ->
    ~ In carriage_return (universal_newlines s) /\
    (forall c, In c (universal_newlines s) -> c = newline \/ In c s) /\
    (~ In carriage_return s -> universal_newlines s = s).
Proof.
  induction n as [|n IH]; intros s Hlen.
  - destruct s; [|simpl in Hlen; lia]. simpl. repeat split; auto.
  - destruct s as [|c s]; [simpl; repeat split; auto|].
    simpl in Hlen. cbn [universal_newlines].
    destruct (Ascii.eqb c carriage_return) eqn:Ec.
    + apply Ascii.eqb_eq in Ec. subst c.
      destruct s as [|d s].
      * repeat split.
        -- intros [H|[]]. discriminate.
        -- intros c [<-|[]]. now left.
        -- intro H. exfalso. apply H. now left.
      * simpl in Hlen.
        assert (H1 : length s <= n) by lia.
        assert (H2 : length (d :: s) <= n) by (simpl; lia).
        destruct (IH _ H1) as (A1 & B1 & _).
        destruct (IH _ H2) as (A2 & B2 & _).
        destruct (Ascii.eqb d newline); repeat split.
        -- intros [H|H]; [discriminate|now apply A1].
        -- intros c [<-|H]; [now left|].
           destruct (B1 _ H); [now left|right; right; now right].
        -- intro H. exfalso. apply H. now left.
        -- intros [H|H]; [discriminate|now apply A2].
        -- intros c [<-|H]; [now left|].
           destruct (B2 _ H); [now left|right; now right].
        -- intro H. exfalso. apply H. now left.
    + assert (H1 : length s <= n) by lia.
      destruct (IH _ H1) as (A & B & C). repeat split.
      * intros [H|H]; [|now apply A].
        subst c. now rewrite Ascii.eqb_refl in Ec.
      * intros x [<-|H]; [right; now left|].
        destruct (B _ H); [now left|right; now right].
      * intro H. rewrite C; [reflexivity|]. intro; apply H; now right.
Qed.

Lemma universal_newlines_no_cr (s : str) :
  ~ In carriage_return (universal_newlines s).
Proof. exact (proj1 (universal_newlines_facts s (le_n (length s)))). Qed.

Lemma universal_newlines_in (s : str) (c : ascii) :
  In c (universal_newlines s) -> c = newline \/ In c s.
Proof. exact (proj1 (proj2 (universal_newlines_facts s (le_n (length s)))) c). Qed.

Lemma universal_newlines_id (s : str) :
  ~ In carriage_return s -> universal_newlines s = s.
Proof. exact (proj2 (proj2 (universal_newlines_facts s (le_n (length s))))). Qed.

Lemma splitlines_in (s l : str) (c : ascii) :
  In l (splitlines s) -> In c l -> In c s.
Proof.
  revert l. induction s as [|x s IH]; intros l Hl Hc; [destruct Hl|].
  cbn [splitlines] in Hl.
  destruct (Ascii.eqb x newline).
  - destruct Hl as [<-|Hl].
    + destruct Hc as [<-|[]]. now left.
    + right. now apply IH with l.
  - destruct (splitlines s) as [|l0 ls].
    + destruct Hl as [<-|[]]. destruct Hc as [<-|[]]. now left.
    + destruct Hl as [<-|Hl].
      * destruct Hc as [<-|Hc]; [now left|right].
        apply IH with l0; [now left|exact Hc].
      * right. apply IH with l; [now right|exact Hc].
Qed.

Lemma strip_comments_id (s : str) : ~ In hash s -> strip_comments s = s.
Proof.
  unfold strip_comments. induction s as [|c s IH]; intro H; [reflexivity|].
  cbn [strip_comments_from].
  assert (Hs : ~ In hash s) by (intro; apply H; now right).
  destruct (Ascii.eqb c newline); [now rewrite IH|].
  destruct (Ascii.eqb c hash) eqn:E; [|now rewrite IH].
  apply Ascii.eqb_eq in E. subst c. exfalso. apply H. now left.
Qed.

Lemma prefixb_refl (a b : str) : prefixb a (a ++ b) = true.
Proof.
  induction a as [|x a IH]; [reflexivity|].
  simpl. now rewrite Ascii.eqb_refl.
Qed.

Lemma infixb_refl (a : str) : infixb a a = true.
Proof.
  destruct a as [|x a]; [reflexivity|].
  cbn [infixb]. rewrite <- (app_nil_r (x :: a)) at 2.
  now rewrite prefixb_refl.
Qed.

(** A rule without comment, read back from the fragment that holds it, is
    found in it. *)
Lemma rule_found_in_own_fragment (entry : str) :
  ~ In hash entry -> ~ In carriage_return entry ->
  infixb (normalize entry)
         (normalize (strip_comments (universal_newlines entry))) = true.
Proof.
  intros Hh Hc. rewrite universal_newlines_id by exact Hc.
  rewrite strip_comments_id by exact Hh. apply infixb_refl.
Qed.

(** ** The Duplicate Detector on a growing directory *)

Section Detector.

Variable io_fail : fs -> op -> bool.
Hypothesis no_fault : forall t o, io_fail t o = false.
Variable d : str.

Lemma scan_files_cons (ne n : str) (rest : list str) (t : fs) :
  value (scan_files io_fail ne d (n :: rest) t) =
  match fs_lookup (Named (path_join d n)) t with
  | Some (File c) =>
      if infixb ne (normalize (strip_comments (universal_newlines c)))
      then Ret (Some n)
      else value (scan_files io_fail ne d rest t)
  | _ => IOError
  end.
Proof.
  cbn [scan_files]. rewrite value_bind, open_read_eq, no_fault.
  cbn [value files].
  destruct (fs_lookup (Named (path_join d n)) t) as [[c|]|]; try reflexivity.
  now destruct (infixb _ _).
Qed.

Lemma scan_files_hit_in (ne : str) (names : list str) (t : fs) (n : str) :
  value (scan_files io_fail ne d names t) = Ret (Some n) -> In n names.
Proof.
  induction names as [|m names IH]; [discriminate|].
  rewrite scan_files_cons.
  destruct (fs_lookup _ t) as [[c|]|]; try discriminate.
  destruct (infixb _ _).
  - intro H. injection H as ->. now left.
  - intro H. right. now apply IH.
Qed.

Lemma scan_files_prefix_hit (ne : str) (names more : list str)
    (t added : fs) (n : str) :
  value (scan_files io_fail ne d names t) = Ret (Some n) ->
  value (scan_files io_fail ne d (names ++ more) (t ++ added)) = Ret (Some n).
Proof.
  induction names as [|m names IH]; [discriminate|].
  cbn [app]. rewrite !scan_files_cons, fs_lookup_app.
  destruct (fs_lookup _ t) as [[c|]|]; try discriminate.
  destruct (infixb _ _); [auto|exact IH].
Qed.

Lemma scan_files_prefix_miss (ne : str) (names more : list str) (t added : fs) :
  value (scan_files io_fail ne d names t) = Ret None ->
  value (scan_files io_fail ne d (names ++ more) (t ++ added)) =
  value (scan_files io_fail ne d more (t ++ added)).
Proof.
  induction names as [|m names IH]; [reflexivity|].
  cbn [app]. rewrite !scan_files_cons, fs_lookup_app.
  destruct (fs_lookup _ t) as [[c|]|]; try discriminate.
  destruct (infixb _ _); [discriminate|exact IH].
Qed.

Lemma entry_exists_value (entry : str) (t : fs) :
  value (entry_exists_in_sudoers_d io_fail entry d t) =
  match fs_lookup (Named d) t with
  | Some Directory =>
      value (scan_files io_fail (normalize entry) d (dir_entries d t) t)
  | _ => IOError
  end.
Proof.
  unfold entry_exists_in_sudoers_d.
  rewrite value_bind, os_listdir_eq, no_fault. cbn [value files].
  now destruct (fs_lookup (Named d) t) as [[c|]|].
Qed.

Lemma dir_entries_nonempty (t : fs) (n : str) :
  In n (dir_entries d t) -> n <> [].
Proof.
  induction t as [|[p k] t IH]; [intros []|].
  cbn [dir_entries]. destruct (child_name d p) as [m|] eqn:E; [|exact IH].
  intros [<-|H]; [|now apply IH].
  destruct p as [s|]; [|discriminate]. unfold child_name in E.
  destruct (take_lit (squeeze (d ++ [slash])) s) as [[|c m']|]; try discriminate.
  destruct (existsb _ _); [discriminate|]. injection E as <-. discriminate.
Qed.

(** A fragment found stays found when files are added to the system. *)
Lemma found_mono (t added : fs) (entry : str) :
  found io_fail d t entry -> found io_fail d (t ++ added) entry.
Proof.
  intros (c & f & H). exists c, f. revert H.
  rewrite !entry_exists_value, fs_lookup_app, dir_entries_app.
  destruct (fs_lookup (Named d) t) as [[k|]|]; try discriminate.
  apply scan_files_prefix_hit.
Qed.

(** A rule not found is found once a file under the directory holds it. *)
Lemma found_new (t : fs) (entry n : str) (x : option str) :
  value (entry_exists_in_sudoers_d io_fail entry d t) = Ret x ->
  nothing_found x = true ->
  fs_lookup (Named (path_join d n)) t = None ->
  child_name d (Named (path_join d n)) = Some n ->
  infixb (normalize entry)
         (normalize (strip_comments (universal_newlines entry))) = true ->
  found io_fail d (t ++ [(Named (path_join d n), File entry)]) entry.
Proof.
  intros V N Hfresh Hchild Hmatch. unfold found.
  rewrite entry_exists_value in V |- *.
  rewrite fs_lookup_app, dir_entries_app.
  destruct (fs_lookup (Named d) t) as [[k|]|]; try discriminate.
  assert (x = None) as ->.
  { destruct x as [[|c f]|]; try discriminate; [|reflexivity].
    apply scan_files_hit_in, dir_entries_nonempty in V. contradiction. }
  rewrite scan_files_prefix_miss by exact V.
  cbn [dir_entries]. rewrite Hchild, scan_files_cons.
  rewrite fs_lookup_last by exact Hfresh. rewrite Hmatch.
  assert (Hn : n <> []).
  { apply dir_entries_nonempty with (t := [(Named (path_join d n), File entry)]).
    cbn [dir_entries]. rewrite Hchild. now left. }
  destruct n as [|c f]; [contradiction|]. now exists c, f.
Qed.

End Detector.

(** ** The path of a fragment inside the fragment directory *)

(** The file a fragment is written to is the file the detector reads for
    the entry of that name, however the directory is spelled. *)
Lemma fragment_path_child (line u d prefix : str) :
  rule_regex_match (strip line) = Some u ->
  d <> [] ->
  existsb (Ascii.eqb slash) prefix = false ->
  let n := prefix ++ lit "_" ++ replace_percent u in
  Named (fragment_path d prefix u) = Named (path_join d n) /\
  child_name d (Named (path_join d n)) = Some n.
Proof.
  intros E Hd Hprefix n.
  apply rule_regex_match_stripped in E as (tl & _ & Hp & _).
  assert (Hn : existsb (Ascii.eqb slash) n = false).
  { unfold n. rewrite !existsb_app, Hprefix. simpl.
    apply existsb_filter. now apply principal_no_slash. }
  assert (Hne : exists c m, n = c :: m).
  { unfold n. destruct prefix as [|c m]; simpl; eauto. }
  destruct Hne as (c & m & En).
  assert (Hnn : n <> []) by (rewrite En; discriminate).
  assert (Hf : resolve (fragment_path d prefix u) = squeeze (d ++ [slash]) ++ n).
  { unfold fragment_path. fold n.
    change (d ++ lit "/" ++ n) with (d ++ [slash] ++ n).
    rewrite app_assoc. now apply resolve_app_clean. }
  assert (Hj : resolve (path_join d n) = squeeze (d ++ [slash]) ++ n).
  { unfold path_join. rewrite (no_slash_head _ Hn).
    destruct d as [|x d]; [contradiction|].
    destruct (starts_with_slash (rev (x :: d))) eqn:Hend.
    - rewrite resolve_app_clean by assumption. f_equal.
      destruct (rev (x :: d)) as [|y r] eqn:R; [discriminate|].
      cbn [starts_with_slash] in Hend. apply Ascii.eqb_eq in Hend. subst y.
      apply (f_equal (@rev ascii)) in R. rewrite rev_involutive in R.
      rewrite R. cbn [rev]. rewrite <- app_assoc. cbn [app].
      symmetry. apply squeeze_slashes.
    - rewrite app_assoc. now apply resolve_app_clean. }
  unfold Named. rewrite Hf, Hj. split; [reflexivity|].
  unfold child_name. rewrite take_lit_app.
  rewrite En in Hn |- *. now rewrite Hn.
Qed.

(** ** Two runs in a row (C5) *)

Section TwoRuns.

Variable io_fail : fs -> op -> bool.
Variable visudo : fs -> str -> Z.
Variables sudoers_file file_prefix sudoers_d_dir : str.

Hypothesis no_fault : forall t o, io_fail t o = false.
Hypothesis accepted : forall t f, visudo t f = 0%Z.
Hypothesis dir_named : sudoers_d_dir <> [].
Hypothesis prefix_no_slash : existsb (Ascii.eqb slash) file_prefix = false.

Local Abbreviation process :=
  (process_line io_fail visudo sudoers_file file_prefix sudoers_d_dir
                false false).
Local Abbreviation known t entry := (found io_fail sudoers_d_dir t entry).

Lemma process_line_first (line : str) (t : fs) :
  plain line ->
  value (process line t) = Ret tt ->
  (files (process line t) = t /\ created (out (process line t)) = [] /\
   (candidate line -> known t (strip line))) \/
  (exists f,
      created (out (process line t)) = [f] /\
      (fs_lookup (Named f) t = None ->
       files (process line t) = t ++ [(Named f, File (strip line))] /\
       known (files (process line t)) (strip line))).
Proof.
  intros [Hh Hc].
  destruct (rule_regex_match (strip line)) as [u|] eqn:E.
  2:{ rewrite process_line_unmatched by exact E. intros _. left.
      repeat split. intros (u & E' & _). congruence. }
  destruct (excluded u) eqn:X.
  { erewrite process_line_excluded by eassumption. intros _. left.
    repeat split. intros (u' & E' & X'). congruence. }
  destruct (value (entry_exists_in_sudoers_d io_fail (strip line) sudoers_d_dir t))
    as [x|] eqn:V.
  2:{ erewrite process_line_detect_error by eassumption. discriminate. }
  destruct (nothing_found x) eqn:N.
  2:{ destruct x as [[|c f]|]; try discriminate.
      erewrite process_line_duplicate by eassumption. intros _. left.
      repeat split. intros _. now exists c, f. }
  erewrite process_line_new by eassumption. cbv zeta.
  rewrite install_fragment_eq. cbv zeta. rewrite !no_fault, accepted.
  unfold after.
  set (f := fragment_path sudoers_d_dir file_prefix u).
  assert (R : forall k, fs_lookup (Named f) t = k -> k <> Some Directory ->
            value {| value := Ret tt;
                     files := fs_set (Named f) (File (strip line)) t;
                     out := [Checking] |} = Ret tt ->
            exists g,
              created ([Processing (strip line); Creating f] ++ [Checking]) = [g] /\
              (fs_lookup (Named g) t = None ->
               fs_set (Named f) (File (strip line)) t =
               t ++ [(Named g, File (strip line))] /\
               known (fs_set (Named f) (File (strip line)) t) (strip line))).
  { intros k _ _ _. exists f. split; [reflexivity|]. intro Hfresh.
    rewrite fs_set_absent by exact Hfresh. split; [reflexivity|].
    destruct (fragment_path_child line file_prefix E dir_named
                prefix_no_slash) as [Ef Hchild].
    fold f in Ef. rewrite Ef in Hfresh |- *.
    eapply found_new; eauto.
    apply rule_found_in_own_fragment.
    - intro H. apply Hh; [now exists u|now apply strip_incl].
    - intro H. apply Hc. now apply strip_incl. }
  destruct (fs_lookup (Named f) t) as [[c|]|] eqn:L;
    cbn [value files out]; try discriminate; intro Hv; right;
    eapply R; eauto; discriminate.
Qed.

Lemma first_run_invariant (lines : list str) :
  forall t,
    (forall l, In l lines -> plain l) ->
    value (for_each process lines t) = Ret tt ->
    NoDup (created (out (for_each process lines t))) ->
    (forall f, In f (created (out (for_each process lines t))) ->
               fs_lookup (Named f) t = None) ->
    (exists added, files (for_each process lines t) = t ++ added) /\
    (forall l, In l lines -> candidate l ->
               known (files (for_each process lines t)) (strip l)).
Proof.
  induction lines as [|line lines IH]; intros t Hplain.
  - intros _ _ _. split; [exists []; cbn; now rewrite app_nil_r|intros l []].
  - cbn [for_each]. rewrite value_bind, out_bind, files_bind.
    destruct (value (process line t)) as [[]|] eqn:V; [|discriminate].
    rewrite created_app. intros V2 Hnd Hfresh.
    assert (Hp : forall l, In l lines -> plain l)
      by (intros; apply Hplain; now right).
    destruct (@process_line_first line t (Hplain line (or_introl eq_refl)) V)
      as [(F & C & K)|(f & C & K)].
    + rewrite F, C in *. cbn [app] in *.
      destruct (IH t Hp V2 Hnd Hfresh) as [[added Ea] Hk].
      split; [now exists added|].
      intros l [<-|Hl] Hcand; [|now apply Hk].
      rewrite Ea. apply found_mono; auto.
    + rewrite C in *. cbn [app] in *.
      apply NoDup_cons_iff in Hnd as [Hnotin Hnd].
      destruct (K (Hfresh f (or_introl eq_refl))) as [F Kf].
      assert (Hfresh' : forall g, In g (created (out (for_each process lines
                            (files (process line t))))) ->
                        fs_lookup (Named g) (files (process line t)) = None).
      { intros g Hg. rewrite F.
        rewrite fs_lookup_snoc_other; [exact (Hfresh g (or_intror Hg))|].
        assert (Cf : In (Creating f) (out (process line t))).
        { apply created_in. rewrite C. now left. }
        apply process_line_creates in Cf as (uf & Huf & Ef).
        pose proof Hg as Hg'.
        apply created_in, for_each_creates in Hg' as (ug & Hug & Eg).
        intro Q. apply Hnotin. replace f with g; [exact Hg|].
        rewrite Eg, Ef in Q |- *. now apply fragment_file_inj. }
      destruct (IH _ Hp V2 Hnd Hfresh') as [[added Ea] Hk].
      split.
      * exists ([(Named f, File (strip line))] ++ added).
        now rewrite Ea, F, <- app_assoc.
      * intros l [<-|Hl] Hcand; [|now apply Hk].
        rewrite Ea. apply found_mono; auto.
Qed.

Lemma second_run_skips (lines : list str) (t : fs) :
  (forall l, In l lines -> candidate l -> known t (strip l)) ->
  value (for_each process lines t) = Ret tt /\
  files (for_each process lines t) = t /\
  forallb skipped (out (for_each process lines t)) = true /\
  (forall l u, In l lines -> rule_regex_match (strip l) = Some u ->
               excluded u = false ->
               exists f, In (AlreadyExists u f) (out (for_each process lines t))).
Proof.
  induction lines as [|line lines IH]; intro Hk.
  - repeat split. intros l u [].
  - destruct IH as (V & F & S & A); [intros; apply Hk; auto; now right|].
    cbn [for_each]. rewrite value_bind, out_bind, files_bind.
    assert (P : value (process line t) = Ret tt /\
                files (process line t) = t /\
                forallb skipped (out (process line t)) = true /\
                (forall u, rule_regex_match (strip line) = Some u ->
                           excluded u = false ->
                           exists f, In (AlreadyExists u f) (out (process line t)))).
    { destruct (rule_regex_match (strip line)) as [u|] eqn:E.
      2:{ rewrite process_line_unmatched by exact E. repeat split. discriminate. }
      destruct (excluded u) eqn:X.
      { erewrite process_line_excluded by eassumption. repeat split.
        intros u' Eu X'. injection Eu as <-. congruence. }
      destruct (Hk line (or_introl eq_refl)) as (c & f & Hv); [now exists u|].
      erewrite process_line_duplicate by eassumption. repeat split.
      intros u' Eu _. injection Eu as <-. exists (c :: f). cbn. auto. }
    destruct P as (Vp & Fp & Sp & Ap). rewrite Vp, Fp.
    repeat split; auto.
    + now rewrite forallb_app, Sp, S.
    + intros l u [<-|Hl] E X.
      * destruct (Ap u E X) as [f Hf]. exists f. apply in_or_app. now left.
      * destruct (A l u Hl E X) as [f Hf]. exists f. apply in_or_app. now right.
Qed.

End TwoRuns.

Lemma skipped_created (evs : list event) :
  forallb skipped evs = true -> created evs = [].
Proof.
  induction evs as [|[] evs IH]; simpl; intro H; try discriminate; auto.
Qed.

(** C5, as amended: with test mode off and removal disabled, on a system
    where no operation fails and the validator accepts every fragment,
    with a fragment directory of any spelling but the empty one and a prefix
    without slash, for a source file whose rules carry no [#]: if the first
    run ends without I/O error and creates every fragment at a path of its
    own that did not exist before (so that no file is overwritten), then
    the second run changes no file and creates no fragment; it classifies
    every rule of an account that is not excluded as a duplicate, and
    skips the rules of the excluded accounts. *)
Theorem second_run_creates_nothing
    (io_fail : fs -> op -> bool) (visudo : fs -> str -> Z)
    (sudoers_file file_prefix sudoers_d_dir : str) (t : fs) (content : str) :
  (forall t0 o, io_fail t0 o = false) ->
  (forall t0 f, visudo t0 f = 0%Z) ->
  sudoers_d_dir <> [] ->
  existsb (Ascii.eqb slash) file_prefix = false ->
  fs_lookup (Named sudoers_file) t = Some (File content) ->
  (forall line, In line (splitlines (universal_newlines content)) ->
                candidate line -> ~ In hash line) ->
  let r1 := create_sudoers_d_files io_fail visudo sudoers_file file_prefix
                                   sudoers_d_dir false false t in
  ~ In ErrorOpening (out r1) ->
  NoDup (created (out r1)) ->
  (forall f, In f (created (out r1)) -> fs_lookup (Named f) t = None) ->
  let r2 := create_sudoers_d_files io_fail visudo sudoers_file file_prefix
                                   sudoers_d_dir false false (files r1) in
  files r2 = files r1 /\
  created (out r2) = [] /\
  forallb skipped (out r2) = true /\
  (forall line u,
      In line (splitlines (universal_newlines content)) ->
      rule_regex_match (strip line) = Some u ->
      excluded u = false ->
      exists f, In (AlreadyExists u f) (out r2)).
Proof.
  intros Hnf Hok Hd Hprefix Hsrc Hhash r1.
  set (process := process_line io_fail visudo sudoers_file file_prefix
                               sudoers_d_dir false false).
  set (lines := splitlines (universal_newlines content)).
  assert (E1 : r1 = let r := for_each process lines t in
                    {| value := Ret tt; files := files r;
                       out := out r ++ match value r with
                                       | Ret _ => []
                                       | IOError => [ErrorOpening]
                                       end |}).
  { unfold r1. rewrite create_sudoers_d_files_unfold, open_read_eq, Hnf, Hsrc.
    reflexivity. }
  rewrite E1. cbv zeta. cbn [files out]. clear E1 r1.
  intros Herr.
  destruct (value (for_each process lines t)) as [[]|] eqn:V1.
  2:{ exfalso. apply Herr. apply in_or_app. right. now left. }
  rewrite app_nil_r. intros Hnd Hfresh.
  assert (Hplain : forall l, In l lines -> plain l).
  { intros l Hl. split; [now apply Hhash|]. intro H.
    apply (splitlines_in _ _ _ Hl) in H.
    now apply universal_newlines_no_cr in H. }
  destruct (@first_run_invariant io_fail visudo sudoers_file file_prefix
              sudoers_d_dir Hnf Hok Hd Hprefix lines t Hplain V1
              Hnd Hfresh) as [[added Ea] Hk].
  destruct (@second_run_skips io_fail visudo sudoers_file file_prefix
              sudoers_d_dir lines (files (for_each process lines t)) Hk)
    as (V2 & F2 & S2 & A2).
  subst process lines. cbv beta in *.
  assert (Hsrc' : fs_lookup (Named sudoers_file)
                     (files (for_each
                               (process_line io_fail visudo sudoers_file
                                  file_prefix sudoers_d_dir false false)
                               (splitlines (universal_newlines content)) t)) =
                   Some (File content)).
  { now rewrite Ea, fs_lookup_app, Hsrc. }
  rewrite create_sudoers_d_files_unfold, open_read_eq, Hnf, Hsrc'.
  cbn [value]. cbv zeta. rewrite V2. cbn [files out]. rewrite app_nil_r.
  repeat split; auto. now apply skipped_created.
Qed.

Lemma second_run_creates_nothing_witness :
  files (create_sudoers_d_files never_fails visudo_accepts (lit "/etc/sudoers")
           (lit "10") (lit "/etc/sudoers.d/") false false
           (files (create_sudoers_d_files never_fails visudo_accepts
                     (lit "/etc/sudoers") (lit "10") (lit "/etc/sudoers.d/")
                     false false (etc two_rules [])))) =
  files (create_sudoers_d_files never_fails visudo_accepts (lit "/etc/sudoers")
           (lit "10") (lit "/etc/sudoers.d/") false false (etc two_rules [])).
Proof.
  refine (proj1 (@second_run_creates_nothing never_fails visudo_accepts
            (lit "/etc/sudoers") (lit "10") (lit "/etc/sudoers.d/")
            (etc two_rules []) two_rules
            (fun _ _ => eq_refl) (fun _ _ => eq_refl) _ eq_refl eq_refl
            _ _ _ _)).
  - discriminate.
  - intros line [<-|[<-|[]]] _; vm_compute; intuition discriminate.
  - vm_compute. intuition discriminate.
  - vm_compute. repeat constructor; simpl; intuition discriminate.
  - vm_compute. intros f [<-|[<-|[]]]; reflexivity.
Defined.

(** C5 as stated fails: two different rules of one principal share a
    fragment path. The first run writes the fragment twice and leaves the
    second rule in it; on the same source file and the directory the first
    run left, the second run finds the first rule in no fragment, and
    creates the fragment again, twice. No operation fails and the
    validator accepts everything. *)
Lemma second_run_creates_again :
  create_sudoers_d_files never_fails visudo_accepts (lit "/etc/sudoers")
    (lit "10") (lit "/etc/sudoers.d") false false (etc ls_then_cat []) =
  {| value := Ret tt;
     files := etc ls_then_cat
                  [(Named (lit "/etc/sudoers.d/10_alice"),
                    File (lit "alice ALL=(ALL) /bin/cat"))];
     out := [Processing (lit "alice ALL=(ALL) /bin/ls");
             Creating (lit "/etc/sudoers.d/10_alice"); Checking;
             Processing (lit "alice ALL=(ALL) /bin/cat");
             Creating (lit "/etc/sudoers.d/10_alice"); Checking] |} /\
  create_sudoers_d_files never_fails visudo_accepts (lit "/etc/sudoers")
    (lit "10") (lit "/etc/sudoers.d") false false
    (etc ls_then_cat
         [(Named (lit "/etc/sudoers.d/10_alice"),
           File (lit "alice ALL=(ALL) /bin/cat"))]) =
  {| value := Ret tt;
     files := etc ls_then_cat
                  [(Named (lit "/etc/sudoers.d/10_alice"),
                    File (lit "alice ALL=(ALL) /bin/cat"))];
     out := [Processing (lit "alice ALL=(ALL) /bin/ls");
             Creating (lit "/etc/sudoers.d/10_alice"); Checking;
             Processing (lit "alice ALL=(ALL) /bin/cat");
             Creating (lit "/etc/sudoers.d/10_alice"); Checking] |}.
Proof. split; reflexivity. Qed.

(** ** The Duplicate Detector on a rule with a comment (C2) *)

(** C2 at a failing input: the rule ends in a comment and the only
    fragment holds exactly that rule. The normalized text of the rule as
    the claim has it, with the comment stripped, is contained in the
    normalized content of the fragment; the detector, which keeps the
    comment in the text it looks for, reports no fragment, and the run
    creates the fragment again. *)
Theorem commented_rule_is_not_found :
  rule_regex_match commented_rule = Some (lit "alice") /\
  infixb (claimed_normalized_entry commented_rule)
         (normalize (strip_comments (universal_newlines commented_rule))) = true /\
  value (entry_exists_in_sudoers_d never_fails commented_rule
           (lit "/etc/sudoers.d")
           (etc commented_rule
                [(Named (lit "/etc/sudoers.d/10_alice"), File commented_rule)])) =
  Ret None /\
  out (create_sudoers_d_files never_fails visudo_accepts (lit "/etc/sudoers")
         (lit "10") (lit "/etc/sudoers.d") false false
         (etc commented_rule
              [(Named (lit "/etc/sudoers.d/10_alice"), File commented_rule)])) =
  [Processing commented_rule; Creating (lit "/etc/sudoers.d/10_alice"); Checking].
Proof. repeat split; reflexivity. Qed.

(** * Further properties of the code *)

(** ** The pattern and the excluded accounts *)

Lemma ident_char_lower (c : ascii) : ident_char c = true -> lower_char c = c.
Proof. by_cases_on_char c. Qed.

Lemma ident_chars_lower (s : str) : forallb ident_char s = true -> lower s = s.
Proof.
  induction s as [|c s IH]; [reflexivity|]. cbn [forallb lower map].
  intro H. apply andb_true_iff in H as [Hc Hs].
  rewrite (ident_char_lower _ Hc). f_equal. now apply IH.
Qed.

Lemma principal_lower (p : str) : principal head_char p -> lower p = p.
Proof.
  assert (I : forall q, identifier head_char q -> lower q = q).
  { intros q (c & rest & -> & Hc & Hr). apply ident_chars_lower.
    cbn [forallb]. now rewrite (head_is_ident _ Hc). }
  intros [H|(q & -> & H)]; [now apply I|].
  cbn [lower map]. change (map lower_char q) with (lower q). now rewrite I.
Qed.

Lemma principal_head (p : str) :
  principal head_char p ->
  exists c r, p = c :: r /\ (head_char c = true \/ c = percent).
Proof.
  intros [(c & r & -> & Hc & _)|(q & -> & _)]; eauto.
Qed.

(** The pattern lets no upper-case letter into a principal, so the
    lower-casing of the exclusion test changes nothing: a matched principal
    is excluded exactly when it is [root] or [%wheel] as written. Names
    such as [Root] or [%WHEEL] are kept out by the pattern, not by the
    exclusion. *)
Theorem matched_principal_is_lower_case (line u : str) :
  rule_regex_match (strip line) = Some u ->
  lower u = u /\
  (excluded u = true <-> u = lit "root" \/ u = lit "%wheel").
Proof.
  intro E. apply rule_regex_match_stripped in E as (tl & _ & Hp & _).
  assert (L : lower u = u) by now apply principal_lower.
  split; [exact L|]. unfold excluded. rewrite L, orb_true_iff.
  now rewrite !str_eqb_eq.
Qed.

Lemma matched_principal_is_lower_case_witness :
  lower (lit "%wheel") = lit "%wheel" /\
  (excluded (lit "%wheel") = true <->
   lit "%wheel" = lit "root" \/ lit "%wheel" = lit "%wheel").
Proof.
  exact (@matched_principal_is_lower_case (lit "%wheel ALL=(ALL) ALL
") (lit "%wheel") eq_refl).
Defined.

(** A line is left alone when its first non-blank character, if it has
    one, is not a lower-case letter, an underscore or the group marker:
    blank lines, comments, [Defaults] and alias lines, names starting with
    a digit or an upper-case letter. Nothing is printed for it and no file
    is read or written, whatever the mode. *)
Theorem other_lines_are_ignored
    (io_fail : fs -> op -> bool) (visudo : fs -> str -> Z)
    (sudoers_file file_prefix sudoers_d_dir : str)
    (test_mode remove_entries : bool) (line : str) (t : fs) :
  (forall c r, strip line = c :: r -> head_char c = false /\ c <> percent) ->
  process_line io_fail visudo sudoers_file file_prefix sudoers_d_dir
               test_mode remove_entries line t =
  {| value := Ret tt; files := t; out := [] |}.
Proof.
  intro H. apply process_line_unmatched.
  destruct (rule_regex_match (strip line)) as [u|] eqn:E; [|reflexivity].
  apply rule_regex_match_stripped in E as (tl & Es & Hp & _).
  destruct (principal_head Hp) as (c & r & -> & Hc).
  destruct (H c (r ++ tl) Es) as [Hh Hne].
  destruct Hc as [Hc| ->]; [congruence|contradiction].
Qed.

Lemma other_lines_are_ignored_witness :
  process_line never_fails visudo_rejects (lit "/etc/sudoers") (lit "10")
    (lit "/etc/sudoers.d") false true (lit "  # alice ALL=(ALL) ALL
") [] =
  {| value := Ret tt; files := []; out := [] |}.
Proof.
  apply other_lines_are_ignored.
  intros c r E. vm_compute in E. injection E as <- _. split; [reflexivity|].
  discriminate.
Defined.

(** ** Fragment paths that coincide *)

(** Two matched principals get the same fragment path exactly when they
    are the same name once the group marker is dropped: a user and the
    group of the same name share one fragment file. *)
Theorem same_fragment_path (line line' u u' d prefix : str) :
  rule_regex_match (strip line) = Some u ->
  rule_regex_match (strip line') = Some u' ->
  (fragment_path d prefix u = fragment_path d prefix u' <->
   drop_marker u = drop_marker u').
Proof.
  intros E E'.
  rewrite (rule_regex_match_fragment line d prefix E).
  rewrite (rule_regex_match_fragment line' d prefix E').
  split; [|now intros ->].
  intro H. repeat apply app_inv_head in H. exact H.
Qed.

Lemma same_fragment_path_witness :
  fragment_path (lit "/etc/sudoers.d") (lit "10") (lit "admins") =
  fragment_path (lit "/etc/sudoers.d") (lit "10") (lit "%admins").
Proof.
  exact (proj2 (@same_fragment_path (lit "admins ALL=(ALL) ALL")
                  (lit "%admins ALL=(ALL) ALL") (lit "admins") (lit "%admins")
                  (lit "/etc/sudoers.d") (lit "10") eq_refl eq_refl) eq_refl).
Defined.

(** ** What the Duplicate Detector returns *)

Section DetectorAnswers.

Variable io_fail : fs -> op -> bool.
Hypothesis no_fault : forall t o, io_fail t o = false.
Variables d entry : str.
Variable t : fs.

Local Abbreviation scan names :=
  (value (scan_files io_fail (normalize entry) d names t)).

Lemma scan_files_some (names : list str) (n : str) :
  scan names = Ret (Some n) <->
  exists before after,
    names = before ++ n :: after /\
    (forall m, In m before -> holds d t entry m false) /\
    holds d t entry n true.
Proof.
  unfold holds. induction names as [|x names IH].
  - split; [discriminate|]. intros (before & after & E & _).
    now destruct before.
  - rewrite scan_files_cons by exact no_fault. split.
    + destruct (fs_lookup (Named (path_join d x)) t) as [[c|]|] eqn:L;
        try discriminate.
      destruct (infixb _ _) eqn:I.
      * intro H. injection H as <-. exists [], names. repeat split.
        -- intros m [].
        -- now exists c.
      * intro H. apply IH in H as (before & after & -> & Hb & Hn).
        exists (x :: before), after. repeat split; auto.
        intros m [<-|Hm]; [now exists c|now apply Hb].
    + intros (before & after & E & Hb & (c & L & I)).
      destruct before as [|y before]; cbn [app] in E; injection E as -> ->.
      * now rewrite L, I.
      * destruct (Hb y (or_introl eq_refl)) as (cy & Ly & Iy).
        rewrite Ly, Iy. apply IH. exists before, after. repeat split.
        -- intros m Hm. apply Hb. now right.
        -- now exists c.
Qed.

Lemma scan_files_none (names : list str) :
  scan names = Ret None <-> forall m, In m names -> holds d t entry m false.
Proof.
  unfold holds. induction names as [|x names IH].
  - split; [intros _ m []|reflexivity].
  - rewrite scan_files_cons by exact no_fault. split.
    + destruct (fs_lookup (Named (path_join d x)) t) as [[c|]|] eqn:L;
        try discriminate.
      destruct (infixb _ _) eqn:I; [discriminate|].
      intros H m [<-|Hm]; [now exists c|]. now apply IH.
    + intro H. destruct (H x (or_introl eq_refl)) as (c & L & I).
      rewrite L, I. apply IH. intros m Hm. apply H. now right.
Qed.

Lemma scan_files_error (names : list str) :
  scan names = IOError <->
  exists before m after,
    names = before ++ m :: after /\
    (forall x, In x before -> holds d t entry x false) /\
    (forall content, fs_lookup (Named (path_join d m)) t <> Some (File content)).
Proof.
  unfold holds. induction names as [|x names IH].
  - split; [discriminate|]. intros (before & m & after & E & _).
    now destruct before.
  - rewrite scan_files_cons by exact no_fault. split.
    + destruct (fs_lookup (Named (path_join d x)) t) as [[c|]|] eqn:L.
      * destruct (infixb _ _) eqn:I; [discriminate|].
        intro H. apply IH in H as (before & m & after & -> & Hb & Hm).
        exists (x :: before), m, after. repeat split; auto.
        intros y [<-|Hy]; [now exists c|now apply Hb].
      * intros _. exists [], x, names. repeat split.
        -- intros y [].
        -- intros content. rewrite L. discriminate.
      * intros _. exists [], x, names. repeat split.
        -- intros y [].
        -- intros content. rewrite L. discriminate.
    + intros (before & m & after & E & Hb & Hm).
      destruct before as [|y before]; cbn [app] in E; injection E as -> ->.
      * destruct (fs_lookup (Named (path_join d m)) t) as [[c|]|];
          try reflexivity. now destruct (Hm c).
      * destruct (Hb y (or_introl eq_refl)) as (cy & Ly & Iy).
        rewrite Ly, Iy. apply IH. exists before, m, after. repeat split; auto.
        intros z Hz. apply Hb. now right.
Qed.

End DetectorAnswers.

(** The Duplicate Detector changes no file and prints nothing, whatever
    the directory holds and whichever operation fails. *)
Theorem detector_only_reads
    (io_fail : fs -> op -> bool) (entry sudoers_d_dir : str) (t : fs) :
  files (entry_exists_in_sudoers_d io_fail entry sudoers_d_dir t) = t /\
  out (entry_exists_in_sudoers_d io_fail entry sudoers_d_dir t) = [].
Proof. apply query_entry_exists. Qed.

(** When no operation fails for an outside reason, the detector returns a
    name exactly when the directory exists and that name is the first
    entry, in the order of the listing, whose content contains the entry,
    every entry before it being a readable file that does not: it stops at
    the first file that matches, and never looks at the entries after
    it. *)
Theorem detector_returns_first_holder
    (io_fail : fs -> op -> bool) (entry sudoers_d_dir : str) (t : fs)
    (file_name : str) :
  (forall t0 o, io_fail t0 o = false) ->
  (value (entry_exists_in_sudoers_d io_fail entry sudoers_d_dir t) =
   Ret (Some file_name) <->
   fs_lookup (Named sudoers_d_dir) t = Some Directory /\
   exists before after,
     dir_entries sudoers_d_dir t = before ++ file_name :: after /\
     (forall m, In m before -> holds sudoers_d_dir t entry m false) /\
     holds sudoers_d_dir t entry file_name true).
Proof.
  intro Hnf. rewrite entry_exists_value by exact Hnf.
  destruct (fs_lookup (Named sudoers_d_dir) t) as [[c|]|].
  - split; [discriminate|intros [H _]; discriminate].
  - rewrite scan_files_some by exact Hnf. tauto.
  - split; [discriminate|intros [H _]; discriminate].
Qed.

Lemma detector_returns_first_holder_witness :
  value (entry_exists_in_sudoers_d never_fails (lit "Alice  ALL=(ALL)")
           (lit "/etc/sudoers.d")
           (etc [] ([(Named (lit "/etc/sudoers.d/README"), File (lit "# alice ALL=(ALL)"))]
                    ++ ls_fragment
                    ++ [(Named (lit "/etc/sudoers.d/old"), Directory)]))) =
  Ret (Some (lit "10_alice")).
Proof.
  apply detector_returns_first_holder; [reflexivity|].
  split; [reflexivity|].
  exists [lit "README"], [lit "old"]. split; [reflexivity|]. split.
  - intros m [<-|[]]. now exists (lit "# alice ALL=(ALL)").
  - now exists (lit "alice ALL=(ALL) /bin/ls").
Defined.

(** When no operation fails for an outside reason, the detector returns
    [None] exactly when the directory exists and each of its entries is a
    readable file whose content does not contain the entry; an empty
    directory is such a case. *)
Theorem detector_returns_none
    (io_fail : fs -> op -> bool) (entry sudoers_d_dir : str) (t : fs) :
  (forall t0 o, io_fail t0 o = false) ->
  (value (entry_exists_in_sudoers_d io_fail entry sudoers_d_dir t) = Ret None <->
   fs_lookup (Named sudoers_d_dir) t = Some Directory /\
   forall m, In m (dir_entries sudoers_d_dir t) ->
             holds sudoers_d_dir t entry m false).
Proof.
  intro Hnf. rewrite entry_exists_value by exact Hnf.
  destruct (fs_lookup (Named sudoers_d_dir) t) as [[c|]|].
  - split; [discriminate|intros [H _]; discriminate].
  - rewrite scan_files_none by exact Hnf. tauto.
  - split; [discriminate|intros [H _]; discriminate].
Qed.

Lemma detector_returns_none_witness :
  value (entry_exists_in_sudoers_d never_fails (lit "bob ALL=(ALL) ALL")
           (lit "/etc/sudoers.d") (etc [] ls_fragment)) = Ret None.
Proof.
  apply detector_returns_none; [reflexivity|].
  split; [reflexivity|].
  intros m [<-|[]]. now exists (lit "alice ALL=(ALL) /bin/ls").
Defined.

(** When no operation fails for an outside reason, the detector raises
    [IOError] exactly when the directory is missing or is not a directory,
    or when, before any file that contains the entry, the listing has an
    entry that is not a readable file, a subdirectory for one. A
    subdirectory listed after the first match does no harm. *)
Theorem detector_raises
    (io_fail : fs -> op -> bool) (entry sudoers_d_dir : str) (t : fs) :
  (forall t0 o, io_fail t0 o = false) ->
  (value (entry_exists_in_sudoers_d io_fail entry sudoers_d_dir t) = IOError <->
   fs_lookup (Named sudoers_d_dir) t <> Some Directory \/
   exists before m after,
     dir_entries sudoers_d_dir t = before ++ m :: after /\
     (forall x, In x before -> holds sudoers_d_dir t entry x false) /\
     (forall content,
         fs_lookup (Named (path_join sudoers_d_dir m)) t <> Some (File content))).
Proof.
  intro Hnf. rewrite entry_exists_value by exact Hnf.
  destruct (fs_lookup (Named sudoers_d_dir) t) as [[c|]|].
  - split; [left; discriminate|reflexivity].
  - rewrite scan_files_error by exact Hnf. split; [now right|].
    intros [H|H]; [contradiction|exact H].
  - split; [left; discriminate|reflexivity].
Qed.

Lemma detector_raises_witness :
  value (entry_exists_in_sudoers_d never_fails (lit "bob ALL=(ALL) ALL")
           (lit "/etc/sudoers.d")
           (etc [] (ls_fragment
                    ++ [(Named (lit "/etc/sudoers.d/old"), Directory)]))) =
  IOError.
Proof.
  apply detector_raises; [reflexivity|]. right.
  exists [lit "10_alice"], (lit "old"), []. split; [reflexivity|]. split.
  - intros m [<-|[]]. now exists (lit "alice ALL=(ALL) /bin/ls").
  - intros content. discriminate.
Defined.

(** ** A fragment directory that is not there *)

Lemma entry_exists_no_directory
    (io_fail : fs -> op -> bool) (entry d : str) (t : fs) :
  fs_lookup (Named d) t <> Some Directory ->
  value (entry_exists_in_sudoers_d io_fail entry d t) = IOError.
Proof.
  intro H. unfold entry_exists_in_sudoers_d.
  rewrite value_bind, os_listdir_eq. cbn [value files].
  destruct (io_fail t (OpListdir d)); [reflexivity|].
  destruct (fs_lookup (Named d) t) as [[c|]|]; try reflexivity.
  now destruct H.
Qed.

(** When the fragment directory does not exist, or is a file, the run
    creates nothing and simulates nothing, in any mode: lines of excluded
    accounts are skipped as usual, and the first rule of another account
    ends the run with the message of the handler. *)
Theorem missing_directory_creates_nothing
    (io_fail : fs -> op -> bool) (visudo : fs -> str -> Z)
    (sudoers_file file_prefix sudoers_d_dir : str)
    (test_mode remove_entries : bool) (t : fs) :
  fs_lookup (Named sudoers_d_dir) t <> Some Directory ->
  let r := create_sudoers_d_files io_fail visudo sudoers_file file_prefix
                                  sudoers_d_dir test_mode remove_entries t in
  files r = t /\ forallb idle (out r) = true.
Proof.
  intros Hd r. subst r.
  assert (P : forall line t0,
             t0 = t ->
             files (process_line io_fail visudo sudoers_file file_prefix
                      sudoers_d_dir test_mode remove_entries line t0) = t0 /\
             forallb idle
               (out (process_line io_fail visudo sudoers_file file_prefix
                       sudoers_d_dir test_mode remove_entries line t0)) = true).
  { intros line t0 ->.
    destruct (rule_regex_match (strip line)) as [u|] eqn:E;
      [|now rewrite process_line_unmatched].
    destruct (excluded u) eqn:X;
      [now erewrite process_line_excluded by eassumption|].
    erewrite process_line_detect_error; eauto.
    now apply entry_exists_no_directory. }
  assert (L : forall lines,
             files (for_each (process_line io_fail visudo sudoers_file
                                file_prefix sudoers_d_dir test_mode
                                remove_entries) lines t) = t /\
             forallb idle
               (out (for_each (process_line io_fail visudo sudoers_file
                                 file_prefix sudoers_d_dir test_mode
                                 remove_entries) lines t)) = true).
  { induction lines as [|line lines [F O]]; [now split|].
    cbn [for_each]. rewrite files_bind, out_bind.
    destruct (P line t eq_refl) as [Fp Op].
    destruct (value (process_line _ _ _ _ _ _ _ line t)); [|now split].
    rewrite Fp, forallb_app, Op. now split. }
  rewrite create_sudoers_d_files_unfold.
  destruct (value (open_read io_fail (Named sudoers_file) t)) as [s|];
    [|now split].
  cbv zeta. cbn [files out]. destruct (L (splitlines s)) as [F O].
  split; [exact F|]. rewrite forallb_app, O. now destruct (value _).
Qed.

Lemma missing_directory_creates_nothing_witness :
  create_sudoers_d_files never_fails visudo_accepts (lit "/etc/sudoers")
    (lit "10") (lit "/etc/sudoers.d") false true
    [(Named (lit "/etc/sudoers"), File two_rules)] =
  {| value := Ret tt; files := [(Named (lit "/etc/sudoers"), File two_rules)];
     out := [Processing (lit "alice ALL=(ALL)"); ErrorOpening] |} /\
  files (create_sudoers_d_files never_fails visudo_accepts (lit "/etc/sudoers")
           (lit "10") (lit "/etc/sudoers.d") false true
           [(Named (lit "/etc/sudoers"), File two_rules)]) =
  [(Named (lit "/etc/sudoers"), File two_rules)].
Proof.
  split; [reflexivity|].
  refine (proj1 (@missing_directory_creates_nothing never_fails visudo_accepts
            (lit "/etc/sudoers") (lit "10") (lit "/etc/sudoers.d") false true
            [(Named (lit "/etc/sudoers"), File two_rules)] _)).
  discriminate.
Defined.

(** ** Normalized text *)

Lemma lower_char_idem (c : ascii) : lower_char (lower_char c) = lower_char c.
Proof. by_cases_on_char c. Qed.

Lemma split_ws_solid (p : str) : solid p -> split_ws p = [p].
Proof.
  intros [Hne Hp]. induction p as [|x p IH]; [contradiction|].
  cbn [forallb] in Hp. apply andb_true_iff in Hp as [Hx Hp].
  apply negb_true_iff in Hx.
  destruct p as [|y p].
  - cbn. now rewrite Hx.
  - change (split_ws (x :: y :: p))
      with (if is_space x then split_ws (y :: p)
            else if is_space y then [x] :: split_ws (y :: p)
                 else match split_ws (y :: p) with
                      | w :: ws => (x :: w) :: ws
                      | [] => [[x]]
                      end).
    rewrite Hx, IH; [|discriminate|exact Hp].
    cbn [forallb] in Hp. apply andb_true_iff in Hp as [Hy _].
    apply negb_true_iff in Hy. now rewrite Hy.
Qed.

Lemma split_ws_words (s : str) : Forall solid (split_ws s).
Proof.
  induction s as [|x s IH]; [constructor|].
  change (split_ws (x :: s))
    with (if is_space x then split_ws s
          else match s with
               | [] => [[x]]
               | y :: _ =>
                   if is_space y then [x] :: split_ws s
                   else match split_ws s with
                        | w :: ws => (x :: w) :: ws
                        | [] => [[x]]
                        end
               end).
  destruct (is_space x) eqn:Hx; [exact IH|].
  assert (S1 : solid [x]).
  { split; [discriminate|]. cbn. now rewrite Hx. }
  destruct s as [|y s]; [now constructor|].
  destruct (is_space y); [now constructor|].
  destruct (split_ws (y :: s)) as [|w ws]; [now constructor|].
  inversion IH as [|? ? [_ Hw] Hws]; subst. constructor; [|exact Hws].
  split; [discriminate|]. cbn [forallb]. now rewrite Hx, Hw.
Qed.

Lemma split_ws_join (ws : list str) :
  Forall solid ws -> split_ws (join [space] ws) = ws.
Proof.
  induction ws as [|w ws IH]; intro H; [reflexivity|].
  inversion H as [|? ? Hw Hws]; subst.
  destruct ws as [|w' ws].
  - cbn [join]. now apply split_ws_solid.
  - change (join [space] (w :: w' :: ws))
      with (w ++ space :: join [space] (w' :: ws)).
    rewrite split_ws_token by (exact Hw || reflexivity). now rewrite IH.
Qed.

Lemma split_ws_in (s w : str) (c : ascii) :
  In w (split_ws s) -> In c w -> In c s.
Proof.
  revert w. induction s as [|x s IH]; intros w Hw Hc; [destruct Hw|].
  change (split_ws (x :: s))
    with (if is_space x then split_ws s
          else match s with
               | [] => [[x]]
               | y :: _ =>
                   if is_space y then [x] :: split_ws s
                   else match split_ws s with
                        | w :: ws => (x :: w) :: ws
                        | [] => [[x]]
                        end
               end) in Hw.
  destruct (is_space x); [right; now apply IH with w|].
  assert (One : In w [[x]] -> In c (x :: s)).
  { intros [<-|[]]. destruct Hc as [<-|[]]. now left. }
  destruct s as [|y s]; [now apply One|].
  destruct (is_space y).
  - destruct Hw as [<-|Hw]; [apply One; now left|].
    right. now apply IH with w.
  - destruct (split_ws (y :: s)) as [|w0 ws0]; [now apply One|].
    destruct Hw as [<-|Hw].
    + destruct Hc as [<-|Hc]; [now left|right].
      apply IH with w0; [now left|exact Hc].
    + right. apply IH with w; [now right|exact Hc].
Qed.

Lemma join_in (ws : list str) (c : ascii) :
  In c (join [space] ws) -> c = space \/ exists w, In w ws /\ In c w.
Proof.
  induction ws as [|w ws IH]; [intros []|].
  destruct ws as [|w' ws].
  - cbn [join]. intro H. right. exists w. split; [now left|exact H].
  - change (join [space] (w :: w' :: ws))
      with (w ++ space :: join [space] (w' :: ws)).
    intro H. apply in_app_or in H as [H|[<-|H]].
    + right. exists w. split; [now left|exact H].
    + now left.
    + destruct (IH H) as [->|(v & Hv & Hc)]; [now left|].
      right. exists v. split; [now right|exact Hc].
Qed.

Lemma normalize_lower (s : str) : lower (normalize s) = normalize s.
Proof.
  unfold lower at 1.
  assert (H : forall c, In c (normalize s) -> lower_char c = c).
  { intros c Hc. apply join_in in Hc as [->|(w & Hw & Hc)]; [reflexivity|].
    apply (split_ws_in _ _ _ Hw) in Hc. unfold lower in Hc.
    apply in_map_iff in Hc as (b & <- & _). apply lower_char_idem. }
  induction (normalize s) as [|c l IH]; [reflexivity|].
  cbn [map]. rewrite H by now left. f_equal. apply IH.
  intros x Hx. apply H. now right.
Qed.

(** Normalizing is idempotent: the normalized text of an entry is its own
    normalized text, so the detector gives the same answer for an entry
    and for its normalized form. *)
Theorem normalized_entry_is_normal
    (io_fail : fs -> op -> bool) (entry sudoers_d_dir : str) (t : fs) :
  normalize (normalize entry) = normalize entry /\
  entry_exists_in_sudoers_d io_fail (normalize entry) sudoers_d_dir t =
  entry_exists_in_sudoers_d io_fail entry sudoers_d_dir t.
Proof.
  assert (N : normalize (normalize entry) = normalize entry).
  { unfold normalize at 1. rewrite normalize_lower. unfold normalize.
    rewrite split_ws_join; [reflexivity|apply split_ws_words]. }
  split; [exact N|]. unfold entry_exists_in_sudoers_d. now rewrite N.
Qed.

(** ** Lines and their text *)

Lemma concat_splitlines (s : str) : concat (splitlines s) = s.
Proof.
  induction s as [|c s IH]; [reflexivity|]. cbn [splitlines].
  destruct (Ascii.eqb c newline).
  - cbn. now rewrite IH.
  - destruct (splitlines s) as [|l ls].
    + cbn in *. now subst.
    + cbn in *. now rewrite IH.
Qed.

Lemma terminated_cons (c : ascii) (l : str) :
  Ascii.eqb c newline = false -> terminated l -> terminated (c :: l).
Proof.
  intros Hc (body & -> & Hb). exists (c :: body). split; [reflexivity|].
  intros [H|H]; [|contradiction]. subst c. now rewrite Ascii.eqb_refl in Hc.
Qed.

Lemma unterminated_cons (c : ascii) (l : str) :
  Ascii.eqb c newline = false -> ~ In newline l -> unterminated (c :: l).
Proof.
  intros Hc Hl. split; [discriminate|].
  intros [H|H]; [|contradiction]. subst c. now rewrite Ascii.eqb_refl in Hc.
Qed.

Lemma splitlines_line_list (s : str) : line_list (splitlines s).
Proof.
  induction s as [|c s IH]; [exact I|]. cbn [splitlines].
  destruct (Ascii.eqb c newline) eqn:Hc.
  - apply Ascii.eqb_eq in Hc. subst c.
    assert (T : terminated [newline]) by (exists []; split; [reflexivity|intros []]).
    cbn [line_list]. split; [|exact IH].
    destruct (splitlines s); [now left|exact T].
  - destruct (splitlines s) as [|l ls].
    + cbn. split; [|exact I]. right. now apply unterminated_cons.
    + cbn [line_list] in *. destruct IH as [Hl Hls]. split; [|exact Hls].
      destruct ls.
      * destruct Hl as [Hl|[_ Hl]];
          [left; now apply terminated_cons|right; now apply unterminated_cons].
      * now apply terminated_cons.
Qed.

Lemma splitlines_terminated (body s : str) :
  ~ In newline body ->
  splitlines (body ++ newline :: s) = (body ++ [newline]) :: splitlines s.
Proof.
  induction body as [|c body IH]; intro H.
  - cbn [app splitlines]. now rewrite Ascii.eqb_refl.
  - cbn [app splitlines].
    destruct (Ascii.eqb c newline) eqn:Hc.
    + apply Ascii.eqb_eq in Hc. subst c. exfalso. apply H. now left.
    + rewrite IH; [reflexivity|]. intro; apply H; now right.
Qed.

Lemma splitlines_unterminated (l : str) : unterminated l -> splitlines l = [l].
Proof.
  intros [Hne H]. induction l as [|c l IH]; [contradiction|].
  cbn [splitlines].
  destruct (Ascii.eqb c newline) eqn:Hc.
  - apply Ascii.eqb_eq in Hc. subst c. exfalso. apply H. now left.
  - destruct l as [|d l]; [reflexivity|].
    rewrite IH; [reflexivity|discriminate|]. intro; apply H; now right.
Qed.

Lemma splitlines_concat (ls : list str) :
  line_list ls -> splitlines (concat ls) = ls.
Proof.
  induction ls as [|l ls IH]; [reflexivity|].
  cbn [line_list concat]. intros [Hl Hls].
  assert (T : terminated l -> splitlines (l ++ concat ls) = l :: ls).
  { intros (body & -> & Hb). rewrite <- app_assoc. cbn [app].
    rewrite splitlines_terminated by exact Hb. now rewrite IH. }
  destruct ls as [|l' ls]; [|now apply T].
  destruct Hl as [Hl|Hl]; [now apply T|].
  cbn [concat]. rewrite app_nil_r. now apply splitlines_unterminated.
Qed.

Lemma line_list_filter (f : str -> bool) (ls : list str) :
  line_list ls -> line_list (filter f ls).
Proof.
  induction ls as [|l ls IH]; [exact id|].
  cbn [line_list filter]. intros [Hl Hls].
  destruct (f l); [|now apply IH].
  cbn [line_list]. split; [|now apply IH].
  destruct ls as [|l' ls]; [exact Hl|].
  destruct (filter f (l' :: ls)); [now left|exact Hl].
Qed.

Lemma concat_in (ls : list str) (c : ascii) :
  In c (concat ls) -> exists l, In l ls /\ In c l.
Proof.
  intro H. apply in_concat in H as (l & Hl & Hc). now exists l.
Qed.

Lemma lines_of_no_cr (content l : str) :
  In l (lines_of content) -> ~ In carriage_return l.
Proof.
  intros Hl H. apply (splitlines_in _ _ _ Hl) in H.
  now apply universal_newlines_no_cr in H.
Qed.

Lemma lines_of_kept (entry content : str) :
  lines_of (concat (kept_lines entry (lines_of content))) =
  kept_lines entry (lines_of content).
Proof.
  unfold lines_of at 1. rewrite universal_newlines_id.
  - apply splitlines_concat, line_list_filter, splitlines_line_list.
  - intro H. apply concat_in in H as (l & Hl & Hc).
    apply filter_In in Hl as [Hl _]. now apply (lines_of_no_cr _ _ Hl).
Qed.

(** ** What a removal leaves *)

(** After a successful removal the source file, read again, has exactly
    the lines of the old one that do not trim to the entry, in their
    order and with their text: every line that trims to the entry is gone,
    however it was indented, and the file has no carriage return left
    (line ends of the form CR LF come back as LF). *)
Theorem removal_keeps_the_other_lines
    (io_fail : fs -> op -> bool) (sudoers_file entry : str) (t : fs) :
  let r := remove_entry_from_sudoers io_fail sudoers_file entry t in
  value r = Ret tt ->
  exists content content',
    fs_lookup (Named sudoers_file) t = Some (File content) /\
    fs_lookup (Named sudoers_file) (files r) = Some (File content') /\
    lines_of content' = kept_lines entry (lines_of content) /\
    (forall line, In line (lines_of content') -> strip line <> entry) /\
    ~ In carriage_return content'.
Proof.
  cbv zeta. intro V.
  destruct (remove_entry_cases io_fail sudoers_file entry t)
    as [_ [[V' _]|[_ (content & Hsrc & F)]]]; [congruence|].
  exists content, (concat (kept_lines entry (lines_of content))).
  split; [exact Hsrc|]. split; [rewrite F; apply fs_lookup_set_same|].
  split; [apply lines_of_kept|]. split.
  - intros line Hl. rewrite lines_of_kept in Hl.
    apply filter_In in Hl as [_ Hl]. apply negb_true_iff in Hl.
    intro E. apply str_eqb_eq in E. congruence.
  - intro H. apply concat_in in H as (l & Hl & Hc).
    apply filter_In in Hl as [Hl _]. now apply (lines_of_no_cr _ _ Hl).
Qed.

Lemma removal_keeps_the_other_lines_witness :
  exists content content',
    fs_lookup (Named (lit "/etc/sudoers")) (etc two_rules []) = Some (File content) /\
    fs_lookup (Named (lit "/etc/sudoers"))
      (files (remove_entry_from_sudoers never_fails (lit "/etc/sudoers")
                (lit "alice ALL=(ALL)") (etc two_rules []))) =
    Some (File content') /\
    lines_of content' = kept_lines (lit "alice ALL=(ALL)") (lines_of content) /\
    (forall line, In line (lines_of content') ->
                  strip line <> lit "alice ALL=(ALL)") /\
    ~ In carriage_return content'.
Proof.
  exact (@removal_keeps_the_other_lines never_fails (lit "/etc/sudoers")
           (lit "alice ALL=(ALL)") (etc two_rules []) eq_refl).
Defined.

(** A removal is idempotent: removing the same entry a second time, when
    both removals succeed, leaves every file as the first removal left
    it. *)
Theorem second_removal_changes_nothing
    (io_fail : fs -> op -> bool) (sudoers_file entry : str) (t : fs) :
  let r1 := remove_entry_from_sudoers io_fail sudoers_file entry t in
  let r2 := remove_entry_from_sudoers io_fail sudoers_file entry (files r1) in
  value r1 = Ret tt -> value r2 = Ret tt -> files r2 = files r1.
Proof.
  cbv zeta. intros V1 V2.
  destruct (remove_entry_cases io_fail sudoers_file entry t)
    as [_ [[V' _]|[_ (content & Hsrc & F)]]]; [congruence|].
  destruct (remove_entry_cases io_fail sudoers_file entry
              (files (remove_entry_from_sudoers io_fail sudoers_file entry t)))
    as [_ [[V' _]|[_ (content' & Hsrc' & F')]]]; [congruence|].
  rewrite F'. apply fs_set_same. rewrite Hsrc'. f_equal. f_equal.
  rewrite F, fs_lookup_set_same in Hsrc'. injection Hsrc' as <-.
  change (without_entry entry (splitlines (universal_newlines content)))
    with (concat (kept_lines entry (lines_of content))).
  change (concat (kept_lines entry (lines_of content)) =
          concat (kept_lines entry
                    (lines_of (concat (kept_lines entry (lines_of content)))))).
  rewrite lines_of_kept. f_equal. unfold kept_lines.
  induction (lines_of content) as [|l ls IH]; [reflexivity|].
  cbn [filter]. destruct (negb (str_eqb (strip l) entry)) eqn:K; [|exact IH].
  cbn [filter]. rewrite K. now rewrite <- IH.
Qed.

Lemma second_removal_changes_nothing_witness :
  files (remove_entry_from_sudoers never_fails (lit "/etc/sudoers")
           (lit "alice ALL=(ALL)")
           (files (remove_entry_from_sudoers never_fails (lit "/etc/sudoers")
                     (lit "alice ALL=(ALL)") (etc two_rules [])))) =
  files (remove_entry_from_sudoers never_fails (lit "/etc/sudoers")
           (lit "alice ALL=(ALL)") (etc two_rules [])).
Proof.
  exact (@second_removal_changes_nothing never_fails (lit "/etc/sudoers")
           (lit "alice ALL=(ALL)") (etc two_rules []) eq_refl eq_refl).
Defined.

(** Removing an entry that no line of the source trims to changes no
    content a reader of text sees. Afterwards the source path holds the
    text a text-mode reader saw in it, which is the same bytes when the
    file held no carriage return, and every other path holds what it
    held. This is about contents: the file under the source path is by
    then the former temporary file. *)
Theorem removal_of_an_absent_entry
    (io_fail : fs -> op -> bool) (sudoers_file entry content : str) (t : fs) :
  let r := remove_entry_from_sudoers io_fail sudoers_file entry t in
  value r = Ret tt ->
  fs_lookup (Named sudoers_file) t = Some (File content) ->
  (forall line, In line (lines_of content) -> strip line <> entry) ->
  fs_lookup (Named sudoers_file) (files r) =
  Some (File (universal_newlines content)) /\
  (~ In carriage_return content ->
   fs_lookup (Named sudoers_file) (files r) = Some (File content)) /\
  (forall p, p <> Named sudoers_file ->
             fs_lookup p (files r) = fs_lookup p t).
Proof.
  cbv zeta. intros V Hsrc Habsent.
  destruct (remove_entry_cases io_fail sudoers_file entry t)
    as [_ [[V' _]|[_ (content' & Hsrc' & F)]]]; [congruence|].
  assert (content' = content) as -> by congruence.
  assert (K : without_entry entry (splitlines (universal_newlines content)) =
              universal_newlines content).
  { transitivity (concat (lines_of content)); [|apply concat_splitlines].
    unfold without_entry. fold (lines_of content). f_equal.
    assert (H : forall l, In l (lines_of content) ->
                  negb (str_eqb (strip l) entry) = true).
    { intros l Hl. apply negb_true_iff.
      destruct (str_eqb (strip l) entry) eqn:E; [|reflexivity].
      apply str_eqb_eq in E. now destruct (Habsent l Hl). }
    revert H. generalize (lines_of content). clear. intros ls H.
    induction ls as [|l ls IH]; [reflexivity|].
    cbn [filter]. rewrite H by now left. f_equal. apply IH.
    intros x Hx. apply H. now right. }
  rewrite F, K. repeat split.
  - apply fs_lookup_set_same.
  - intro Hcr. rewrite universal_newlines_id by exact Hcr.
    apply fs_lookup_set_same.
  - intros p Hp. apply fs_lookup_set_other. congruence.
Qed.

Lemma removal_of_an_absent_entry_witness :
  fs_lookup (Named (lit "/etc/sudoers"))
    (files (remove_entry_from_sudoers never_fails (lit "/etc/sudoers")
              (lit "carol ALL=(ALL)") (etc two_rules []))) =
  Some (File two_rules).
Proof.
  refine (proj1 (proj2 (@removal_of_an_absent_entry never_fails
            (lit "/etc/sudoers") (lit "carol ALL=(ALL)") two_rules
            (etc two_rules []) eq_refl eq_refl _)) _).
  - intros line [<-|[<-|[]]]; vm_compute; discriminate.
  - vm_compute. intuition discriminate.
Defined.
(** ** The temporary file of a removal *)

(** A removal that returns leaves no temporary file behind. One that
    raises after its temporary file was made never deletes it: the file
    stays, with what had been copied into it, and every path other than
    the temporary file and the source file holds what it held. *)
Theorem failed_removal_leaves_its_temporary_file
    (io_fail : fs -> op -> bool) (sudoers_file entry : str) (t : fs) :
  let r := remove_entry_from_sudoers io_fail sudoers_file entry t in
  let temp := Temp (fresh_temp t) in
  (value r = Ret tt ->
   forall n, fs_lookup (Temp n) (files r) = fs_lookup (Temp n) t) /\
  (value r = IOError -> io_fail t OpTemp = false ->
   fs_lookup temp t = None /\
   (exists copied, fs_lookup temp (files r) = Some (File copied)) /\
   (forall p, p <> temp -> p <> Named sudoers_file ->
              fs_lookup p (files r) = fs_lookup p t)).
Proof.
  cbv zeta.
  pose proof (fresh_temp_fresh t) as Hfresh.
  destruct (remove_entry_shape io_fail sudoers_file entry t)
    as [_ [(V & T & F)|[(V & T & copied & F)|
           [(V & T & content & copied & x & Hs & _ & _ & F)|
            [V (content & Hs & F)]]]]];
    cbv zeta in *; rewrite V; split; intro H; try discriminate.
  - intro T'. congruence.
  - intros _. split; [exact Hfresh|]. rewrite F. split.
    + exists copied. now apply fs_lookup_last.
    + intros p Hp _. now apply fs_lookup_snoc_other.
  - intros _. split; [exact Hfresh|]. rewrite F.
    assert (Hf : fs_lookup (Temp (fresh_temp t))
                   (fs_set (Named sudoers_file) (File x) t) = None).
    { rewrite fs_lookup_set_other; [exact Hfresh|apply temp_is_not_named]. }
    split.
    + exists copied. now apply fs_lookup_last.
    + intros p Hp Hs'. rewrite fs_lookup_snoc_other by exact Hp.
      apply fs_lookup_set_other. congruence.
  - intro n. rewrite F. apply fs_lookup_set_other. apply temp_is_not_named.
Qed.

Lemma failed_removal_leaves_its_temporary_file_witness :
  fs_lookup (Temp 0) (etc two_rules []) = None /\
  exists copied,
    fs_lookup (Temp 0)
      (files (remove_entry_from_sudoers (other_device_full (lit "/etc/sudoers"))
                (lit "/etc/sudoers") (lit "alice ALL=(ALL)")
                (etc two_rules []))) = Some (File copied).
Proof.
  pose proof (proj2 (@failed_removal_leaves_its_temporary_file
                       (other_device_full (lit "/etc/sudoers"))
                       (lit "/etc/sudoers") (lit "alice ALL=(ALL)")
                       (etc two_rules [])) eq_refl eq_refl) as H.
  split; [exact (proj1 H)|exact (proj1 (proj2 H))].
Defined.

(** ** The course of one line *)

Lemma process_line_course
    (io_fail : fs -> op -> bool) (visudo : fs -> str -> Z)
    (sudoers_file file_prefix sudoers_d_dir : str)
    (test_mode remove_entries : bool) (line : str) (t : fs) :
  let r := process_line io_fail visudo sudoers_file file_prefix sudoers_d_dir
                        test_mode remove_entries line t in
  match rule_regex_match (strip line) with
  | None => out r = [] /\ value r = Ret tt
  | Some u =>
      line_run test_mode remove_entries sudoers_file (strip line) u
               (fragment_path sudoers_d_dir file_prefix u) (out r) (value r)
  end.
Proof.
  cbv zeta.
  destruct (rule_regex_match (strip line)) as [u|] eqn:E;
    [|now rewrite process_line_unmatched].
  destruct (excluded u) eqn:X.
  { erewrite process_line_excluded by eassumption. now constructor. }
  destruct (value (entry_exists_in_sudoers_d io_fail (strip line) sudoers_d_dir t))
    as [x|] eqn:V.
  2:{ erewrite process_line_detect_error by eassumption. now constructor. }
  destruct (nothing_found x) eqn:N.
  2:{ destruct x as [[|c f]|]; try discriminate.
      erewrite process_line_duplicate by eassumption. now constructor. }
  erewrite process_line_new by eassumption. cbv zeta.
  destruct test_mode; [now constructor|].
  rewrite install_fragment_eq. cbv zeta. unfold after.
  destruct (io_fail t _); [now constructor|].
  destruct (fs_lookup _ t) as [[c|]|]; try (now constructor);
    (destruct (io_fail _ (OpWriteData _ _)); [now constructor|];
     destruct (io_fail _ (OpRun _)); [now constructor|];
     destruct (negb _);
     [destruct (io_fail _ (OpRemove _)); now constructor|];
     destruct remove_entries; [|now constructor];
     cbn [value out];
     destruct (remove_entry_cases io_fail sudoers_file (strip line)
                 (fs_set (Named (fragment_path sudoers_d_dir file_prefix u))
                         (File (strip line)) t)) as [O _];
     rewrite O; now constructor).
Qed.

(** The messages of a line and its ending follow one of nine courses: an
    unmatched line prints nothing; a matched line is announced, then
    skipped (excluded account, duplicate), simulated (test mode), or
    created, checked, and then kept, deleted or removed from the source.
    The validator runs only after the fragment was written, a deletion or
    a removal only after the validator ran, and never both. *)
Theorem line_follows_its_course
    (io_fail : fs -> op -> bool) (visudo : fs -> str -> Z)
    (sudoers_file file_prefix sudoers_d_dir : str)
    (test_mode remove_entries : bool) (line : str) (t : fs) :
  let r := process_line io_fail visudo sudoers_file file_prefix sudoers_d_dir
                        test_mode remove_entries line t in
  match rule_regex_match (strip line) with
  | None => out r = [] /\ value r = Ret tt
  | Some u =>
      line_run test_mode remove_entries sudoers_file (strip line) u
               (fragment_path sudoers_d_dir file_prefix u) (out r) (value r)
  end.
Proof.
  apply process_line_course.
Qed.


(** ** What a run may touch *)

Section Frames.

Variable io_fail : fs -> op -> bool.
Variable visudo : fs -> str -> Z.
Variables sudoers_file file_prefix sudoers_d_dir : str.
Variables test_mode remove_entries : bool.

Local Abbreviation process :=
  (process_line io_fail visudo sudoers_file file_prefix sudoers_d_dir
                test_mode remove_entries).

Lemma unannounced_app (p : path) (x y : list event) :
  unannounced p (x ++ y) <-> unannounced p x /\ unannounced p y.
Proof.
  unfold unannounced. split.
  - intros [C R].
    split; (split; intros f H; [apply C|apply R]; apply in_or_app; auto).
  - intros [[C R] [C' R']]. split; intros f H;
      apply in_app_or in H as [H|H]; auto.
Qed.

(** A removal changes the source file and, when it raises, leaves a
    temporary file of its own. *)
Lemma remove_entry_other (entry : str) (p : path) (t : fs) :
  let r := remove_entry_from_sudoers io_fail sudoers_file entry t in
  Named sudoers_file <> p ->
  lasting p t \/ value r = Ret tt ->
  fs_lookup p (files r) = fs_lookup p t.
Proof.
  cbv zeta. intros Hne Hl.
  pose proof (fresh_temp_fresh t) as Hfresh.
  assert (Hp : value (remove_entry_from_sudoers io_fail sudoers_file entry t)
               = IOError -> p <> Temp (fresh_temp t)).
  { intros V E. destruct Hl as [[Hl|Hl]|Hl].
    - now apply (Hl (fresh_temp t)).
    - subst p. contradiction.
    - congruence. }
  destruct (remove_entry_shape io_fail sudoers_file entry t)
    as [_ [(V & _ & F)|[(V & _ & copied & F)|
           [(V & _ & content & copied & x & _ & _ & _ & F)|
            [V (content & _ & F)]]]]];
    cbv zeta in *; rewrite F.
  - reflexivity.
  - apply fs_lookup_snoc_other. now apply Hp.
  - rewrite fs_lookup_snoc_other by now apply Hp.
    now apply fs_lookup_set_other.
  - now apply fs_lookup_set_other.
Qed.

Lemma process_line_frame (line : str) (p : path) (t : fs) :
  unannounced p (out (process line t)) ->
  lasting p t \/ value (process line t) = Ret tt ->
  fs_lookup p (files (process line t)) = fs_lookup p t.
Proof.
  destruct (rule_regex_match (strip line)) as [u|] eqn:E;
    [|now rewrite process_line_unmatched].
  destruct (excluded u) eqn:X;
    [now erewrite process_line_excluded by eassumption|].
  destruct (value (entry_exists_in_sudoers_d io_fail (strip line) sudoers_d_dir t))
    as [x|] eqn:V;
    [|now erewrite process_line_detect_error by eassumption].
  destruct (nothing_found x) eqn:N.
  2:{ destruct x as [[|c f]|]; try discriminate.
      now erewrite process_line_duplicate by eassumption. }
  erewrite process_line_new by eassumption. cbv zeta.
  destruct test_mode; [reflexivity|].
  set (f := fragment_path sudoers_d_dir file_prefix u).
  rewrite install_fragment_eq. cbv zeta. unfold after.
  intros [Hc Hr].
  assert (Hne : Named f <> p).
  { apply Hc. cbn. auto. }
  assert (S : forall n, fs_lookup p (fs_set (Named f) n t) = fs_lookup p t).
  { intro n. now apply fs_lookup_set_other. }
  revert Hr.
  destruct (io_fail t _); [reflexivity|].
  destruct (fs_lookup (Named f) t) as [[c|]|] eqn:L; try reflexivity;
    (destruct (io_fail _ (OpWriteData _ _)); [intros; apply S|];
     destruct (io_fail _ (OpRun _)); [intros; apply S|];
     destruct (negb _);
     [destruct (io_fail _ (OpRemove _)); intros; cbn [files];
      rewrite ?fs_lookup_del_other by exact Hne; apply S|];
     destruct remove_entries; [|intros; apply S];
     cbn [files out value]; intros Hr Hl;
     rewrite remove_entry_other;
     [apply S
     |apply Hr; cbn; auto
     |destruct Hl as [[Hl|Hl]|Hl]; [left; now left| |now right];
      left; right; now rewrite S]).
Qed.

Lemma for_each_frame (p : path) (lines : list str) :
  forall t,
    unannounced p (out (for_each process lines t)) ->
    lasting p t \/ value (for_each process lines t) = Ret tt ->
    fs_lookup p (files (for_each process lines t)) = fs_lookup p t.
Proof.
  induction lines as [|line lines IH]; intro t; [reflexivity|].
  cbn [for_each]. rewrite out_bind, files_bind, value_bind.
  destruct (value (process line t)) as [[]|] eqn:V.
  - intros Hu Hl. apply unannounced_app in Hu as [Hu1 Hu2].
    assert (F : fs_lookup p (files (process line t)) = fs_lookup p t).
    { apply process_line_frame; [exact Hu1|right; exact V]. }
    rewrite IH; [exact F|exact Hu2|].
    destruct Hl as [[Hl|Hl]|Hl]; [left; now left| |now right].
    left; right. now rewrite F.
  - intros Hu Hl. apply process_line_frame; [exact Hu|].
    rewrite V. exact Hl.
Qed.

Lemma process_line_messages (line : str) (t : fs) :
  forallb of_a_line (out (process line t)) = true /\
  (remove_entries = false ->
   forall name, ~ In (Removing name) (out (process line t))).
Proof.
  destruct (rule_regex_match (strip line)) as [u|] eqn:E;
    [|rewrite process_line_unmatched by exact E; split; [reflexivity|now intros]].
  destruct (excluded u) eqn:X.
  { erewrite process_line_excluded by eassumption. split; [reflexivity|].
    intros _ name [H|[H|[]]]; discriminate. }
  destruct (value (entry_exists_in_sudoers_d io_fail (strip line) sudoers_d_dir t))
    as [x|] eqn:V.
  2:{ erewrite process_line_detect_error by eassumption. split; [reflexivity|].
      intros _ name [H|[]]; discriminate. }
  destruct (nothing_found x) eqn:N.
  2:{ destruct x as [[|c f]|]; try discriminate.
      erewrite process_line_duplicate by eassumption. split; [reflexivity|].
      intros _ name [H|[H|[]]]; discriminate. }
  erewrite process_line_new by eassumption. cbv zeta.
  destruct test_mode.
  { split; [reflexivity|]. intros _ name [H|[H|[]]]; discriminate. }
  rewrite install_fragment_eq. cbv zeta. unfold after.
  assert (Q : forall evs,
             forallb of_a_line evs = true ->
             (forall name, ~ In (Removing name) evs) ->
             forallb of_a_line
               ([Processing (strip line);
                 Creating (fragment_path sudoers_d_dir file_prefix u)] ++ evs)
             = true /\
             (remove_entries = false ->
              forall name,
                ~ In (Removing name)
                  ([Processing (strip line);
                    Creating (fragment_path sudoers_d_dir file_prefix u)] ++ evs))).
  { intros evs H1 H2. split; [exact H1|].
    intros _ name [H|[H|H]]; try discriminate. now apply (H2 name). }
  destruct (io_fail t _); [apply Q; [reflexivity|intros name []]|].
  destruct (fs_lookup _ t) as [[c|]|];
    try (apply Q; [reflexivity|intros name []]);
    (destruct (io_fail _ (OpWriteData _ _));
     [apply Q; [reflexivity|intros name []]|];
     destruct (io_fail _ (OpRun _));
     [apply Q; [reflexivity|intros name [H|[]]; discriminate]|];
     destruct (negb _);
     [destruct (io_fail _ (OpRemove _));
      (apply Q; [reflexivity|intros name [H|[H|[]]]; discriminate])|];
     destruct remove_entries;
     [|apply Q; [reflexivity|intros name [H|[]]; discriminate]];
     cbn [out];
     destruct (remove_entry_cases io_fail sudoers_file (strip line)
                 (fs_set (Named (fragment_path sudoers_d_dir file_prefix u))
                         (File (strip line)) t)) as [O _];
     rewrite O; split; [reflexivity|discriminate]).
Qed.

Lemma for_each_messages (lines : list str) :
  forall t,
    forallb of_a_line (out (for_each process lines t)) = true /\
    (remove_entries = false ->
     forall name, ~ In (Removing name) (out (for_each process lines t))).
Proof.
  induction lines as [|line lines IH]; intro t.
  - split; [reflexivity|]. intros _ name [].
  - cbn [for_each]. rewrite out_bind.
    destruct (process_line_messages line t) as [A B].
    destruct (value (process line t)); [|now split].
    destruct (IH (files (process line t))) as [A' B'].
    split; [now rewrite forallb_app, A, A'|].
    intros Hr name H. apply in_app_or in H as [H|H];
      [now apply (B Hr name)|now apply (B' Hr name)].
Qed.

End Frames.

Lemma run_frame
    (io_fail : fs -> op -> bool) (visudo : fs -> str -> Z)
    (sudoers_file file_prefix sudoers_d_dir : str)
    (test_mode remove_entries : bool) (t : fs) (p : path) :
  let r := create_sudoers_d_files io_fail visudo sudoers_file file_prefix
                                  sudoers_d_dir test_mode remove_entries t in
  unannounced p (out r) ->
  lasting p t \/ ~ In ErrorOpening (out r) ->
  fs_lookup p (files r) = fs_lookup p t.
Proof.
  cbv zeta. rewrite create_sudoers_d_files_unfold.
  destruct (value (open_read io_fail (Named sudoers_file) t)) as [s|];
    [|reflexivity].
  cbv zeta. cbn [files out]. intros Hu Hl.
  apply unannounced_app in Hu as [Hu _].
  apply for_each_frame; [exact Hu|].
  destruct Hl as [Hl|Hl]; [now left|right].
  destruct (value (for_each _ _ t)) as [[]|]; [reflexivity|].
  exfalso. apply Hl. apply in_or_app. right. now left.
Qed.

(** A run changes the files it announces and temporary files of its own,
    and no other. A path that is not a temporary file, is the file of no
    [Creating file] message and is not the file of a [Removing line]
    message holds after the run what it held before (or is still absent).
    A temporary file that was there before the run is as it was. And a
    run that does not end with the message of the handler leaves no
    temporary file behind: only a removal that failed does. *)
Theorem run_touches_only_what_it_announces
    (io_fail : fs -> op -> bool) (visudo : fs -> str -> Z)
    (sudoers_file file_prefix sudoers_d_dir : str)
    (test_mode remove_entries : bool) (t : fs) :
  let r := create_sudoers_d_files io_fail visudo sudoers_file file_prefix
                                  sudoers_d_dir test_mode remove_entries t in
  (forall p,
      (forall n, p <> Temp n) ->
      (forall f, In (Creating f) (out r) -> Named f <> p) ->
      (forall s, In (Removing s) (out r) -> Named s <> p) ->
      fs_lookup p (files r) = fs_lookup p t) /\
  (forall n,
      fs_lookup (Temp n) t <> None ->
      fs_lookup (Temp n) (files r) = fs_lookup (Temp n) t) /\
  (~ In ErrorOpening (out r) ->
   forall n, fs_lookup (Temp n) (files r) = fs_lookup (Temp n) t).
Proof.
  cbv zeta.
  assert (U : forall n evs, unannounced (Temp n) evs).
  { intros n evs. split; intros f _; apply temp_is_not_named. }
  repeat split.
  - intros p Hp Hc Hr. apply run_frame; [now split|left; now left].
  - intros n Hn. apply run_frame; [apply U|left; now right].
  - intros He n. apply run_frame; [apply U|now right].
Qed.

Lemma run_touches_only_what_it_announces_witness :
  fs_lookup (Named (lit "/etc/sudoers"))
    (files (create_sudoers_d_files never_fails visudo_accepts
              (lit "/etc/sudoers") (lit "10") (lit "/etc/sudoers.d")
              false false (etc two_rules []))) =
  fs_lookup (Named (lit "/etc/sudoers")) (etc two_rules []).
Proof.
  apply (proj1 (@run_touches_only_what_it_announces never_fails visudo_accepts
                  (lit "/etc/sudoers") (lit "10") (lit "/etc/sudoers.d")
                  false false (etc two_rules [])) (Named (lit "/etc/sudoers")));
    [intro n; apply temp_is_not_named
    |intros f H; vm_compute in H; intuition (try discriminate);
     match goal with E : Creating _ = Creating _ |- _ =>
       injection E as <-; vm_compute; discriminate end
    |intros s H; vm_compute in H; intuition discriminate].
Defined.

(** The message of the handler, [Error opening sudoers file], is printed
    at most once in a run, and then it is the last message: no line prints
    it, and no line is processed after it. *)
Theorem handler_message_comes_last
    (io_fail : fs -> op -> bool) (visudo : fs -> str -> Z)
    (sudoers_file file_prefix sudoers_d_dir : str)
    (test_mode remove_entries : bool) (t : fs) :
  let r := create_sudoers_d_files io_fail visudo sudoers_file file_prefix
                                  sudoers_d_dir test_mode remove_entries t in
  exists evs,
    forallb of_a_line evs = true /\
    (out r = evs \/ out r = evs ++ [ErrorOpening]).
Proof.
  cbv zeta. rewrite create_sudoers_d_files_unfold.
  destruct (value (open_read io_fail (Named sudoers_file) t)) as [s|].
  - cbv zeta. cbn [value out].
    destruct (for_each_messages io_fail visudo sudoers_file file_prefix
                sudoers_d_dir test_mode remove_entries (splitlines s) t)
      as [A _].
    eexists. split; [exact A|].
    destruct (value _); [left; apply app_nil_r|now right].
  - exists []. split; [reflexivity|now right].
Qed.

(** ** A line moved from the source file to its fragment *)

(** The whole course of a rule that is moved: when no fragment contains
    the rule, nothing fails, the validator accepts the fragment and the
    fragment is not the source file, then with the removal option on the
    fragment holds the trimmed line and the source file has lost every
    line that trims to it, and nothing else has changed. *)
Theorem line_is_moved
    (io_fail : fs -> op -> bool) (visudo : fs -> str -> Z)
    (sudoers_file file_prefix sudoers_d_dir : str)
    (line u content : str) (x : option str) (t : fs) :
  let f := fragment_path sudoers_d_dir file_prefix u in
  let t' := fs_set (Named f) (File (strip line)) t in
  (forall t0 o, io_fail t0 o = false) ->
  rule_regex_match (strip line) = Some u ->
  excluded u = false ->
  value (entry_exists_in_sudoers_d io_fail (strip line) sudoers_d_dir t) = Ret x ->
  nothing_found x = true ->
  fs_lookup (Named f) t <> Some Directory ->
  visudo t' f = 0%Z ->
  Named f <> Named sudoers_file ->
  fs_lookup (Named sudoers_file) t = Some (File content) ->
  process_line io_fail visudo sudoers_file file_prefix sudoers_d_dir
               false true line t =
  {| value := Ret tt;
     files := fs_set (Named sudoers_file)
                     (File (concat (kept_lines (strip line) (lines_of content))))
                     t';
     out := [Processing (strip line); Creating f; Checking;
             Removing sudoers_file] |}.
Proof.
  intros f t' Hnf E X V N Hdir Hok Hne Hsrc.
  erewrite process_line_new by eassumption. cbv zeta. fold f.
  rewrite install_fragment_eq. cbv zeta. rewrite !Hnf. fold t'. rewrite Hok.
  cbn [negb Z.eqb].
  assert (R : after [Processing (strip line); Creating f]
                (after [Checking; Removing sudoers_file]
                   (remove_entry_from_sudoers io_fail sudoers_file (strip line) t')) =
              {| value := Ret tt;
                 files := fs_set (Named sudoers_file)
                            (File (concat (kept_lines (strip line)
                                             (lines_of content)))) t';
                 out := [Processing (strip line); Creating f; Checking;
                         Removing sudoers_file] |}).
  { assert (Hsrc' : fs_lookup (Named sudoers_file) t' = Some (File content)).
    { unfold t'. now rewrite fs_lookup_set_other. }
    destruct (remove_entry_cases io_fail sudoers_file (strip line) t')
      as [O [[V' S]|[V' (content' & Hc & F)]]].
    - rewrite (@remove_entry_succeeds io_fail sudoers_file (strip line) t'
                 content Hnf Hsrc') in V'. discriminate.
    - assert (content' = content) as -> by congruence.
      unfold after. rewrite V', O, F. reflexivity. }
  destruct (fs_lookup (Named f) t) as [[c|]|]; [exact R|contradiction|exact R].
Qed.

Lemma line_is_moved_witness :
  process_line never_fails visudo_accepts (lit "/etc/sudoers") (lit "10")
    (lit "/etc/sudoers.d") false true (lit "alice ALL=(ALL)
") (etc two_rules []) =
  {| value := Ret tt;
     files := [(Named (lit "/etc/sudoers"), File (lit "bob ALL=(ALL)
"));
               (Named (lit "/etc/sudoers.d"), Directory);
               (Named (lit "/etc/sudoers.d/10_alice"),
                File (lit "alice ALL=(ALL)"))];
     out := [Processing (lit "alice ALL=(ALL)");
             Creating (lit "/etc/sudoers.d/10_alice"); Checking;
             Removing (lit "/etc/sudoers")] |}.
Proof.
  refine (@line_is_moved never_fails visudo_accepts (lit "/etc/sudoers")
            (lit "10") (lit "/etc/sudoers.d") (lit "alice ALL=(ALL)
") (lit "alice") two_rules None (etc two_rules [])
            (fun _ _ => eq_refl) eq_refl eq_refl eq_refl eq_refl _ eq_refl _
            eq_refl); discriminate.
Defined.

(** ** The backup and the script *)

Lemma up_to_slash_clean (s : str) :
  forallb (fun c => negb (Ascii.eqb c slash)) (up_to_slash s) = true.
Proof.
  induction s as [|c s IH]; [reflexivity|]. cbn [up_to_slash].
  destruct (Ascii.eqb c slash) eqn:E; [reflexivity|].
  cbn [forallb]. now rewrite E, IH.
Qed.

Lemma basename_no_leading_slash (p : str) :
  starts_with_slash (basename p) = false.
Proof.
  unfold basename.
  destruct (rev (up_to_slash (rev p))) as [|c r] eqn:E; [reflexivity|].
  unfold starts_with_slash.
  assert (H : In c (up_to_slash (rev p))).
  { apply in_rev. rewrite E. now left. }
  pose proof (up_to_slash_clean (rev p)) as A.
  rewrite forallb_forall in A. apply A in H.
  now apply negb_true_iff in H.
Qed.

Lemma backup_path_length (now sudoers_file : str) :
  length sudoers_file < length (backup_path now sudoers_file).
Proof. unfold backup_path. rewrite !length_app. cbn. lia. Qed.

Lemma backup_spelling (now tail : str) : squeeze (now ++ lit ".bak" ++ tail) <> [].
Proof.
  change (now ++ lit ".bak" ++ tail) with (now ++ "."%char :: lit "bak" ++ tail).
  rewrite squeeze_app_cons by reflexivity.
  intro H. symmetry in H. revert H. apply app_cons_not_nil.
Qed.

Lemma backup_path_differs_named (now sudoers_file : str) :
  Named sudoers_file <> Named (backup_path now sudoers_file).
Proof.
  unfold backup_path.
  change (sudoers_file ++ lit "_" ++ now ++ lit ".bak")
    with (sudoers_file ++ underscore :: now ++ lit ".bak" ++ []).
  apply resolve_longer; [reflexivity|apply backup_spelling].
Qed.

(** Nor is the source file the file of its name inside the backup path. *)
Lemma backup_target_differs_named (now sudoers_file : str) :
  Named sudoers_file <>
  Named (path_join (backup_path now sudoers_file) (basename sudoers_file)).
Proof.
  assert (J : path_join (backup_path now sudoers_file) (basename sudoers_file) =
              backup_path now sudoers_file ++ [slash] ++ basename sudoers_file).
  { unfold path_join. rewrite basename_no_leading_slash.
    assert (E : rev (backup_path now sudoers_file) =
                lit "kab." ++ rev (sudoers_file ++ lit "_" ++ now)).
    { unfold backup_path. rewrite !app_assoc, rev_app_distr.
      now rewrite <- !app_assoc. }
    destruct (backup_path now sudoers_file) as [|c b] eqn:B.
    { pose proof (backup_path_length now sudoers_file) as L.
      rewrite B in L. cbn in L. lia. }
    now rewrite E. }
  rewrite J. unfold backup_path.
  replace ((sudoers_file ++ lit "_" ++ now ++ lit ".bak") ++
           [slash] ++ basename sudoers_file)
    with (sudoers_file ++ underscore :: now ++ lit ".bak" ++
          [slash] ++ basename sudoers_file)
    by (rewrite <- !app_assoc; reflexivity).
  apply resolve_longer; [reflexivity|apply backup_spelling].
Qed.

(** A name of a fragment file never ends as the name of a backup does. *)
Lemma name_is_no_backup (b x n : str) :
  n <> [] -> forallb ident_char n = true ->
  b ++ lit "_" ++ n <> x ++ lit ".bak".
Proof.
  intros Hl Hn H.
  apply (f_equal (@rev ascii)) in H.
  rewrite !rev_app_distr in H.
  change (rev (lit "_")) with [underscore] in H.
  change (rev (lit ".bak")) with (lit "kab.") in H.
  rewrite <- !app_assoc in H.
  assert (Hr : forallb ident_char (rev n) = true).
  { apply forallb_forall. intros y Hy. apply in_rev in Hy.
    rewrite forallb_forall in Hn. now apply Hn. }
  assert (Hl' : rev n <> []).
  { intro K. apply (f_equal (@rev ascii)) in K.
    rewrite rev_involutive in K. contradiction. }
  destruct (rev n) as [|n1 [|n2 [|n3 [|n4 r]]]];
    [contradiction| | | |]; try (cbn in H; discriminate).
  cbn in H. injection H as _ _ _ E4 _. subst n4.
  cbn [forallb] in Hr. rewrite !andb_true_iff in Hr.
  destruct Hr as (_ & _ & _ & K & _). discriminate.
Qed.

Lemma fragment_path_is_no_backup_named (d prefix u x : str) :
  principal head_char u ->
  Named (fragment_path d prefix u) <> Named (x ++ lit ".bak").
Proof.
  intros Hp H. destruct (principal_name Hp) as (c & rest & En & Hn).
  rewrite (fragment_file d prefix Hp) in H. unfold Named in H.
  rewrite resolve_app_clean in H by (discriminate || reflexivity).
  injection H as H.
  refine (@name_is_no_backup (squeeze (d ++ lit "/" ++ prefix)) (squeeze x)
            (replace_percent u) _ _ _).
  - rewrite En. discriminate.
  - rewrite En. exact Hn.
  - etransitivity; [|exact H]. rewrite app_assoc. f_equal.
    transitivity (squeeze ((d ++ lit "/" ++ prefix) ++ lit "_")).
    + symmetry. now apply squeeze_app_clean.
    + f_equal. now rewrite <- !app_assoc.
Qed.

Section Backup.

Variable io_fail : fs -> op -> bool.
Variable visudo : fs -> str -> Z.
Variable now : str.

(** Without a file to read, nothing is copied and nothing is changed. *)
Lemma shutil_copy2_no_source (src dst : str) (t : fs) :
  (forall content, fs_lookup (Named src) t <> Some (File content)) ->
  shutil_copy2 io_fail src dst t = {| value := IOError; files := t; out := [] |}.
Proof.
  intro H. unfold shutil_copy2. rewrite bind_eq. cbn [get_files value files out].
  rewrite after_nil, copyfile_eq.
  destruct (path_eqb _ _); [reflexivity|].
  destruct (io_fail t (OpOpenRead (Named src))); [reflexivity|].
  destruct (fs_lookup (Named src) t) as [[content|]|] eqn:E; try reflexivity.
  exfalso. now apply (H content).
Qed.

(** A copy that returns has written the bytes of the source, and only
    them, to the destination. *)
Lemma shutil_copy2_done (src dst : str) (t : fs) :
  fs_lookup (Named dst) t <> Some Directory -> Named src <> Named dst ->
  value (shutil_copy2 io_fail src dst t) = Ret tt ->
  exists content,
    fs_lookup (Named src) t = Some (File content) /\
    shutil_copy2 io_fail src dst t =
    {| value := Ret tt; files := fs_set (Named dst) (File content) t;
       out := [] |}.
Proof.
  intros Hd Hne. unfold shutil_copy2. rewrite bind_eq.
  cbn [get_files value files out]. rewrite after_nil.
  assert (T : match fs_lookup (Named dst) t with
              | Some Directory => path_join dst (basename src)
              | _ => dst
              end = dst).
  { destruct (fs_lookup (Named dst) t) as [[c|]|]; try reflexivity.
    now contradiction Hd. }
  rewrite T, copyfile_eq, (path_eqb_neq Hne).
  destruct (io_fail t (OpOpenRead (Named src))); [discriminate|].
  destruct (fs_lookup (Named src) t) as [[content|]|] eqn:E; try discriminate.
  destruct (io_fail t (OpOpenWrite (Named dst))); [discriminate|].
  cbv zeta.
  destruct (fs_lookup (Named dst) t) as [[c|]|] eqn:L;
    [|now contradiction Hd|];
    (destruct content as [|x content];
     [intros _; exists []; split; reflexivity|];
     destruct (io_fail _ (OpWriteData (Named dst) (x :: content)));
     [discriminate|];
     intros _; exists (x :: content); split; reflexivity).
Qed.

Lemma backup_done (sudoers_file : str) (t : fs) :
  fs_lookup (Named (backup_path now sudoers_file)) t <> Some Directory ->
  script_value (backup_sudoers_file io_fail now sudoers_file t) = Ret tt ->
  exists content,
    fs_lookup (Named sudoers_file) t = Some (File content) /\
    backup_sudoers_file io_fail now sudoers_file t =
    {| script_value := Ret tt;
       script_files := fs_set (Named (backup_path now sudoers_file))
                         (File content) t;
       script_out := [BackupCreated (backup_path now sudoers_file)] |}.
Proof.
  intros Hd. unfold backup_sudoers_file. cbv zeta.
  destruct (value (shutil_copy2 io_fail sudoers_file
                     (backup_path now sudoers_file) t)) as [[]|] eqn:V;
    [|discriminate].
  intros _.
  destruct (@shutil_copy2_done sudoers_file (backup_path now sudoers_file) t
              Hd (@backup_path_differs_named now sudoers_file) V)
    as (content & Hs & E).
  exists content. split; [exact Hs|]. now rewrite E.
Qed.

(** The backup is an exact copy: when [backup_sudoers_file] returns, and
    the name of the backup was not the name of a directory, the source was
    a file, the only change is that the backup holds the bytes of the
    source (no line ending is translated), the source is as it was, and
    the one message names the backup. *)
Theorem backup_is_an_exact_copy (sudoers_file : str) (t : fs) :
  let backup_file := backup_path now sudoers_file in
  let r := backup_sudoers_file io_fail now sudoers_file t in
  fs_lookup (Named backup_file) t <> Some Directory ->
  script_value r = Ret tt ->
  exists content,
    fs_lookup (Named sudoers_file) t = Some (File content) /\
    script_files r = fs_set (Named backup_file) (File content) t /\
    fs_lookup (Named backup_file) (script_files r) = Some (File content) /\
    fs_lookup (Named sudoers_file) (script_files r) = Some (File content) /\
    script_out r = [BackupCreated backup_file].
Proof.
  cbv zeta. intros Hd V.
  destruct (@backup_done sudoers_file t Hd V) as (content & Hs & E).
  exists content. rewrite E. cbn [script_files script_out].
  repeat split; auto.
  - apply fs_lookup_set_same.
  - rewrite fs_lookup_set_other; [exact Hs|].
    intro H. symmetry in H. now apply backup_path_differs_named in H.
Qed.

(** What a copy leaves behind: the files as they were, or with the
    destination written. *)
Lemma shutil_copy2_files (src dst : str) (t : fs) :
  let target := match fs_lookup (Named dst) t with
                | Some Directory => path_join dst (basename src)
                | _ => dst
                end in
  files (shutil_copy2 io_fail src dst t) = t \/
  exists content,
    files (shutil_copy2 io_fail src dst t) =
    fs_set (Named target) (File content) t.
Proof.
  cbv zeta. unfold shutil_copy2. rewrite bind_eq.
  cbn [get_files value files out]. rewrite after_nil.
  generalize (match fs_lookup (Named dst) t with
              | Some Directory => path_join dst (basename src)
              | _ => dst
              end).
  intro target. rewrite copyfile_eq.
  destruct (path_eqb _ _); [now left|].
  destruct (io_fail t (OpOpenRead (Named src))); [now left|].
  destruct (fs_lookup (Named src) t) as [[content|]|]; try now left.
  destruct (io_fail t (OpOpenWrite (Named target))); [now left|].
  cbv zeta.
  destruct (fs_lookup (Named target) t) as [[c|]|]; try (now left);
    (destruct content as [|x content]; [right; now exists []|];
     destruct (io_fail _ (OpWriteData (Named target) (x :: content)));
     [right; now exists []|right; now exists (x :: content)]).
Qed.

(** The backup touches one path, and never the source: whatever happens
    during the copy, every path but the destination of the copy is as it
    was, and the destination (the backup path, or the name of the source
    inside it when the backup path is a directory) is not the source. *)
Theorem backup_touches_one_path (sudoers_file : str) (t : fs) :
  let backup_file := backup_path now sudoers_file in
  let target := match fs_lookup (Named backup_file) t with
                | Some Directory => path_join backup_file (basename sudoers_file)
                | _ => backup_file
                end in
  let r := backup_sudoers_file io_fail now sudoers_file t in
  target <> sudoers_file /\
  Named target <> Named sudoers_file /\
  fs_lookup (Named sudoers_file) (script_files r) =
  fs_lookup (Named sudoers_file) t /\
  forall p, p <> Named target ->
            fs_lookup p (script_files r) = fs_lookup p t.
Proof.
  cbv zeta.
  assert (N : Named (match fs_lookup (Named (backup_path now sudoers_file)) t with
                     | Some Directory =>
                         path_join (backup_path now sudoers_file)
                                   (basename sudoers_file)
                     | _ => backup_path now sudoers_file
                     end) <> Named sudoers_file).
  { intro H. symmetry in H. revert H.
    destruct (fs_lookup (Named (backup_path now sudoers_file)) t) as [[c|]|];
      (apply backup_path_differs_named || apply backup_target_differs_named). }
  assert (F : forall p,
             p <> Named (match fs_lookup (Named (backup_path now sudoers_file)) t with
                         | Some Directory =>
                             path_join (backup_path now sudoers_file)
                                       (basename sudoers_file)
                         | _ => backup_path now sudoers_file
                         end) ->
             fs_lookup p (script_files
                            (backup_sudoers_file io_fail now sudoers_file t)) =
             fs_lookup p t).
  { intros p Hp.
    assert (E : script_files (backup_sudoers_file io_fail now sudoers_file t) =
                files (shutil_copy2 io_fail sudoers_file
                         (backup_path now sudoers_file) t)).
    { unfold backup_sudoers_file. cbv zeta.
      now destruct (value (shutil_copy2 io_fail sudoers_file
                             (backup_path now sudoers_file) t)). }
    rewrite E.
    destruct (shutil_copy2_files sudoers_file (backup_path now sudoers_file) t)
      as [->|(content & ->)]; [reflexivity|].
    apply fs_lookup_set_other. congruence. }
  split; [|split; [exact N|split; [|exact F]]].
  - intro H. apply N. now rewrite H.
  - apply F. intro H. apply N. now symmetry.
Qed.



(** Without a source file that can be read, the script ends in one of
    two ways: with [--backup] the error of the copy leaves the script
    uncaught, before anything is printed; without it the handler of
    [create_sudoers_d_files] prints its message and the script ends
    normally. Either way no file is changed. *)
Theorem script_without_a_source_file (args : Args.t) (t : fs) :
  (forall content,
      fs_lookup (Named (Args.sudoers_file args)) t <> Some (File content)) ->
  main io_fail visudo now args t =
  if Args.backup args
  then {| script_value := IOError; script_files := t; script_out := [] |}
  else {| script_value := Ret tt; script_files := t;
          script_out := [Line ErrorOpening] |}.
Proof.
  intro H. unfold main. destruct (Args.backup args).
  - unfold backup_sudoers_file. cbv zeta.
    now rewrite (@shutil_copy2_no_source _ _ _ H).
  - cbn [script_value script_files script_out].
    rewrite create_sudoers_d_files_unfold, open_read_eq. cbn [value].
    destruct (io_fail t (OpOpenRead (Named (Args.sudoers_file args))));
      [reflexivity|].
    destruct (fs_lookup (Named (Args.sudoers_file args)) t) as [[content|]|] eqn:E;
      try reflexivity.
    exfalso. now apply (H content).
Qed.

Section Announcements.

Variables sudoers_file file_prefix sudoers_d_dir : str.
Variables test_mode remove_entries : bool.

(** What the messages of a run can name: a created file is the fragment
    file of a principal, a file entries are removed from is the source. *)
Lemma process_line_announces (line : str) (t : fs) :
  let r := process_line io_fail visudo sudoers_file file_prefix sudoers_d_dir
                        test_mode remove_entries line t in
  (forall f, In (Creating f) (out r) ->
             exists u, principal head_char u /\
                       f = fragment_path sudoers_d_dir file_prefix u) /\
  (forall name, In (Removing name) (out r) -> name = sudoers_file).
Proof.
  cbv zeta.
  pose proof (process_line_course io_fail visudo sudoers_file file_prefix
                sudoers_d_dir test_mode remove_entries line t) as C.
  cbv zeta in C.
  destruct (rule_regex_match (strip line)) as [u|] eqn:E.
  - apply rule_regex_match_stripped in E as (tl & _ & Hp & _).
    split.
    + intros f Hf. exists u. split; [exact Hp|].
      inversion C as [? Ho|? Ho|? ? Ho|? ? Ho|? ? Ho|? ? Ho|? ? ? Ho|? ? ? Ho|? ? ? ? Ho];
        rewrite <- Ho in Hf; cbn [In] in Hf; intuition congruence.
    + intros name Hn.
      inversion C as [? Ho|? Ho|? ? Ho|? ? Ho|? ? Ho|? ? Ho|? ? ? Ho|? ? ? Ho|? ? ? ? Ho];
        rewrite <- Ho in Hn; cbn [In] in Hn; intuition congruence.
  - destruct C as [-> _]. split; intros ? [].
Qed.

Lemma for_each_announces (lines : list str) :
  forall t,
    let r := for_each (process_line io_fail visudo sudoers_file file_prefix
                         sudoers_d_dir test_mode remove_entries) lines t in
    (forall f, In (Creating f) (out r) ->
               exists u, principal head_char u /\
                         f = fragment_path sudoers_d_dir file_prefix u) /\
    (forall name, In (Removing name) (out r) -> name = sudoers_file).
Proof.
  cbv zeta. induction lines as [|line lines IH]; intro t.
  - split; intros ? [].
  - cbn [for_each]. rewrite out_bind.
    destruct (process_line_announces line t) as [C R].
    destruct (value (process_line io_fail visudo sudoers_file file_prefix
                       sudoers_d_dir test_mode remove_entries line t)).
    + destruct (IH (files (process_line io_fail visudo sudoers_file file_prefix
                             sudoers_d_dir test_mode remove_entries line t)))
        as [C' R'].
      split; intros x Hx; apply in_app_or in Hx as [Hx|Hx]; auto.
    + split; auto.
Qed.

Lemma run_announces (t : fs) :
  let r := create_sudoers_d_files io_fail visudo sudoers_file file_prefix
             sudoers_d_dir test_mode remove_entries t in
  (forall f, In (Creating f) (out r) ->
             exists u, principal head_char u /\
                       f = fragment_path sudoers_d_dir file_prefix u) /\
  (forall name, In (Removing name) (out r) -> name = sudoers_file).
Proof.
  cbv zeta. rewrite create_sudoers_d_files_unfold.
  destruct (value (open_read io_fail (Named sudoers_file) t)) as [s|].
  - cbv zeta. cbn [out].
    destruct (for_each_announces (splitlines s) t) as [C R].
    split; intros x Hx; apply in_app_or in Hx as [Hx|Hx]; auto;
      destruct (value (for_each _ _ t)); cbn [In] in Hx;
      intuition discriminate.
  - cbn [out]. split; intros x Hx; cbn [In] in Hx; intuition discriminate.
Qed.

End Announcements.

(** The backup outlives the run: whatever the run then does (fragments
    created or deleted, entries removed from the source, errors), at the
    end of the script the backup still holds the bytes the source file
    had when the script began. *)
Theorem backup_keeps_the_original (args : Args.t) (t : fs) :
  let backup_file := backup_path now (Args.sudoers_file args) in
  Args.backup args = true ->
  fs_lookup (Named backup_file) t <> Some Directory ->
  script_value (backup_sudoers_file io_fail now (Args.sudoers_file args) t)
  = Ret tt ->
  exists content,
    fs_lookup (Named (Args.sudoers_file args)) t = Some (File content) /\
    fs_lookup (Named backup_file)
      (script_files (main io_fail visudo now args t)) = Some (File content).
Proof.
  cbv zeta. intros Hb Hd V.
  destruct (@backup_done (Args.sudoers_file args) t Hd V) as (content & Hs & E).
  exists content. split; [exact Hs|].
  unfold main. rewrite Hb, E. cbn [script_value script_files].
  match goal with
  | |- fs_lookup _ (files (create_sudoers_d_files _ _ _ _ _ _ _ ?t1)) = _ =>
      destruct (run_announces (Args.sudoers_file args) (Args.file_prefix args)
                  (Args.sudoers_d_dir args) (Args.test args) (Args.remove args)
                  t1) as [C R];
      rewrite (@run_frame io_fail visudo (Args.sudoers_file args)
                 (Args.file_prefix args) (Args.sudoers_d_dir args)
                 (Args.test args) (Args.remove args) t1
                 (Named (backup_path now (Args.sudoers_file args))))
  end.
  - apply fs_lookup_set_same.
  - split.
    + intros f H. apply C in H as (u & Hp & ->).
      unfold backup_path. rewrite !app_assoc.
      now apply fragment_path_is_no_backup_named.
    + intros s H. apply R in H. subst s.
      apply backup_path_differs_named.
  - left. left. intro n. apply temp_is_not_named.
Qed.

End Backup.

(** The properties of the backup on a small system: the two rules in
    [/etc/sudoers], an empty fragment directory, the clock at noon. *)

Lemma backup_is_an_exact_copy_witness :
  exists content,
    fs_lookup (Named (lit "/etc/sudoers")) (etc two_rules []) =
    Some (File content) /\
    script_files (backup_sudoers_file never_fails noon (lit "/etc/sudoers")
                    (etc two_rules [])) =
    fs_set (Named (lit "/etc/sudoers_20230510_120000.bak")) (File content)
      (etc two_rules []) /\
    fs_lookup (Named (lit "/etc/sudoers_20230510_120000.bak"))
      (script_files (backup_sudoers_file never_fails noon (lit "/etc/sudoers")
                       (etc two_rules []))) = Some (File content) /\
    fs_lookup (Named (lit "/etc/sudoers"))
      (script_files (backup_sudoers_file never_fails noon (lit "/etc/sudoers")
                       (etc two_rules []))) = Some (File content) /\
    script_out (backup_sudoers_file never_fails noon (lit "/etc/sudoers")
                  (etc two_rules [])) =
    [BackupCreated (lit "/etc/sudoers_20230510_120000.bak")].
Proof.
  apply (@backup_is_an_exact_copy never_fails noon (lit "/etc/sudoers")
           (etc two_rules [])); [discriminate|reflexivity].
Defined.


Lemma script_without_a_source_file_witness :
  main never_fails visudo_accepts noon Args.default
       [(Named (lit "/etc/sudoers.d"), Directory)] =
  {| script_value := Ret tt;
     script_files := [(Named (lit "/etc/sudoers.d"), Directory)];
     script_out := [Line ErrorOpening] |}.
Proof.
  apply (@script_without_a_source_file never_fails visudo_accepts noon
           Args.default [(Named (lit "/etc/sudoers.d"), Directory)]).
  discriminate.
Defined.

Lemma backup_keeps_the_original_witness :
  exists content,
    fs_lookup (Named (lit "/etc/sudoers")) (etc two_rules []) =
    Some (File content) /\
    fs_lookup (Named (lit "/etc/sudoers_20230510_120000.bak"))
      (script_files
         (main never_fails visudo_accepts noon
               {| Args.sudoers_file := lit "/etc/sudoers";
                  Args.file_prefix := lit "10";
                  Args.sudoers_d_dir := lit "/etc/sudoers.d";
                  Args.test := false; Args.remove := true;
                  Args.backup := true |}
               (etc two_rules []))) = Some (File content).
Proof.
  apply (@backup_keeps_the_original never_fails visudo_accepts noon
           {| Args.sudoers_file := lit "/etc/sudoers";
              Args.file_prefix := lit "10";
              Args.sudoers_d_dir := lit "/etc/sudoers.d";
              Args.test := false; Args.remove := true; Args.backup := true |}
           (etc two_rules []));
    [reflexivity|discriminate|reflexivity].
Defined.
